(** * memelord: the memory store core and its scoring algebra

    A shallow embedding of [packages/sdk/src/scoring.ts] and
    [packages/sdk/src/store.ts].

    Numbers.  A JavaScript [number] and an SQL [REAL] are modelled as a real
    number: the arithmetic of the source without rounding, infinities or NaN.
    A NaN is followed in one place, the weight that [insertRawMemory] stores
    unchecked ([Store.number]).
    Counters that the code only ever increments from zero ([count],
    [array.length]) are natural numbers, timestamps are integers.

    Absent values.  [undefined] / SQL [NULL] is [None].  [x ?? d] replaces an
    absent [x]; [x || d] also replaces the number zero. *)

From Stdlib Require Import Reals Lra List String ZArith Bool Lia Arith.
From Stdlib Require Init.Byte.
From Stdlib Require Import Sorted Permutation.
Import ListNotations.

Open Scope R_scope.

(* ------------------------------------------------------------------------- *)
(** ** JavaScript operators on optional numbers *)

(** [x ?? d] *)
Definition nullish {A : Type} (x : option A) (d : A) : A :=
  match x with
  | Some v => v
  | None => d
  end.

(** [x || d] for a number that may be [undefined]: zero is falsy. *)
Definition or_default (x : option R) (d : R) : R :=
  match x with
  | Some v => if Req_dec_T v 0 then d else v
  | None => d
  end.

(** [x || d] for a number. *)
Definition or_num (x d : R) : R := or_default (Some x) d.

(* ------------------------------------------------------------------------- *)
(** ** scoring.ts *)

Module Scoring.

(** [interface TaskBaseline] *)
Record TaskBaseline : Type := mkBaseline {
  count : nat;
  meanTokens : R;
  meanErrors : R;
  meanUserCorrections : R;
  m2Tokens : R;
  m2Errors : R;
  m2UserCorrections : R
}.

Definition emptyBaseline : TaskBaseline :=
  mkBaseline 0 0 0 0 0 0 0.

(** Welford's online update; a new record is returned. *)
Definition updateBaseline (baseline : TaskBaseline)
    (tokens errors userCorrections : R) : TaskBaseline :=
  let n := S (count baseline) in
  let dTokens := tokens - meanTokens baseline in
  let dErrors := errors - meanErrors baseline in
  let dUserCorr := userCorrections - meanUserCorrections baseline in
  let meanTokens' := meanTokens baseline + dTokens / INR n in
  let meanErrors' := meanErrors baseline + dErrors / INR n in
  let meanUserCorrections' :=
    meanUserCorrections baseline + dUserCorr / INR n in
  {| count := n;
     meanTokens := meanTokens';
     meanErrors := meanErrors';
     meanUserCorrections := meanUserCorrections';
     m2Tokens := m2Tokens baseline + dTokens * (tokens - meanTokens');
     m2Errors := m2Errors baseline + dErrors * (errors - meanErrors');
     m2UserCorrections :=
       m2UserCorrections baseline
       + dUserCorr * (userCorrections - meanUserCorrections') |}.

(** [Math.sqrt(m2 / (count - 1)) || 1], and [1] below two samples.  The real
    square root is [0] on negative arguments, where [Math.sqrt] is NaN:
    both are falsy, so [|| 1] yields [1] in either reading. *)
Definition stddev (m2 : R) (count : nat) : R :=
  if (count <? 2)%nat then 1
  else or_num (sqrt (m2 / (INR count - 1))) 1.

Definition completedSignal (completed : bool) : R :=
  if completed then 1 else -1.

Definition computeTaskScore (baseline : TaskBaseline)
    (tokens errors userCorrections : R) (completed : bool) : R :=
  if (count baseline <? 10)%nat then
    let tokenDelta :=
      if (0 <? count baseline)%nat
      then (meanTokens baseline - tokens) / Rmax (meanTokens baseline) 1
      else 0 in
    let errorDelta :=
      if (0 <? count baseline)%nat
      then (meanErrors baseline - errors) / Rmax (meanErrors baseline) 1
      else 0 in
    tokenDelta + errorDelta - userCorrections * 0.5 + completedSignal completed
  else
    let zTokens :=
      (tokens - meanTokens baseline)
      / stddev (m2Tokens baseline) (count baseline) in
    let zErrors :=
      (errors - meanErrors baseline)
      / stddev (m2Errors baseline) (count baseline) in
    let zUserCorr :=
      (userCorrections - meanUserCorrections baseline)
      / stddev (m2UserCorrections baseline) (count baseline) in
    - zTokens - zErrors - zUserCorr + completedSignal completed.

Definition computeCredit (taskScore selfReportScore : R)
    (numMemoriesRetrieved : nat) : R :=
  taskScore * (selfReportScore / 3.0)
  * (1.0 / Rmax (INR numMemoriesRetrieved) 1).

(** EMA update, [Math.max(0.1, Math.min(5.0, raw))]. *)
Definition updateWeight (oldWeight credit learningRate : R) : R :=
  let raw := (1 - learningRate) * oldWeight + learningRate * credit in
  Rmax 0.1 (Rmin 5.0 raw).

(** [MemoryCategory] and [UserInputSource] are unions of string literals; the
    [switch] statements have [default] branches, so they are modelled on
    strings. *)
Definition initialWeight (category : string) (source : option string)
    (tokensWasted avgTokensPerTask : option R) : R :=
  if String.eqb category "correction" then
    let avg := or_default avgTokensPerTask 10000 in
    let cost := or_default tokensWasted 0 in
    1.0 + cost / avg
  else if String.eqb category "user" then
    match source with
    | Some src =>
        if String.eqb src "user_denial" then 2.0
        else if String.eqb src "user_correction" then 2.5
        else if String.eqb src "user_input" then 2.0
        else 2.0
    | None => 2.0
    end
  else if String.eqb category "insight" then 1.0
  else if String.eqb category "consolidated" then 1.0
  else 1.0.

(** *** The scoring formulas in the words of the specification

    These are not translations of the source: they restate the documented
    formulas, to be compared with the functions above. *)

(** "Sample stddev from M2 is sqrt(M2/(n-1)) when n >= 2, else defined
    as 1." *)
Definition stddev_spec (m2 : R) (n : nat) : R :=
  if (n <? 2)%nat then 1 else sqrt (m2 / (INR n - 1)).

(** The documented standard deviation with the guard of the source: [1]
    also when the sum of squares is not positive. *)
Definition stddev_guarded (m2 : R) (n : nat) : R :=
  if (n <? 2)%nat then 1
  else if Rle_dec m2 0 then 1
  else sqrt (m2 / (INR n - 1)).

(** Cold start: "(mu_tok - tokens)/max(mu_tok,1) + (mu_err - errors)/
    max(mu_err,1) - 0.5*userCorrections + completedSignal, with both ratio
    terms 0 when baseline.count == 0". *)
Definition coldStartScore (b : TaskBaseline)
    (tokens errors userCorrections : R) (completed : bool) : R :=
  (if (count b =? 0)%nat then 0
   else (meanTokens b - tokens) / Rmax (meanTokens b) 1)
  + (if (count b =? 0)%nat then 0
     else (meanErrors b - errors) / Rmax (meanErrors b) 1)
  - 0.5 * userCorrections
  + (if completed then 1 else -1).

(** Normal regime: "-z(tokens) - z(errors) - z(userCorrections) +
    completedSignal", for a given standard deviation [sd]. *)
Definition zScore (sd : R -> nat -> R) (b : TaskBaseline)
    (tokens errors userCorrections : R) (completed : bool) : R :=
  - ((tokens - meanTokens b) / sd (m2Tokens b) (count b))
  - ((errors - meanErrors b) / sd (m2Errors b) (count b))
  - ((userCorrections - meanUserCorrections b)
     / sd (m2UserCorrections b) (count b))
  + (if completed then 1 else -1).

(** The documented task score: cold start below ten tasks, z-scores with
    [stddev_spec] from ten on. *)
Definition computeTaskScore_spec (b : TaskBaseline)
    (tokens errors userCorrections : R) (completed : bool) : R :=
  if (count b <? 10)%nat
  then coldStartScore b tokens errors userCorrections completed
  else zScore stddev_spec b tokens errors userCorrections completed.

(** [x] is a z-score of [delta] for the deviation [sd]: stated without a
    division, so that it says what it should when [sd] is zero. *)
Definition is_zscore (x delta sd : R) : Prop := x * sd = delta.

(** "clamp(x, 0.1, 5.0)" *)
Definition clamp (x lo hi : R) : R :=
  if Rlt_dec x lo then lo else if Rlt_dec hi x then hi else x.

(** The documented initial weight of a correction:
    "1.0 + tokensWasted / max(avgTokensPerTask, 1)". *)
Definition correctionWeight_spec (tokensWasted avgTokensPerTask : R) : R :=
  1.0 + tokensWasted / Rmax avgTokensPerTask 1.

(** "user by source: user_denial -> 2.0, user_correction -> 2.5,
    user_input -> 2.0, other -> 2.0". *)
Definition userWeight_spec (source : string) : R :=
  if String.eqb source "user_correction" then 2.5 else 2.0.

End Scoring.

(* ------------------------------------------------------------------------- *)
(** ** store.ts: data model *)

Module Store.
Import Scoring.

(** One element of a [Float32Array]: its four raw bytes. *)
Record float32 : Type := mkFloat32 {
  byte0 : Byte.byte;
  byte1 : Byte.byte;
  byte2 : Byte.byte;
  byte3 : Byte.byte
}.

Definition Float32Array : Type := list float32.
Definition Buffer : Type := list Byte.byte.

(** [Buffer.from(vec.buffer, vec.byteOffset, vec.byteLength)]: the same
    bytes, four per element. *)
Definition vecBuf (vec : Float32Array) : Buffer :=
  flat_map (fun x => [byte0 x; byte1 x; byte2 x; byte3 x]) vec.

(** Table [memories]. *)
Record MemoryRow : Type := mkMemoryRow {
  m_id : string;
  m_content : string;
  m_embedding : option Buffer;
  m_category : string;
  m_weight : R;
  m_initial_cost : R;
  m_created_at : Z;
  m_last_retrieved : option Z;
  m_retrieval_count : Z;
  m_source_task : option string
}.

(** Table [tasks]. *)
Record TaskRow : Type := mkTaskRow {
  t_id : string;
  t_description : string;
  t_embedding : option Buffer;
  t_tokens_used : option R;
  t_tool_calls : option R;
  t_errors : option R;
  t_user_corrections : option R;
  t_completed : option Z;
  t_task_score : option R;
  t_started_at : option Z;
  t_finished_at : option Z
}.

(** Table [memory_retrievals]. *)
Record RetrievalRow : Type := mkRetrievalRow {
  r_memory_id : string;
  r_task_id : string;
  r_similarity : R;
  r_self_report : option R;
  r_credit : option R
}.

(** The database file.  A [meta] value is the JSON text of a baseline; it is
    represented by the record that [JSON.parse] reads back from it. *)
Record DB : Type := mkDB {
  memories : list MemoryRow;
  tasks : list TaskRow;
  memory_retrievals : list RetrievalRow;
  meta : list (string * TaskBaseline)
}.

Definition emptyDB : DB := mkDB [] [] [] [].

Definition set_memories (db : DB) (ms : list MemoryRow) : DB :=
  mkDB ms (tasks db) (memory_retrievals db) (meta db).
Definition set_tasks (db : DB) (ts : list TaskRow) : DB :=
  mkDB (memories db) ts (memory_retrievals db) (meta db).
Definition set_memory_retrievals (db : DB) (rs : list RetrievalRow) : DB :=
  mkDB (memories db) (tasks db) rs (meta db).
Definition set_meta (db : DB) (kv : list (string * TaskBaseline)) : DB :=
  mkDB (memories db) (tasks db) (memory_retrievals db) kv.

(** [interface MemelordConfig] *)
Record MemelordConfig : Type := mkConfig {
  cfg_dbPath : string;
  cfg_sessionId : string;
  cfg_embed : string -> option Float32Array;
  cfg_vectorType : option string;
  cfg_dimensions : option nat;
  cfg_topK : option nat;
  cfg_learningRate : option R;
  cfg_decayRate : option R
}.

(** The fields of [class MemoryStore].  [embed] answers [None] when the
    user's embedder rejects. *)
Record MemoryStore : Type := mkStore {
  initialized : bool;
  currentTaskId : option string;
  baseline : TaskBaseline;
  dbPath : string;
  sessionId : string;
  embed : string -> option Float32Array;
  vectorType : string;
  topK : nat;
  learningRate : R;
  decayRate : R
}.

(** The constructor: [config.dimensions] is not read. *)
Definition new_MemoryStore (config : MemelordConfig) : MemoryStore :=
  {| initialized := false;
     currentTaskId := None;
     baseline := emptyBaseline;
     dbPath := cfg_dbPath config;
     sessionId := cfg_sessionId config;
     embed := cfg_embed config;
     vectorType := nullish (cfg_vectorType config) "vector32"%string;
     topK := nullish (cfg_topK config) 5%nat;
     learningRate := nullish (cfg_learningRate config) 0.1;
     decayRate := nullish (cfg_decayRate config) 0.995 |}.

Definition set_initialized (s : MemoryStore) (b : bool) : MemoryStore :=
  mkStore b (currentTaskId s) (baseline s) (dbPath s) (sessionId s) (embed s)
    (vectorType s) (topK s) (learningRate s) (decayRate s).
Definition set_currentTaskId (s : MemoryStore) (t : option string)
    : MemoryStore :=
  mkStore (initialized s) t (baseline s) (dbPath s) (sessionId s) (embed s)
    (vectorType s) (topK s) (learningRate s) (decayRate s).
Definition set_baseline (s : MemoryStore) (b : TaskBaseline) : MemoryStore :=
  mkStore (initialized s) (currentTaskId s) b (dbPath s) (sessionId s)
    (embed s) (vectorType s) (topK s) (learningRate s) (decayRate s).

(** [interface Memory] *)
Record Memory : Type := mkMemory {
  id : string;
  content : string;
  category : string;
  weight : R;
  score : R;
  createdAt : Z;
  retrievalCount : Z
}.

Record StartTaskResult : Type := mkStartTaskResult {
  taskId : string;
  result_memories : list Memory
}.

Record ReportCorrectionInput : Type := mkReportCorrectionInput {
  lesson : string;
  whatFailed : string;
  whatWorked : string;
  tokensWasted : option R;
  toolsWasted : option R
}.

Record ReportUserInput : Type := mkReportUserInput {
  ui_lesson : string;
  ui_source : string
}.

Record SelfReportEntry : Type := mkSelfReportEntry {
  memoryId : string;
  entry_score : R
}.

Record TaskEndInput : Type := mkTaskEndInput {
  tokensUsed : R;
  toolCalls : R;
  errors : R;
  userCorrections : R;
  completed : bool;
  selfReport : option (list SelfReportEntry)
}.

Record DecayResult : Type := mkDecayResult {
  decayed : nat;
  deleted : nat
}.

(** How an [async] method settles. *)
Inductive Error : Type :=
| EmbedFailure
| EngineError.

Inductive Outcome (A : Type) : Type :=
| Returned (a : A)
| Thrown (e : Error).

Arguments Returned {A} a.
Arguments Thrown {A} e.

(* ------------------------------------------------------------------------- *)
(** ** SQL statements *)

(** [UPDATE memories SET ... WHERE id = ?] *)
Definition update_memory (f : MemoryRow -> MemoryRow) (key : string)
    (db : DB) : DB :=
  set_memories db
    (map (fun m => if String.eqb (m_id m) key then f m else m) (memories db)).

(** [SELECT ... FROM memories WHERE id = ?], first row. *)
Definition get_memory (key : string) (db : DB) : option MemoryRow :=
  find (fun m => String.eqb (m_id m) key) (memories db).

Definition with_embedding (e : option Buffer) (m : MemoryRow) : MemoryRow :=
  mkMemoryRow (m_id m) (m_content m) e (m_category m) (m_weight m)
    (m_initial_cost m) (m_created_at m) (m_last_retrieved m)
    (m_retrieval_count m) (m_source_task m).

Definition with_weight (w : R) (m : MemoryRow) : MemoryRow :=
  mkMemoryRow (m_id m) (m_content m) (m_embedding m) (m_category m) w
    (m_initial_cost m) (m_created_at m) (m_last_retrieved m)
    (m_retrieval_count m) (m_source_task m).

(** [SET last_retrieved = ?, retrieval_count = retrieval_count + 1] *)
Definition touch (now : Z) (m : MemoryRow) : MemoryRow :=
  mkMemoryRow (m_id m) (m_content m) (m_embedding m) (m_category m)
    (m_weight m) (m_initial_cost m) (m_created_at m) (Some now)
    (m_retrieval_count m + 1)%Z (m_source_task m).

(** [INSERT OR IGNORE INTO memory_retrievals
     (memory_id, task_id, similarity)] *)
Definition insert_or_ignore_retrieval (mem task : string) (sim : R)
    (db : DB) : DB :=
  if existsb (fun r => String.eqb (r_memory_id r) mem
                       && String.eqb (r_task_id r) task)
       (memory_retrievals db)
  then db
  else set_memory_retrievals db
         (memory_retrievals db ++ [mkRetrievalRow mem task sim None None]).

(** [UPDATE memory_retrievals SET self_report = ?, credit = ?
     WHERE memory_id = ? AND task_id = ?] *)
Definition rated (report credit : R) (r : RetrievalRow) : RetrievalRow :=
  mkRetrievalRow (r_memory_id r) (r_task_id r) (r_similarity r)
    (Some report) (Some credit).

Definition update_retrieval (report credit : R) (mem task : string)
    (db : DB) : DB :=
  set_memory_retrievals db
    (map (fun r =>
            if String.eqb (r_memory_id r) mem && String.eqb (r_task_id r) task
            then rated report credit r
            else r)
       (memory_retrievals db)).

(** [SELECT * FROM memories WHERE id = ?], every row. *)
Definition select_memories (key : string) (db : DB) : list MemoryRow :=
  filter (fun m => String.eqb (m_id m) key) (memories db).

(** [SELECT * FROM memory_retrievals WHERE memory_id = ? AND task_id = ?] *)
Definition select_retrievals (mem task : string) (db : DB)
    : list RetrievalRow :=
  filter (fun r => String.eqb (r_memory_id r) mem
                   && String.eqb (r_task_id r) task)
    (memory_retrievals db).

(** [INSERT INTO meta ... ON CONFLICT(key) DO UPDATE SET value = ?] *)
Fixpoint upsert (key : string) (v : TaskBaseline)
    (kv : list (string * TaskBaseline)) : list (string * TaskBaseline) :=
  match kv with
  | [] => [(key, v)]
  | (k, v0) :: rest =>
      if String.eqb k key then (k, v) :: rest
      else (k, v0) :: upsert key v rest
  end.

(** [SELECT value FROM meta WHERE key = ?] *)
Fixpoint get_meta (key : string) (kv : list (string * TaskBaseline))
    : option TaskBaseline :=
  match kv with
  | [] => None
  | (k, v) :: rest => if String.eqb k key then Some v else get_meta key rest
  end.

(** [AVG(x)] over the non-NULL values; NULL on no rows. *)
Definition sql_avg (xs : list R) : option R :=
  match xs with
  | [] => None
  | _ :: _ => Some (fold_right Rplus 0 xs / INR (List.length xs))
  end.

Definition non_null {A B : Type} (col : A -> option B) (rows : list A)
    : list B :=
  flat_map (fun r => match col r with Some v => [v] | None => [] end) rows.

(** [ORDER BY key DESC], rows of equal key staying in storage order. *)
Fixpoint insert_desc {A : Type} (key : A -> R) (x : A) (l : list A)
    : list A :=
  match l with
  | [] => [x]
  | y :: l' =>
      if Rle_dec (key y) (key x) then x :: y :: l'
      else y :: insert_desc key x l'
  end.

Definition order_by_desc {A : Type} (key : A -> R) (l : list A) : list A :=
  fold_right (insert_desc key) [] l.

Definition length_blob (b : Buffer) : nat := List.length b.

(** A row with key [k] and a non-NULL embedding is in the file. *)
Definition embedded_row (k : string) (db : DB) : Prop :=
  exists row, In row (memories db)
              /\ m_id row = k /\ m_embedding row <> None.

Definition Rltb (x y : R) : bool := if Rlt_dec x y then true else false.

Definition is_null {A : Type} (x : option A) : bool :=
  match x with
  | Some _ => false
  | None => true
  end.

Definition newline : string := String (Ascii.ascii_of_nat 10) EmptyString.

(* ------------------------------------------------------------------------- *)
(** ** store.ts: the methods of [MemoryStore]

    Every method takes the store object and the database file and gives back
    both.  [randomUUID()] and [Date.now()] are arguments of the methods that
    call them.  Statements run one after the other, each committed on its
    own: the source opens no transaction, so what ran before a failing
    statement stays in the file.  [connect] is taken to succeed. *)

Section Engine.

(** The engine's [vector_distance_cos(vfn(a), vfn(b))], [vfn] being the
    configured vector type; [None] when the engine rejects the operands. *)
Variable vector_distance_cos : string -> Buffer -> Buffer -> option R.

(** The length test of the migration in [init]. *)
Definition truncated (e : Buffer) : bool := (length_blob e <? 1536)%nat.

(** [UPDATE memories SET embedding = NULL
     WHERE embedding IS NOT NULL AND length(embedding) < 1536] *)
Definition repair (m : MemoryRow) : MemoryRow :=
  match m_embedding m with
  | Some e => if truncated e then with_embedding None m else m
  | None => m
  end.

Definition init (s : MemoryStore) (db : DB) : MemoryStore * DB :=
  if initialized s then (s, db)
  else
    let db1 := set_memories db (map repair (memories db)) in
    let s1 :=
      match get_meta "baseline" (meta db1) with
      | Some b => set_baseline s b
      | None => s
      end in
    (set_initialized s1 true, db1).

(** The loop of [embedPending] that embeds each pending row. *)
Fixpoint embed_rows (embed : string -> option Float32Array)
    (rows : list MemoryRow) : option (list (string * Buffer)) :=
  match rows with
  | [] => Some []
  | row :: rest =>
      match embed (m_content row) with
      | None => None
      | Some vec =>
          match embed_rows embed rest with
          | None => None
          | Some l => Some ((m_id row, vecBuf vec) :: l)
          end
      end
  end.

Definition write_embedding (db : DB) (e : string * Buffer) : DB :=
  update_memory (with_embedding (Some (snd e))) (fst e) db.

Definition embedPending (s : MemoryStore) (db : DB)
    : Outcome nat * MemoryStore * DB :=
  let '(s, db) := init s db in
  let rows := filter (fun m => is_null (m_embedding m)) (memories db) in
  match rows with
  | [] => (Returned 0%nat, s, db)
  | _ :: _ =>
      match embed_rows (embed s) rows with
      | None => (Thrown EmbedFailure, s, db)
      | Some embedded =>
          (Returned (List.length rows), s,
           fold_left write_embedding embedded db)
      end
  end.

(** The rows [WHERE embedding IS NOT NULL], each with its [distance]. *)
Fixpoint candidates (vfn : string) (query : Buffer) (rows : list MemoryRow)
    : option (list (MemoryRow * R)) :=
  match rows with
  | [] => Some []
  | r :: rest =>
      match m_embedding r with
      | None => candidates vfn query rest
      | Some e =>
          match vector_distance_cos vfn e query with
          | None => None
          | Some d =>
              match candidates vfn query rest with
              | None => None
              | Some l => Some ((r, d) :: l)
              end
          end
      end
  end.

(** SQL [POWER(x, y)] wherever its value is a real number: exp (y * ln x)
    for a positive base, 1 for the exponent 0, 0 for the base 0 with a
    positive exponent, and the signed power for a negative base with a
    whole exponent.  In the two cases left the engine's value is no real
    number (infinite for the base 0 with a negative exponent, not a number
    for a negative base with a fractional exponent); like every infinity
    and NaN they are outside the numbers modelled here, and 0 is written in
    their place. *)
Definition power (x y : R) : R :=
  if Rlt_dec 0 x then Rpower x y
  else if Req_dec_T y 0 then 1
  else if Req_dec_T x 0 then 0
  else if Req_dec_T (frac_part y) 0 then powerRZ x (Int_part y)
  else 0.

(** The [ORDER BY] expression of the retrieval query. *)
Definition rank (rate : R) (now : Z) (c : MemoryRow * R) : R :=
  (1.0 - snd c)
  * power rate
      ((IZR now
        - IZR (nullish (m_last_retrieved (fst c)) (m_created_at (fst c))))
       / 86400.0).

Definition to_memory (c : MemoryRow * R) : Memory :=
  let r := fst c in
  {| id := m_id r;
     content := m_content r;
     category := m_category r;
     weight := m_weight r;
     score := 1.0 - snd c;
     createdAt := m_created_at r;
     retrievalCount := m_retrieval_count r |}.

Definition record_retrieval (task : string) (now : Z) (db : DB)
    (mem : Memory) : DB :=
  update_memory (touch now) (id mem)
    (insert_or_ignore_retrieval (id mem) task (score mem) db).

Definition new_task (task description : string) (e : Buffer) (now : Z)
    : TaskRow :=
  mkTaskRow task description (Some e) None None None None None None
    (Some now) None.

Definition startTask (s : MemoryStore) (db : DB) (description : string)
    (task : string) (now : Z)
    : Outcome StartTaskResult * MemoryStore * DB :=
  let '(s, db) := init s db in
  match embed s description with
  | None => (Thrown EmbedFailure, s, db)
  | Some taskEmbedding =>
      match embedPending s db with
      | (Thrown e, s, db) => (Thrown e, s, db)
      | (Returned _, s, db) =>
          let db :=
            set_tasks db
              (tasks db
               ++ [new_task task description (vecBuf taskEmbedding) now]) in
          match candidates (vectorType s) (vecBuf taskEmbedding)
                  (memories db) with
          | None => (Thrown EngineError, s, db)
          | Some rows =>
              let mems :=
                map to_memory
                  (firstn (topK s)
                     (order_by_desc (rank (decayRate s) now) rows)) in
              let db := fold_left (record_retrieval task now) mems db in
              (Returned (mkStartTaskResult task mems),
               set_currentTaskId s (Some task), db)
          end
      end
  end.

Definition insert_memory (db : DB) (m : MemoryRow) : DB :=
  set_memories db (memories db ++ [m]).

Definition correction_content (input : ReportCorrectionInput) : string :=
  (lesson input ++ newline ++ newline ++ "Failed approach: "
   ++ whatFailed input ++ newline ++ "Working approach: "
   ++ whatWorked input)%string.

(** [SELECT AVG(tokens_used) FROM tasks WHERE tokens_used IS NOT NULL] *)
Definition avg_tokens_used (db : DB) : option R :=
  sql_avg (non_null t_tokens_used (tasks db)).

Definition reportCorrection (s : MemoryStore) (db : DB)
    (input : ReportCorrectionInput) (new_id : string) (now : Z)
    : Outcome string * MemoryStore * DB :=
  let '(s, db) := init s db in
  let content := correction_content input in
  match embed s content with
  | None => (Thrown EmbedFailure, s, db)
  | Some embedding =>
      let avgTokens := nullish (avg_tokens_used db) 10000 in
      let weight :=
        initialWeight "correction" None (tokensWasted input)
          (Some avgTokens) in
      (Returned new_id, s,
       insert_memory db
         (mkMemoryRow new_id content (Some (vecBuf embedding)) "correction"
            weight (nullish (tokensWasted input) 0) now None 0%Z
            (currentTaskId s)))
  end.

Definition reportUserInput (s : MemoryStore) (db : DB)
    (input : ReportUserInput) (new_id : string) (now : Z)
    : Outcome string * MemoryStore * DB :=
  let '(s, db) := init s db in
  match embed s (ui_lesson input) with
  | None => (Thrown EmbedFailure, s, db)
  | Some embedding =>
      let weight := initialWeight "user" (Some (ui_source input)) None None in
      (Returned new_id, s,
       insert_memory db
         (mkMemoryRow new_id (ui_lesson input) (Some (vecBuf embedding))
            "user" weight 0 now None 0%Z (currentTaskId s)))
  end.

(** [UPDATE tasks SET tokens_used = ?, ... WHERE id = ?] *)
Definition finish_task (input : TaskEndInput) (taskScore : R) (now : Z)
    (t : TaskRow) : TaskRow :=
  mkTaskRow (t_id t) (t_description t) (t_embedding t)
    (Some (tokensUsed input)) (Some (toolCalls input)) (Some (errors input))
    (Some (userCorrections input))
    (Some (if completed input then 1%Z else 0%Z))
    (Some taskScore) (t_started_at t) (Some now).

Definition update_task (f : TaskRow -> TaskRow) (key : string) (db : DB)
    : DB :=
  set_tasks db
    (map (fun t => if String.eqb (t_id t) key then f t else t) (tasks db)).

(** The body of the loop over [input.selfReport]. *)
Definition rate_entry (taskScore : R) (numRetrieved : nat) (rate : R)
    (task : string) (db : DB) (entry : SelfReportEntry) : DB :=
  let credit := computeCredit taskScore (entry_score entry) numRetrieved in
  let db :=
    match get_memory (memoryId entry) db with
    | Some memRow =>
        let newWeight := updateWeight (m_weight memRow) credit rate in
        update_memory (with_weight newWeight) (memoryId entry) db
    | None => db
    end in
  update_retrieval (entry_score entry) credit (memoryId entry) task db.

(** [for (const entry of input.selfReport)] *)
Definition rate_entries (taskScore : R) (numRetrieved : nat) (rate : R)
    (task : string) (db : DB) (entries : list SelfReportEntry) : DB :=
  fold_left (rate_entry taskScore numRetrieved rate task) entries db.

Definition endTask (s : MemoryStore) (db : DB) (task : string)
    (input : TaskEndInput) (now : Z) : Outcome unit * MemoryStore * DB :=
  let '(s, db) := init s db in
  let taskScore :=
    computeTaskScore (baseline s) (tokensUsed input) (errors input)
      (userCorrections input) (completed input) in
  let s :=
    set_baseline s
      (updateBaseline (baseline s) (tokensUsed input) (errors input)
         (userCorrections input)) in
  let db := update_task (finish_task input taskScore now) task db in
  let db := set_meta db (upsert "baseline" (baseline s) (meta db)) in
  let db :=
    match selfReport input with
    | Some (e :: l) =>
        rate_entries taskScore (List.length (e :: l)) (learningRate s) task
          db (e :: l)
    | _ => db
    end in
  let s :=
    match currentTaskId s with
    | Some t => if String.eqb t task then set_currentTaskId s None else s
    | None => s
    end in
  (Returned tt, s, db).

(** The database of [endTask] when its loop over [input.selfReport]
    begins: the task row and the baseline are written. *)
Definition before_selfReport (s : MemoryStore) (db : DB) (task : string)
    (input : TaskEndInput) (now : Z) : DB :=
  let '(s, db) := init s db in
  let taskScore :=
    computeTaskScore (baseline s) (tokensUsed input) (errors input)
      (userCorrections input) (completed input) in
  let db := update_task (finish_task input taskScore now) task db in
  set_meta db
    (upsert "baseline"
       (updateBaseline (baseline s) (tokensUsed input) (errors input)
          (userCorrections input))
       (meta db)).

(** [DELETE FROM memories WHERE weight < 0.15 AND retrieval_count > 5] *)
Definition expired (m : MemoryRow) : bool :=
  Rltb (m_weight m) 0.15 && (5 <? m_retrieval_count m)%Z.

Definition decay (s : MemoryStore) (db : DB)
    : Outcome DecayResult * MemoryStore * DB :=
  let '(s, db) := init s db in
  let scaled :=
    map (fun m => with_weight (m_weight m * decayRate s) m) (memories db) in
  (Returned {| decayed := List.length scaled;
               deleted := List.length (filter expired scaled) |},
   s, set_memories db (filter (fun m => negb (expired m)) scaled)).

Definition insertRawMemory (s : MemoryStore) (db : DB)
    (content category : string) (weight : R) (new_id : string) (now : Z)
    : Outcome string * MemoryStore * DB :=
  let '(s, db) := init s db in
  (Returned new_id, s,
   insert_memory db
     (mkMemoryRow new_id content None category weight 0 now None 0%Z
        (currentTaskId s))).

(** *** [insertRawMemory] on a weight that is not a number

    [insertRawMemory] hands its [weight] argument to the INSERT unchecked, and
    a JavaScript number may be [NaN].  SCHEMA declares
    [weight REAL DEFAULT 1.0] without NOT NULL, and the engine has no NaN: a
    NaN bound to a statement is stored as NULL. *)
Inductive number : Type :=
| Num (x : R)
| NaN.

(** What a REAL column holds for a bound number. *)
Definition bind_real (n : number) : option R :=
  match n with
  | Num x => Some x
  | NaN => None
  end.

(** What a [SELECT] gives back for a REAL column: [null] for NULL. *)
Definition column_number (v : option R) : option number :=
  match v with
  | Some x => Some (Num x)
  | None => None
  end.

(** A row of [memories] with the weight column as SCHEMA has it, NULL
    allowed. *)
Record MemoryColumns : Type := mkMemoryColumns {
  c_id : string;
  c_content : string;
  c_embedding : option Buffer;
  c_category : string;
  c_weight : option R;
  c_initial_cost : R;
  c_created_at : Z;
  c_last_retrieved : option Z;
  c_retrieval_count : Z;
  c_source_task : option string
}.

(** The [MemoryRow] of a row whose weight is not NULL. *)
Definition to_row (c : MemoryColumns) : option MemoryRow :=
  match c_weight c with
  | Some w =>
      Some (mkMemoryRow (c_id c) (c_content c) (c_embedding c) (c_category c)
              w (c_initial_cost c) (c_created_at c) (c_last_retrieved c)
              (c_retrieval_count c) (c_source_task c))
  | None => None
  end.

(** [insertRawMemory(content, category, weight)] for any number [weight]:
    the outcome, the store, the file as the INSERT finds it and the row the
    INSERT adds to [memories]. *)
Definition insertRawMemory_number (s : MemoryStore) (db : DB)
    (content category : string) (weight : number) (new_id : string) (now : Z)
    : Outcome string * MemoryStore * DB * MemoryColumns :=
  let '(s, db) := init s db in
  (Returned new_id, s, db,
   mkMemoryColumns new_id content None category (bind_real weight) 0 now
     None 0%Z (currentTaskId s)).

(** [UPDATE memories SET weight = MAX(weight * ?, 0.1) WHERE id = ?] *)
Definition penalizeMemory (s : MemoryStore) (db : DB) (key : string)
    (factor : R) : Outcome unit * MemoryStore * DB :=
  let '(s, db) := init s db in
  (Returned tt, s,
   update_memory (fun m => with_weight (Rmax (m_weight m * factor) 0.1) m)
     key db).

(** [DELETE FROM memories WHERE weight < ?]; the result is the number of
    deleted rows. *)
Definition purge (s : MemoryStore) (db : DB) (threshold : R)
    : Outcome nat * MemoryStore * DB :=
  let '(s, db) := init s db in
  (Returned
     (List.length
        (filter (fun m => Rltb (m_weight m) threshold) (memories db))),
   s,
   set_memories db
     (filter (fun m => negb (Rltb (m_weight m) threshold)) (memories db))).

(** The row of [getTopByWeight]: [score] is the weight. *)
Definition weight_memory (r : MemoryRow) : Memory :=
  {| id := m_id r;
     content := m_content r;
     category := m_category r;
     weight := m_weight r;
     score := m_weight r;
     createdAt := m_created_at r;
     retrievalCount := m_retrieval_count r |}.

(** [getTopByWeight(limit = 5)]: [ORDER BY weight DESC LIMIT ?]. *)
Definition getTopByWeight (s : MemoryStore) (db : DB) (limit : option nat)
    : Outcome (list Memory) * MemoryStore * DB :=
  let '(s, db) := init s db in
  (Returned
     (map weight_memory
        (firstn (nullish limit 5%nat) (order_by_desc m_weight (memories db)))),
   s, db).

Record TopMemory : Type := mkTopMemory {
  top_content : string;
  top_weight : R;
  top_retrievalCount : Z
}.

Record MemoryStats : Type := mkMemoryStats {
  totalMemories : nat;
  taskCount : nat;
  avgTaskScore : R;
  topMemories : list TopMemory
}.

Definition getStats (s : MemoryStore) (db : DB)
    : Outcome MemoryStats * MemoryStore * DB :=
  let '(s, db) := init s db in
  (Returned
     {| totalMemories := List.length (memories db);
        taskCount := List.length (tasks db);
        avgTaskScore := nullish (sql_avg (non_null t_task_score (tasks db))) 0;
        topMemories :=
          map (fun r =>
                 mkTopMemory (m_content r) (m_weight r) (m_retrieval_count r))
            (firstn 10 (order_by_desc m_weight (memories db))) |},
   s, db).

Record ContradictResult : Type := mkContradictResult {
  was_deleted : bool;
  correctionId : option string
}.

(** [contradictMemory(memoryId, correction?)].  The two [DELETE]s run first;
    [correction && deleted] is false for an absent and for an empty
    string. *)
Definition contradictMemory (s : MemoryStore) (db : DB) (key : string)
    (correction : option string) (new_id : string) (now : Z)
    : Outcome ContradictResult * MemoryStore * DB :=
  let '(s, db) := init s db in
  let deleted := existsb (fun m => String.eqb (m_id m) key) (memories db) in
  let db :=
    set_memories db
      (filter (fun m => negb (String.eqb (m_id m) key)) (memories db)) in
  let db :=
    set_memory_retrievals db
      (filter (fun r => negb (String.eqb (r_memory_id r) key))
         (memory_retrievals db)) in
  match correction with
  | Some text =>
      if negb (String.eqb text "") && deleted then
        match embed s text with
        | None => (Thrown EmbedFailure, s, db)
        | Some embedding =>
            (Returned (mkContradictResult deleted (Some new_id)), s,
             insert_memory db
               (mkMemoryRow new_id text (Some (vecBuf embedding))
                  "correction" 2.0 0 now None 0%Z (currentTaskId s)))
        end
      else (Returned (mkContradictResult deleted None), s, db)
  | None => (Returned (mkContradictResult deleted None), s, db)
  end.

(** [close()]: the next call initializes again. *)
Definition close (s : MemoryStore) : MemoryStore := set_initialized s false.

(* ------------------------------------------------------------------------- *)
(** ** Sequences of weight-changing operations *)

Inductive Op : Type :=
| EndTask (task : string) (input : TaskEndInput) (now : Z)
| Decay
| PenalizeMemory (key : string) (factor : R)
| ReportCorrection (input : ReportCorrectionInput) (new_id : string) (now : Z).

Definition step (st : MemoryStore * DB) (op : Op) : MemoryStore * DB :=
  match op with
  | EndTask task input now =>
      let '(_, s, db) := endTask (fst st) (snd st) task input now in (s, db)
  | Decay =>
      let '(_, s, db) := decay (fst st) (snd st) in (s, db)
  | PenalizeMemory key factor =>
      let '(_, s, db) := penalizeMemory (fst st) (snd st) key factor in (s, db)
  | ReportCorrection input new_id now =>
      let '(_, s, db) :=
        reportCorrection (fst st) (snd st) input new_id now in (s, db)
  end.

Definition run (st : MemoryStore * DB) (ops : list Op) : MemoryStore * DB :=
  fold_left step ops st.

(** Every stored weight lies in [[lo, hi]]. *)
Definition weights_within (lo hi : R) (db : DB) : Prop :=
  Forall (fun m => lo <= m_weight m <= hi) (memories db).

(** The weight [reportCorrection] gives a new memory in database [db]. *)
Definition correction_weight (db : DB) (input : ReportCorrectionInput) : R :=
  initialWeight "correction" None (tokensWasted input)
    (Some (nullish (avg_tokens_used db) 10000)).

(** An operation whose unclamped writes stay in range: a penalty factor of
    at most one, a correction whose initial weight is within the bounds. *)
Definition in_range_op (st : MemoryStore * DB) (op : Op) : Prop :=
  match op with
  | PenalizeMemory _ factor => factor <= 1
  | ReportCorrection input _ _ =>
      0.1 <= correction_weight (snd st) input <= 5.0
  | EndTask _ _ _ => True
  | Decay => True
  end.

Fixpoint in_range_ops (st : MemoryStore * DB) (ops : list Op) : Prop :=
  match ops with
  | [] => True
  | op :: rest => in_range_op st op /\ in_range_ops (step st op) rest
  end.

Definition is_decay (op : Op) : bool :=
  match op with
  | Decay => true
  | _ => false
  end.

(** Number of [decay()] calls in a sequence. *)
Definition decays (ops : list Op) : nat :=
  List.length (filter is_decay ops).

End Engine.

End Store.

(* ------------------------------------------------------------------------- *)
(** ** Vocabulary of the statements *)

Module Notions.
Import Scoring Store.

(** Sum of a list of numbers. *)
Definition total (xs : list R) : R := fold_right Rplus 0 xs.

(** Sum of the squared deviations of [xs] from [m]. *)
Definition squared_deviations (m : R) (xs : list R) : R :=
  total (map (fun x => (x - m) * (x - m)) xs).

(** The counters of one finished task: tokens, errors, user corrections. *)
Definition Counters : Type := (R * R * R)%type.

Definition tokens_of (c : Counters) : R := fst (fst c).
Definition errors_of (c : Counters) : R := snd (fst c).
Definition corrections_of (c : Counters) : R := snd c.

(** The baseline after the tasks of [cs], oldest first. *)
Definition baseline_after (cs : list Counters) : TaskBaseline :=
  fold_left
    (fun b c => updateBaseline b (tokens_of c) (errors_of c) (corrections_of c))
    cs emptyBaseline.

Definition is_end_task (op : Op) : bool :=
  match op with
  | EndTask _ _ _ => true
  | _ => false
  end.

(** Number of [endTask] calls in a sequence. *)
Definition end_tasks (ops : list Op) : nat :=
  List.length (filter is_end_task ops).

(** [l] is in descending order of [key]. *)
Definition descending {A : Type} (key : A -> R) (l : list A) : Prop :=
  StronglySorted (fun a b => key b <= key a) l.

(** [m'] is the row [m] with the weight [w]: no other column differs. *)
Definition reweighted (w : R) (m m' : MemoryRow) : Prop :=
  m_weight m' = w
  /\ m_id m' = m_id m
  /\ m_content m' = m_content m
  /\ m_embedding m' = m_embedding m
  /\ m_category m' = m_category m
  /\ m_initial_cost m' = m_initial_cost m
  /\ m_created_at m' = m_created_at m
  /\ m_last_retrieved m' = m_last_retrieved m
  /\ m_retrieval_count m' = m_retrieval_count m
  /\ m_source_task m' = m_source_task m.

(** [r'] is the retrieval row [r] with self_report [report] and credit
    [credit]: the key and the similarity are those of [r]. *)
Definition rated_as (report credit : R) (r r' : RetrievalRow) : Prop :=
  r_self_report r' = Some report
  /\ r_credit r' = Some credit
  /\ r_memory_id r' = r_memory_id r
  /\ r_task_id r' = r_task_id r
  /\ r_similarity r' = r_similarity r.

(** [t'] is the task row [t] finished with the counters of [input], the
    score [taskScore] and the time [now]: id, description, embedding and
    started_at are those of [t]. *)
Definition finished_as (input : TaskEndInput) (taskScore : R) (now : Z)
    (t t' : TaskRow) : Prop :=
  t_tokens_used t' = Some (tokensUsed input)
  /\ t_tool_calls t' = Some (toolCalls input)
  /\ t_errors t' = Some (errors input)
  /\ t_user_corrections t' = Some (userCorrections input)
  /\ t_completed t' = Some (if completed input then 1%Z else 0%Z)
  /\ t_task_score t' = Some taskScore
  /\ t_finished_at t' = Some now
  /\ t_id t' = t_id t
  /\ t_description t' = t_description t
  /\ t_embedding t' = t_embedding t
  /\ t_started_at t' = t_started_at t.

(** The days, at [now], since the row was last retrieved, or created when it
    never was. *)
Definition days_idle (now : Z) (m : MemoryRow) : R :=
  (IZR now
   - IZR (match m_last_retrieved m with
          | Some t => t
          | None => m_created_at m
          end))
  / 86400.

(** Similarity times recency for a row at distance [d]: one minus [d], times
    the positive [rate] to the power of the idle days. *)
Definition relevance (rate : R) (now : Z) (m : MemoryRow) (d : R) : R :=
  (1 - d) * exp (days_idle now m * ln rate).

(** No two memories share an id, as [PRIMARY KEY] demands. *)
Definition unique_ids (db : DB) : Prop := NoDup (map m_id (memories db)).

(** No two retrieval rows share (memory_id, task_id). *)
Definition unique_retrievals (db : DB) : Prop :=
  NoDup (map (fun r => (r_memory_id r, r_task_id r)) (memory_retrievals db)).

End Notions.

(* ------------------------------------------------------------------------- *)
(** ** Sample stores, embedders and inputs *)

Module Samples.
Import Scoring Store.

(** [new Float32Array(n)]: [n] zero elements. *)
Definition zeroVec (n : nat) : Float32Array :=
  repeat (mkFloat32 Byte.x00 Byte.x00 Byte.x00 Byte.x00) n.

(** An embedder of dimension [n], as [dummyEmbed] in the hooks. *)
Definition constEmbed (n : nat) : string -> option Float32Array :=
  fun _ => Some (zeroVec n).

(** A test engine: distance [0] between blobs of equal length, an error
    otherwise. *)
Definition sameLengthDistance (vfn : string) (a b : Buffer) : option R :=
  if (length_blob a =? length_blob b)%nat then Some 0 else None.

Definition config (dims : option nat) (e : string -> option Float32Array)
    : MemelordConfig :=
  mkConfig "memory.db" "session" e None dims None None None.

(** The store of the test scripts: [dimensions: 8]. *)
Definition store8 : MemoryStore :=
  new_MemoryStore (config (Some 8%nat) (constEmbed 8)).

(** [dimensions: 8] with an embedder that returns four elements. *)
Definition store8_embed4 : MemoryStore :=
  new_MemoryStore (config (Some 8%nat) (constEmbed 4)).

(** A baseline after ten tasks that all had the same counters. *)
Definition flatBaseline : TaskBaseline := mkBaseline 10 0 0 0 0 0 0.

Definition nineTasks : TaskBaseline := mkBaseline 9 100 2 0 50 8 0.
Definition tenTasks : TaskBaseline := mkBaseline 10 100 2 0 900 36 0.

Definition sampleMemory (key : string) (e : option Buffer) (w : R) (n : Z)
    : MemoryRow :=
  mkMemoryRow key "note" e "insight" w 0 0%Z None n None.

Definition finishedTask (key : string) (tokens : R) : TaskRow :=
  mkTaskRow key "task" None (Some tokens) (Some 0) (Some 0) (Some 0)
    (Some 1%Z) (Some 0) (Some 0%Z) (Some 1%Z).

Definition correctionInput (wasted : option R) : ReportCorrectionInput :=
  mkReportCorrectionInput "lesson" "a" "b" wasted None.

(** A database written with the 8-dimensional embedder: one memory whose
    embedding has its full 32 bytes. *)
Definition dims8DB : DB :=
  mkDB [sampleMemory "m" (Some (vecBuf (zeroVec 8))) 1 0%Z] [] [] [].

(** One memory stored by [insertRawMemory]: its embedding is pending. *)
Definition pendingDB : DB :=
  mkDB [sampleMemory "p" None 1 0%Z] [] [] [].

(** One finished task that used no tokens. *)
Definition zeroAvgDB : DB := mkDB [] [finishedTask "t0" 0] [] [].

(** Two memories that were retrieved for task [t1]. *)
Definition ratedDB : DB :=
  mkDB [sampleMemory "good" None 1 1%Z; sampleMemory "bad" None 1 1%Z]
    [mkTaskRow "t1" "auth" None None None None None None None (Some 0%Z) None]
    [mkRetrievalRow "good" "t1" 0.9 None None;
     mkRetrievalRow "bad" "t1" 0.8 None None]
    [].

(** A costly correction, a plain one that is then penalized down to the
    floor, and a decay pass. *)
Definition driftOps : list Op :=
  [ReportCorrection (correctionInput (Some 50000)) "big" 0%Z;
   ReportCorrection (correctionInput None) "low" 0%Z;
   PenalizeMemory "low" 0;
   Decay].

(** A plain correction, a penalty and a decay pass. *)
Definition plainOps : list Op :=
  [ReportCorrection (correctionInput None) "low" 0%Z;
   PenalizeMemory "low" 0.5;
   Decay].

Definition good3 : SelfReportEntry := mkSelfReportEntry "good" 3.
Definition bad0 : SelfReportEntry := mkSelfReportEntry "bad" 0.

Definition endInput (report : option (list SelfReportEntry)) : TaskEndInput :=
  mkTaskEndInput 8000 20 0 0 true report.

(** A test engine that tells blobs apart: distance [0] between blobs with
    the same bytes, [0.5] otherwise. *)
Fixpoint same_bytes (a b : Buffer) : bool :=
  match a, b with
  | [], [] => true
  | x :: a', y :: b' => Byte.eqb x y && same_bytes a' b'
  | _, _ => false
  end.

Definition sameBytesDistance (vfn : string) (a b : Buffer) : option R :=
  if same_bytes a b then Some 0 else Some 0.5.

(** An opened store of dimension 8 with the decay rate [rate]. *)
Definition openStore (rate : R) : MemoryStore :=
  set_initialized
    (new_MemoryStore
       (mkConfig "memory.db" "session" (constEmbed 8) None (Some 8%nat) None
          None (Some rate)))
    true.

(** Eight elements [1.0]. *)
Definition onesVec : Float32Array :=
  repeat (mkFloat32 Byte.x00 Byte.x00 Byte.x80 Byte.x3f) 8.

(** Two embedded memories two days apart: ["old"], created at 0 with the
    embedding every description gets, and ["new"], created at 172800 with
    another embedding. *)
Definition oldMemory : MemoryRow :=
  mkMemoryRow "old" "note" (Some (vecBuf (zeroVec 8))) "insight" 1 0 0%Z None
    0%Z None.

Definition newMemory : MemoryRow :=
  mkMemoryRow "new" "note" (Some (vecBuf onesVec)) "insight" 1 0 172800%Z
    None 0%Z None.

Definition twoAgesDB : DB := mkDB [oldMemory; newMemory] [] [] [].

End Samples.

(* ------------------------------------------------------------------------- *)
(** * Properties of the scoring algebra *)

Import Scoring Store Notions Samples.

(** Evaluation of the methods on concrete stores: the structure is computed,
    the comparisons of real numbers are decided by [lra]. *)
Ltac store_eval :=
  cbn -[IZR INR Rdiv Rminus Rmax Rmin Rpower Rplus Rmult Ropp Z.add
        Z.pow_pos].

Ltac no_decision t :=
  lazymatch t with
  | context [Req_dec_T _ _] => fail
  | context [Rle_dec _ _] => fail
  | context [Rlt_dec _ _] => fail
  | _ => idtac
  end.

(** Case analysis on the comparisons of the goal, innermost first. *)
Ltac real_cases :=
  repeat match goal with
    | |- context [Req_dec_T ?a ?b] =>
        no_decision a; no_decision b; destruct (Req_dec_T a b)
    | |- context [Rle_dec ?a ?b] =>
        no_decision a; no_decision b; destruct (Rle_dec a b)
    | |- context [Rlt_dec ?a ?b] =>
        no_decision a; no_decision b; destruct (Rlt_dec a b)
    end.

Lemma or_num_nonzero : forall x d : R, x <> 0 -> or_num x d = x.
Proof.
  intros x d Hx. unfold or_num, or_default.
  destruct (Req_dec_T x 0) as [E | _]; [contradiction | reflexivity].
Qed.

Lemma or_num_zero : forall d : R, or_num 0 d = d.
Proof.
  intros d. unfold or_num, or_default.
  destruct (Req_dec_T 0 0) as [_ | N]; [reflexivity | now elim N].
Qed.

Lemma INR_ge_2 : forall n : nat, (n <? 2)%nat = false -> 2 <= INR n.
Proof.
  intros n H. apply Nat.ltb_ge in H.
  change 2 with (INR 2). now apply le_INR.
Qed.

(** The guard [|| 1] of [stddev] fires exactly when the sum of squares is
    not positive. *)
Lemma stddev_guarded_eq : forall m2 n, stddev m2 n = stddev_guarded m2 n.
Proof.
  intros m2 n. unfold stddev, stddev_guarded.
  destruct (n <? 2)%nat eqn:Hn; [reflexivity |].
  pose proof (INR_ge_2 n Hn) as H2.
  destruct (Rle_dec m2 0) as [Hle | Hgt].
  - rewrite sqrt_neg_0; [apply or_num_zero |].
    unfold Rdiv. rewrite <- (Rmult_0_l (/ (INR n - 1))).
    apply Rmult_le_compat_r; [| exact Hle].
    left. apply Rinv_0_lt_compat. lra.
  - apply or_num_nonzero.
    assert (0 < sqrt (m2 / (INR n - 1))); [| lra].
    apply sqrt_lt_R0. apply Rdiv_lt_0_compat; lra.
Qed.

Lemma stddev_guarded_pos : forall m2 n, 0 < stddev_guarded m2 n.
Proof.
  intros m2 n. unfold stddev_guarded.
  destruct (n <? 2)%nat eqn:Hn; [lra |].
  destruct (Rle_dec m2 0) as [Hle | Hgt]; [lra |].
  pose proof (INR_ge_2 n Hn).
  apply sqrt_lt_R0. apply Rdiv_lt_0_compat; lra.
Qed.

Lemma stddev_pos : forall m2 n, 0 < stddev m2 n.
Proof. intros. rewrite stddev_guarded_eq. apply stddev_guarded_pos. Qed.

Lemma Rmax_ge_1 : forall x, 1 <= Rmax x 1.
Proof. intros x. apply Rmax_r. Qed.

(** [Math.max(0.1, Math.min(5.0, raw))] is the documented clamp. *)
Lemma updateWeight_clamp : forall w credit rate,
  updateWeight w credit rate
  = clamp ((1 - rate) * w + rate * credit) 0.1 5.0.
Proof.
  intros. unfold updateWeight, clamp, Rmax, Rmin.
  repeat destruct Rle_dec; repeat destruct Rlt_dec; lra.
Qed.

Lemma updateWeight_bounds : forall w credit rate,
  0.1 <= updateWeight w credit rate <= 5.0.
Proof.
  intros. unfold updateWeight, Rmax, Rmin.
  repeat destruct Rle_dec; lra.
Qed.

Lemma sqrt_of_square : forall x y, 0 <= y -> x = y * y -> sqrt x = y.
Proof. intros x y Hy ->. now apply sqrt_square. Qed.

(** Nine tasks: 20 tokens under a mean of 100, one error under a mean of 2. *)
Example computeTaskScore_cold_start :
  computeTaskScore nineTasks 80 1 0 true = 1.7.
Proof.
  unfold computeTaskScore, nineTasks, completedSignal, Rmax.
  cbn [count meanTokens meanErrors Nat.ltb Nat.leb].
  real_cases; lra.
Qed.

(** Ten tasks: deviations 10 and 2, so z-scores -2 and -0.5; the third
    deviation is the guard's 1. *)
Example computeTaskScore_z_scores :
  computeTaskScore tenTasks 80 1 0 true = 3.5.
Proof.
  unfold computeTaskScore, tenTasks, completedSignal.
  cbn [count meanTokens meanErrors meanUserCorrections m2Tokens m2Errors
       m2UserCorrections Nat.ltb Nat.leb].
  rewrite !stddev_guarded_eq. unfold stddev_guarded.
  cbn [Nat.ltb Nat.leb INR].
  rewrite (sqrt_of_square (900 / (1 + 1 + 1 + 1 + 1 + 1 + 1 + 1 + 1 + 1 - 1))
             10) by lra.
  rewrite (sqrt_of_square (36 / (1 + 1 + 1 + 1 + 1 + 1 + 1 + 1 + 1 + 1 - 1))
             2) by lra.
  real_cases; lra.
Qed.

Example updateWeight_values :
  updateWeight 1 0.5 0.1 = 0.95
  /\ updateWeight 5 100 0.1 = 5.0
  /\ updateWeight 0.1 (-100) 0.1 = 0.1.
Proof.
  unfold updateWeight, Rmax, Rmin. repeat split; real_cases; lra.
Qed.

(** The flat baseline is what ten tasks with equal counters leave behind. *)
Example flatBaseline_reachable :
  Nat.iter 10 (fun b => updateBaseline b 0 0 0) emptyBaseline = flatBaseline.
Proof.
  assert (Hstep : forall n, updateBaseline (mkBaseline n 0 0 0 0 0 0) 0 0 0
                            = mkBaseline (S n) 0 0 0 0 0 0).
  { intros n. unfold updateBaseline. cbn [count meanTokens meanErrors
      meanUserCorrections m2Tokens m2Errors m2UserCorrections].
    f_equal; unfold Rdiv; ring. }
  unfold emptyBaseline, flatBaseline. cbn [Nat.iter nat_rect].
  now rewrite !Hstep.
Qed.

(** C2 (as stated) fails: after ten tasks with equal counters every sum of
    squares is zero, the documented deviation sqrt(M2/(n-1)) is zero and no
    z-score of a non-zero delta exists, while the code divides by one and
    returns a finite score. *)
Lemma computeTaskScore_flat_baseline_counterexample :
  computeTaskScore flatBaseline 5 0 0 true = -4
  /\ stddev_spec (m2Tokens flatBaseline) (count flatBaseline) = 0
  /\ ~ (exists z,
          is_zscore z (5 - meanTokens flatBaseline)
            (stddev_spec (m2Tokens flatBaseline) (count flatBaseline)))
  /\ computeTaskScore flatBaseline 5 0 0 true
     <> computeTaskScore_spec flatBaseline 5 0 0 true.
Proof.
  assert (Hsd : stddev_spec 0 10 = 0).
  { unfold stddev_spec. cbn [Nat.ltb Nat.leb].
    unfold Rdiv. rewrite Rmult_0_l. apply sqrt_0. }
  assert (Hcode : computeTaskScore flatBaseline 5 0 0 true = -4).
  { unfold computeTaskScore, flatBaseline.
    cbn [count meanTokens meanErrors meanUserCorrections m2Tokens m2Errors
         m2UserCorrections Nat.ltb Nat.leb completedSignal].
    rewrite stddev_guarded_eq. unfold stddev_guarded.
    cbn [Nat.ltb Nat.leb].
    destruct (Rle_dec 0 0) as [_ | N]; [| exfalso; lra].
    unfold Rdiv. rewrite Rinv_1. lra. }
  repeat split.
  - exact Hcode.
  - exact Hsd.
  - intros [z Hz]. unfold is_zscore in Hz.
    cbn [flatBaseline m2Tokens count meanTokens] in Hz.
    rewrite Hsd in Hz. lra.
  - rewrite Hcode. unfold computeTaskScore_spec, zScore, flatBaseline.
    cbn [count meanTokens meanErrors meanUserCorrections m2Tokens m2Errors
         m2UserCorrections Nat.ltb Nat.leb].
    rewrite Hsd. unfold Rdiv. rewrite Rinv_0. lra.
Qed.

(** C2 (amended): below ten tasks the score is the cold-start heuristic, from
    ten tasks on it is the z-score form, where the standard deviation is
    sqrt(M2/(n-1)) when that is positive and 1 otherwise (fewer than two
    samples, or a sum of squares that is not positive); it is never zero. *)
Theorem computeTaskScore_regimes : forall b tokens errs userCorr done,
  ((count b < 10)%nat ->
     computeTaskScore b tokens errs userCorr done
     = coldStartScore b tokens errs userCorr done)
  /\ ((10 <= count b)%nat ->
        computeTaskScore b tokens errs userCorr done
        = zScore stddev_guarded b tokens errs userCorr done)
  /\ 0 < stddev_guarded (m2Tokens b) (count b)
  /\ 0 < stddev_guarded (m2Errors b) (count b)
  /\ 0 < stddev_guarded (m2UserCorrections b) (count b).
Proof.
  intros b tokens errs userCorr done.
  split; [| split; [| repeat split; apply stddev_guarded_pos]].
  - intros Hlt. unfold computeTaskScore, coldStartScore, completedSignal.
    apply Nat.ltb_lt in Hlt. rewrite Hlt.
    destruct (count b) as [| k]; cbn [Nat.ltb Nat.leb Nat.eqb]; lra.
  - intros Hge. unfold computeTaskScore, zScore, completedSignal.
    apply Nat.ltb_ge in Hge. rewrite Hge.
    rewrite !stddev_guarded_eq. lra.
Qed.

(** The two sides of the switch: nine tasks score by the heuristic, ten by
    z-scores. *)
Lemma computeTaskScore_regimes_witness :
  computeTaskScore nineTasks 80 1 0 true = coldStartScore nineTasks 80 1 0 true
  /\ computeTaskScore tenTasks 80 1 0 true
     = zScore stddev_guarded tenTasks 80 1 0 true.
Proof.
  split.
  - apply (proj1 (computeTaskScore_regimes nineTasks 80 1 0 true)).
    simpl; lia.
  - apply (proj1 (proj2 (computeTaskScore_regimes tenTasks 80 1 0 true))).
    simpl; lia.
Defined.

(* ------------------------------------------------------------------------- *)
(** * Properties of the store *)

(** ** What [init] leaves alone *)

Lemma init_tasks : forall s db, tasks (snd (init s db)) = tasks db.
Proof.
  intros s db. unfold init. destruct (initialized s); reflexivity.
Qed.

Lemma init_meta : forall s db, meta (snd (init s db)) = meta db.
Proof.
  intros s db. unfold init. destruct (initialized s); reflexivity.
Qed.

Lemma init_memory_retrievals : forall s db,
  memory_retrievals (snd (init s db)) = memory_retrievals db.
Proof.
  intros s db. unfold init. destruct (initialized s); reflexivity.
Qed.

Lemma init_memories : forall s db,
  memories (snd (init s db))
  = if initialized s then memories db else map repair (memories db).
Proof.
  intros s db. unfold init. destruct (initialized s); reflexivity.
Qed.

Lemma init_config : forall s db,
  embed (fst (init s db)) = embed s
  /\ vectorType (fst (init s db)) = vectorType s
  /\ topK (fst (init s db)) = topK s
  /\ learningRate (fst (init s db)) = learningRate s
  /\ decayRate (fst (init s db)) = decayRate s
  /\ currentTaskId (fst (init s db)) = currentTaskId s.
Proof.
  intros s db. unfold init. destruct (initialized s); [tauto |].
  destruct (get_meta "baseline" (meta _)); cbn; tauto.
Qed.

Lemma init_initialized : forall s db, initialized (fst (init s db)) = true.
Proof.
  intros s db. unfold init. destruct (initialized s) eqn:E; [exact E |].
  destruct (get_meta "baseline" (meta _)); reflexivity.
Qed.

Lemma init_once : forall s db, initialized s = true -> init s db = (s, db).
Proof. intros s db H. unfold init. now rewrite H. Qed.

Lemma repair_weight : forall m, m_weight (repair m) = m_weight m.
Proof.
  intros m. unfold repair.
  destruct (m_embedding m) as [e |]; [destruct (truncated e) |]; reflexivity.
Qed.

Lemma repair_id : forall m, m_id (repair m) = m_id m.
Proof.
  intros m. unfold repair.
  destruct (m_embedding m) as [e |]; [destruct (truncated e) |]; reflexivity.
Qed.

Lemma init_weights : forall s db lo hi,
  weights_within lo hi db -> weights_within lo hi (snd (init s db)).
Proof.
  intros s db lo hi H. unfold weights_within in *.
  rewrite init_memories. destruct (initialized s); [exact H |].
  apply Forall_map. eapply Forall_impl; [| exact H].
  intros m Hm. now rewrite repair_weight.
Qed.

(** ** Initial weights *)

Lemma or_default_nullish : forall x : option R,
  or_default x 0 = nullish x 0.
Proof.
  intros [v |]; cbn; [| reflexivity].
  destruct (Req_dec_T v 0) as [E | _]; [now rewrite E | reflexivity].
Qed.

Lemma initialWeight_user : forall src tokens avg,
  initialWeight "user" (Some src) tokens avg = userWeight_spec src.
Proof.
  intros src tokens avg. unfold initialWeight, userWeight_spec.
  cbn [String.eqb Ascii.eqb Bool.eqb].
  destruct (String.eqb_spec src "user_correction") as [-> | _];
    [reflexivity |].
  destruct (String.eqb src "user_denial"), (String.eqb src "user_input");
    reflexivity.
Qed.

(** C7 (as stated) fails: when the finished tasks average zero tokens the
    code divides by 10000, where the documented max(avg, 1) divides by 1. *)
Lemma reportCorrection_zero_average_counterexample :
  avg_tokens_used zeroAvgDB = Some 0
  /\ map m_weight
       (memories
          (snd (reportCorrection store8 zeroAvgDB
                  (correctionInput (Some 100)) "m1" 0)))
     = [1.01]
  /\ correctionWeight_spec 100 0 = 101
  /\ map m_weight
       (memories
          (snd (reportCorrection store8 zeroAvgDB
                  (correctionInput (Some 100)) "m1" 0)))
     <> [correctionWeight_spec 100 0].
Proof.
  assert (Havg : avg_tokens_used zeroAvgDB = Some 0).
  { unfold avg_tokens_used, zeroAvgDB. store_eval. f_equal. lra. }
  assert (Hcode : map m_weight
       (memories
          (snd (reportCorrection store8 zeroAvgDB
                  (correctionInput (Some 100)) "m1" 0))) = [1.01]).
  { unfold reportCorrection, store8, zeroAvgDB, init. store_eval.
    unfold initialWeight. store_eval. unfold or_default.
    f_equal. real_cases; cbn [INR] in *; lra. }
  assert (Hspec : correctionWeight_spec 100 0 = 101).
  { unfold correctionWeight_spec, Rmax. real_cases; lra. }
  repeat split; try assumption.
  rewrite Hcode, Hspec. intros H. injection H as H. lra.
Qed.

(** C7 (amended): a correction is inserted with weight
    1.0 + tokensWasted / avg (tokensWasted counted as 0 when absent), where
    avg is the average tokens_used over finished tasks, replaced by 10000
    when there is no finished task or when the average is zero; there is no
    floor max(avg, 1), which only agrees when the average is at least 1.
    A user memory is inserted with weight 2.5 for source user_correction and
    2.0 for user_denial, user_input and any other source. *)
Theorem reportCorrection_initial_weight :
  forall s db input uinput new_id now vec uvec,
  embed s (correction_content input) = Some vec ->
  embed s (ui_lesson uinput) = Some uvec ->
  (exists s' row,
     reportCorrection s db input new_id now
     = (Returned new_id, s', insert_memory (snd (init s db)) row)
     /\ m_id row = new_id
     /\ m_category row = "correction"%string
     /\ (avg_tokens_used db = None ->
           m_weight row = 1.0 + nullish (tokensWasted input) 0 / 10000)
     /\ (avg_tokens_used db = Some 0 ->
           m_weight row = 1.0 + nullish (tokensWasted input) 0 / 10000)
     /\ (forall a, avg_tokens_used db = Some a -> a <> 0 ->
           m_weight row = 1.0 + nullish (tokensWasted input) 0 / a)
     /\ (forall a, avg_tokens_used db = Some a -> 1 <= a ->
           m_weight row
           = correctionWeight_spec (nullish (tokensWasted input) 0) a))
  /\ (exists s' row,
        reportUserInput s db uinput new_id now
        = (Returned new_id, s', insert_memory (snd (init s db)) row)
        /\ m_id row = new_id
        /\ m_category row = "user"%string
        /\ m_weight row = userWeight_spec (ui_source uinput)).
Proof.
  intros s db input uinput new_id now vec uvec Hvec Huvec.
  destruct (init_config s db) as (Hembed & _).
  split.
  - unfold reportCorrection.
    destruct (init s db) as [s1 db1] eqn:Hinit.
    assert (Htasks : avg_tokens_used db1 = avg_tokens_used db).
    { unfold avg_tokens_used.
      replace db1 with (snd (init s db)) by now rewrite Hinit.
      now rewrite init_tasks. }
    cbn [fst snd] in *. rewrite Hembed, Hvec.
    eexists; eexists. split; [reflexivity |].
    cbn [m_id m_category m_weight]. rewrite Htasks.
    unfold initialWeight; cbn [String.eqb Ascii.eqb Bool.eqb].
    rewrite or_default_nullish.
    repeat split.
    + intros E; rewrite E. cbn. real_cases; lra.
    + intros E; rewrite E. cbn. real_cases; lra.
    + intros a E Ha; rewrite E. cbn. real_cases; [contradiction | reflexivity].
    + intros a E Ha; rewrite E. cbn. unfold correctionWeight_spec, Rmax.
      real_cases; try lra. replace a with 1 by lra. reflexivity.
  - unfold reportUserInput.
    destruct (init s db) as [s1 db1] eqn:Hinit.
    cbn [fst snd] in *. rewrite Hembed, Huvec.
    eexists; eexists. split; [reflexivity |].
    cbn [m_id m_category m_weight].
    repeat split. apply initialWeight_user.
Qed.

Lemma reportCorrection_initial_weight_witness :
  exists row,
    In row
      (memories
         (snd (reportCorrection store8 zeroAvgDB
                 (correctionInput (Some 100)) "m1" 0)))
    /\ m_weight row = 1.0 + 100 / 10000.
Proof.
  destruct (reportCorrection_initial_weight store8 zeroAvgDB
              (correctionInput (Some 100))
              (mkReportUserInput "use make check" "user_correction")
              "m1" 0%Z (zeroVec 8) (zeroVec 8) eq_refl eq_refl)
    as [[s' [row (Hrun & _ & _ & _ & Hzero & _)]] _].
  exists row. split.
  - rewrite Hrun. cbn [snd insert_memory memories set_memories].
    apply in_or_app. right. left. reflexivity.
  - apply Hzero. unfold avg_tokens_used, zeroAvgDB. store_eval.
    f_equal. lra.
Defined.

(** ** The migration of [init] *)

Lemma vecBuf_length : forall vec : Float32Array,
  length_blob (vecBuf vec) = (List.length vec * 4)%nat.
Proof.
  induction vec as [| x vec IH]; [reflexivity |].
  unfold length_blob, vecBuf in *. cbn [flat_map List.length app].
  rewrite IH. lia.
Qed.

(** What the migration does, whatever [dimensions] was configured: an
    embedding survives exactly when it has at least 1536 bytes. *)
Lemma init_migration : forall s db,
  initialized s = false ->
  map m_embedding (memories (snd (init s db)))
  = map (fun m =>
           match m_embedding m with
           | Some e => if (length_blob e <? 1536)%nat then None else Some e
           | None => None
           end) (memories db).
Proof.
  intros s db H. rewrite init_memories, H, map_map.
  apply map_ext. intros m. unfold repair, truncated.
  destruct (m_embedding m) as [e |] eqn:E; [| now rewrite E].
  destruct (length_blob e <? 1536)%nat; [reflexivity | exact E].
Qed.

(** C4: with [dimensions: 8] an embedding of 8 * 4 = 32 bytes is complete,
    yet the migration of [init] sets it to NULL: the test compares the
    length with 1536, not with dimensions * 4. *)
Theorem init_dimensions_8_nulls_complete_embedding :
  cfg_dimensions (config (Some 8%nat) (constEmbed 8)) = Some 8%nat
  /\ map (option_map length_blob) (map m_embedding (memories dims8DB))
     = [Some (8 * 4)%nat]
  /\ map m_embedding (memories (snd (init store8 dims8DB))) = [None].
Proof.
  repeat split.
Qed.

(** ** [decay] *)

Lemma Rltb_true : forall x y, Rltb x y = true <-> x < y.
Proof.
  intros x y. unfold Rltb. destruct (Rlt_dec x y); split; intros H;
    try reflexivity; try assumption; try discriminate; contradiction.
Qed.

Lemma expired_spec : forall m,
  expired m = true <-> m_weight m < 0.15 /\ (5 < m_retrieval_count m)%Z.
Proof.
  intros m. unfold expired.
  rewrite andb_true_iff, Rltb_true, Z.ltb_lt. tauto.
Qed.

Lemma decay_memories : forall s db,
  memories (snd (decay s db))
  = filter (fun m => negb (expired m))
      (map (fun m => with_weight (m_weight m * decayRate s) m)
         (memories (snd (init s db)))).
Proof.
  intros s db. unfold decay.
  destruct (init_config s db) as (_ & _ & _ & _ & Hrate & _).
  destruct (init s db) as [s1 db1]. cbn [fst snd] in *.
  now rewrite Hrate.
Qed.

(** C6: [decay] multiplies the weight of every memory by [decayRate] and
    deletes exactly the memories whose new weight is below 0.15 and whose
    retrieval_count exceeds 5; a memory with retrieval_count <= 5 is kept
    whatever its weight. *)
Theorem decay_removal_guard : forall s db m,
  In m (memories (snd (init s db))) ->
  let m' := with_weight (m_weight m * decayRate s) m in
  ((m_retrieval_count m <= 5)%Z -> In m' (memories (snd (decay s db))))
  /\ (In m' (memories (snd (decay s db)))
      <-> ~ (m_weight m * decayRate s < 0.15 /\ (5 < m_retrieval_count m)%Z))
  /\ (forall x, In x (memories (snd (decay s db))) ->
        exists m0, In m0 (memories (snd (init s db)))
                   /\ x = with_weight (m_weight m0 * decayRate s) m0).
Proof.
  intros s db m Hin m'.
  assert (Hkeep : In m' (memories (snd (decay s db)))
                  <-> ~ (m_weight m * decayRate s < 0.15
                         /\ (5 < m_retrieval_count m)%Z)).
  { rewrite decay_memories, filter_In. split.
    - intros [_ Hneg] Hexp.
      apply (proj2 (expired_spec m')) in Hexp.
      rewrite Hexp in Hneg. discriminate.
    - intros Hnot. split.
      + apply in_map_iff. exists m. split; [reflexivity | exact Hin].
      + destruct (expired m') eqn:E; [| reflexivity].
        apply expired_spec in E. contradiction. }
  split; [| split].
  - intros Hle. apply Hkeep. intros [_ Hgt]. lia.
  - exact Hkeep.
  - intros x Hx. rewrite decay_memories, filter_In in Hx.
    destruct Hx as [Hx _]. apply in_map_iff in Hx.
    destruct Hx as [m0 [E H0]]. exists m0. split; [exact H0 | now symmetry].
Qed.

(** A memory of weight 0.01 that was retrieved five times survives. *)
Lemma decay_removal_guard_witness :
  In (with_weight (0.01 * 0.995)
        (sampleMemory "m" (Some (vecBuf (zeroVec 384))) 0.01 5))
    (memories
       (snd (decay (set_initialized store8 true)
               (mkDB [sampleMemory "m" (Some (vecBuf (zeroVec 384))) 0.01 5]
                  [] [] [])))).
Proof.
  apply (proj1 (decay_removal_guard (set_initialized store8 true)
                  (mkDB [sampleMemory "m" (Some (vecBuf (zeroVec 384))) 0.01 5]
                     [] [] [])
                  (sampleMemory "m" (Some (vecBuf (zeroVec 384))) 0.01 5)
                  (or_introl eq_refl))).
  cbn [m_retrieval_count sampleMemory]. lia.
Defined.

(** ** [insertRawMemory] *)



(** Weights outside [0.1, 5.0] and a category outside the enumeration are
    stored as they come. *)
Example insertRawMemory_out_of_range :
  map (fun m => (m_category m, m_weight m))
    (memories
       (snd (insertRawMemory store8
               (snd (insertRawMemory store8 emptyDB "a" "bogus" 1000 "m1" 0))
               "b" "" (-3) "m2" 0)))
  = [("bogus"%string, 1000); (""%string, -3)].
Proof. reflexivity. Qed.

(** ** [endTask] *)

Lemma get_meta_upsert : forall key v kv,
  get_meta key (upsert key v kv) = Some v.
Proof.
  intros key v kv. induction kv as [| [k v0] rest IH]; cbn.
  - now rewrite String.eqb_refl.
  - destruct (String.eqb k key) eqn:E; cbn; now rewrite E.
Qed.

Lemma rate_entry_tasks_meta : forall ts k rate task db e,
  tasks (rate_entry ts k rate task db e) = tasks db
  /\ meta (rate_entry ts k rate task db e) = meta db.
Proof.
  intros. unfold rate_entry.
  destruct (get_memory (memoryId e) db); split; reflexivity.
Qed.

Lemma rate_entries_tasks_meta : forall ts k rate task entries db,
  tasks (rate_entries ts k rate task db entries) = tasks db
  /\ meta (rate_entries ts k rate task db entries) = meta db.
Proof.
  intros ts k rate task entries. unfold rate_entries.
  induction entries as [| e rest IH]; intros db; [split; reflexivity |].
  cbn [fold_left].
  destruct (IH (rate_entry ts k rate task db e)) as [Ht Hm].
  destruct (rate_entry_tasks_meta ts k rate task db e) as [Ht' Hm'].
  split; congruence.
Qed.

Lemma update_task_absent : forall f key db,
  (forall t, In t (tasks db) -> t_id t <> key) ->
  tasks (update_task f key db) = tasks db.
Proof.
  intros f key db H. unfold update_task. cbn [tasks set_tasks].
  rewrite <- (map_id (tasks db)) at 2.
  apply map_ext_in. intros t Ht.
  destruct (String.eqb_spec (t_id t) key) as [E | _]; [| reflexivity].
  now elim (H t Ht).
Qed.

(** The store and the database after [endTask], spelled out. *)
Lemma endTask_returns : forall s db task input now,
  exists s' db', endTask s db task input now = (Returned tt, s', db').
Proof.
  intros. unfold endTask. destruct (init s db) as [s1 db1].
  eexists; eexists; reflexivity.
Qed.

Lemma endTask_baseline : forall s db task input now,
  baseline (snd (fst (endTask s db task input now)))
  = updateBaseline (baseline (fst (init s db))) (tokensUsed input)
      (errors input) (userCorrections input).
Proof.
  intros. unfold endTask. destruct (init s db) as [s1 db1].
  cbn [fst snd set_baseline baseline currentTaskId].
  destruct (currentTaskId s1) as [t |]; [| reflexivity].
  destruct (String.eqb t task); reflexivity.
Qed.

Lemma endTask_tasks_meta : forall s db task input now,
  let s1 := fst (init s db) in
  let taskScore :=
    computeTaskScore (baseline s1) (tokensUsed input) (errors input)
      (userCorrections input) (completed input) in
  tasks (snd (endTask s db task input now))
  = tasks (update_task (finish_task input taskScore now) task db)
  /\ meta (snd (endTask s db task input now))
     = upsert "baseline"
         (updateBaseline (baseline s1) (tokensUsed input) (errors input)
            (userCorrections input))
         (meta db).
Proof.
  intros s db task input now. cbn zeta. unfold endTask.
  pose proof (init_tasks s db) as Ht. pose proof (init_meta s db) as Hm.
  destruct (init s db) as [s1 db1]. cbn [fst snd] in *.
  cbn [set_baseline baseline].
  destruct (selfReport input) as [[| e l] |];
    try (cbn [update_task set_tasks set_meta tasks meta];
         rewrite Ht, Hm; split; reflexivity).
  match goal with
  | |- context [rate_entries ?a ?b ?c ?d ?x ?y] =>
      destruct (rate_entries_tasks_meta a b c d y x) as [Ht' Hm']
  end.
  rewrite Ht', Hm'. cbn [update_task set_tasks set_meta tasks meta].
  rewrite Ht, Hm. split; reflexivity.
Qed.

(** C10: for a task id that matches no task row, [endTask] returns without
    an error and leaves the tasks table as it was; the baseline of the store
    still counts one task more, and that baseline is what [meta] holds under
    the key baseline afterwards. *)
Theorem endTask_unknown_task : forall s db task input now,
  (forall t, In t (tasks db) -> t_id t <> task) ->
  exists s' db',
    endTask s db task input now = (Returned tt, s', db')
    /\ tasks db' = tasks db
    /\ count (baseline s') = S (count (baseline (fst (init s db))))
    /\ (initialized s = true ->
          count (baseline s') = S (count (baseline s)))
    /\ get_meta "baseline" (meta db') = Some (baseline s').
Proof.
  intros s db task input now Hnone.
  destruct (endTask_returns s db task input now) as [s' [db' Hrun]].
  pose proof (endTask_baseline s db task input now) as Hb.
  destruct (endTask_tasks_meta s db task input now) as [Ht Hm].
  rewrite Hrun in Hb, Ht, Hm. cbn [fst snd] in Hb, Ht, Hm.
  exists s', db'. split; [exact Hrun |].
  split; [| split; [| split]].
  - rewrite Ht. now apply update_task_absent.
  - rewrite Hb. reflexivity.
  - intros Hi. rewrite Hb, (init_once s db Hi). reflexivity.
  - rewrite Hm, Hb. apply get_meta_upsert.
Qed.

(** On an empty database every task id is unknown. *)
Lemma endTask_unknown_task_witness :
  exists s' db',
    endTask store8 emptyDB "no-such-task" (endInput None) 7
    = (Returned tt, s', db')
    /\ tasks db' = []
    /\ count (baseline s') = 1%nat
    /\ get_meta "baseline" (meta db') = Some (baseline s').
Proof.
  destruct (endTask_unknown_task store8 emptyDB "no-such-task"
              (endInput None) 7%Z (fun t (H : In t []) => False_ind _ H))
    as [s' [db' (Hrun & Ht & Hc & _ & Hm)]].
  exists s', db'. repeat split; assumption.
Defined.

(** *** Rows selected by a key, across an [UPDATE ... WHERE] *)

Section SelectUpdate.

Context {A : Type}.
Variables (p q : A -> bool) (g : A -> A).
Hypothesis g_keeps_key : forall x, p (g x) = p x.

Lemma select_after_update_same : forall l,
  filter p (map (fun x => if p x then g x else x) l) = map g (filter p l).
Proof.
  induction l as [| x l IH]; [reflexivity |]. cbn [map filter].
  destruct (p x) eqn:E.
  - rewrite g_keeps_key, E. cbn [map]. now rewrite IH.
  - now rewrite E.
Qed.

Hypothesis other_key : forall x, q x = true -> p x = false.

Lemma select_after_update_other : forall l,
  filter p (map (fun x => if q x then g x else x) l) = filter p l.
Proof.
  induction l as [| x l IH]; [reflexivity |]. cbn [map filter].
  destruct (q x) eqn:E.
  - rewrite g_keeps_key, (other_key x E). exact IH.
  - now rewrite IH.
Qed.

End SelectUpdate.

Lemma get_memory_select : forall key db,
  get_memory key db = hd_error (select_memories key db).
Proof.
  intros key db. unfold get_memory, select_memories.
  induction (memories db) as [| m l IH]; [reflexivity |]. cbn [find filter].
  destruct (String.eqb (m_id m) key); [reflexivity | exact IH].
Qed.

Lemma update_retrieval_memories : forall report credit mem task db,
  memories (update_retrieval report credit mem task db) = memories db.
Proof. reflexivity. Qed.

Lemma eqb_other_key : forall a key key' : string,
  key' <> key -> String.eqb a key' = true -> String.eqb a key = false.
Proof.
  intros a key key' Hne H. apply String.eqb_eq in H. subst a.
  now apply String.eqb_neq.
Qed.

(** One iteration for entry [e] and the rows of its own memory. *)
Lemma rate_entry_own_memory : forall ts k rate task db e,
  select_memories (memoryId e) (rate_entry ts k rate task db e)
  = match get_memory (memoryId e) db with
    | Some m =>
        map (with_weight
               (updateWeight (m_weight m)
                  (computeCredit ts (entry_score e) k) rate))
          (select_memories (memoryId e) db)
    | None => select_memories (memoryId e) db
    end.
Proof.
  intros. unfold rate_entry, select_memories.
  rewrite update_retrieval_memories.
  destruct (get_memory (memoryId e) db) as [m |]; [| reflexivity].
  cbn [update_memory memories set_memories].
  apply (select_after_update_same
           (fun m => String.eqb (m_id m) (memoryId e))).
  reflexivity.
Qed.

Lemma rate_entry_own_retrieval : forall ts k rate task db e,
  select_retrievals (memoryId e) task (rate_entry ts k rate task db e)
  = map (rated (entry_score e) (computeCredit ts (entry_score e) k))
      (select_retrievals (memoryId e) task db).
Proof.
  intros. unfold rate_entry, select_retrievals, update_retrieval.
  cbn [memory_retrievals set_memory_retrievals].
  rewrite (select_after_update_same
             (fun r => String.eqb (r_memory_id r) (memoryId e)
                       && String.eqb (r_task_id r) task)
             (rated (entry_score e) (computeCredit ts (entry_score e) k)))
    by reflexivity.
  destruct (get_memory (memoryId e) db); reflexivity.
Qed.

(** One iteration for another memory leaves the rows of [key] alone. *)
Lemma rate_entry_other : forall ts k rate task db e key,
  memoryId e <> key ->
  select_memories key (rate_entry ts k rate task db e)
  = select_memories key db
  /\ select_retrievals key task (rate_entry ts k rate task db e)
     = select_retrievals key task db.
Proof.
  intros ts k rate task db e key Hne. split.
  - unfold rate_entry, select_memories.
    rewrite update_retrieval_memories.
    destruct (get_memory (memoryId e) db) as [m |]; [| reflexivity].
    cbn [update_memory memories set_memories].
    apply (select_after_update_other
             (fun m => String.eqb (m_id m) key)
             (fun m => String.eqb (m_id m) (memoryId e))).
    + reflexivity.
    + intros x. now apply eqb_other_key.
  - unfold rate_entry, select_retrievals, update_retrieval.
    cbn [memory_retrievals set_memory_retrievals].
    rewrite (select_after_update_other
               (fun r => String.eqb (r_memory_id r) key
                         && String.eqb (r_task_id r) task)
               (fun r => String.eqb (r_memory_id r) (memoryId e)
                         && String.eqb (r_task_id r) task)
               (rated (entry_score e) (computeCredit ts (entry_score e) k))).
    + destruct (get_memory (memoryId e) db); reflexivity.
    + reflexivity.
    + intros x H. apply andb_true_iff in H. destruct H as [H _].
      now rewrite (eqb_other_key _ key (memoryId e) Hne H).
Qed.

Lemma rate_entries_other : forall ts k rate task entries db key,
  ~ In key (map memoryId entries) ->
  select_memories key (rate_entries ts k rate task db entries)
  = select_memories key db
  /\ select_retrievals key task (rate_entries ts k rate task db entries)
     = select_retrievals key task db.
Proof.
  intros ts k rate task entries. unfold rate_entries.
  induction entries as [| e rest IH]; intros db key Hnot;
    [split; reflexivity |].
  cbn [fold_left]. cbn [map In] in Hnot.
  destruct (IH (rate_entry ts k rate task db e) key) as [Hm Hr];
    [tauto |].
  destruct (rate_entry_other ts k rate task db e key) as [Hm' Hr'];
    [tauto |].
  split; congruence.
Qed.

Lemma rate_entries_split : forall ts k rate task db pre e post,
  rate_entries ts k rate task db (pre ++ e :: post)
  = rate_entries ts k rate task
      (rate_entry ts k rate task (rate_entries ts k rate task db pre) e)
      post.
Proof.
  intros. unfold rate_entries. now rewrite fold_left_app.
Qed.

Lemma endTask_db : forall s db task input now l,
  selfReport input = Some l -> l <> [] ->
  snd (endTask s db task input now)
  = rate_entries
      (computeTaskScore (baseline (fst (init s db))) (tokensUsed input)
         (errors input) (userCorrections input) (completed input))
      (List.length l) (learningRate s) task
      (before_selfReport s db task input now) l.
Proof.
  intros s db task input now l Hl Hne. unfold endTask, before_selfReport.
  destruct (init_config s db) as (_ & _ & _ & Hrate & _).
  destruct (init s db) as [s1 db1]. cbn [fst snd] in *.
  rewrite Hl. destruct l as [| e l]; [now elim Hne |].
  cbn [learningRate set_baseline baseline]. now rewrite Hrate.
Qed.

Lemma before_selfReport_rows : forall s db task input now,
  memories (before_selfReport s db task input now)
  = memories (snd (init s db))
  /\ memory_retrievals (before_selfReport s db task input now)
     = memory_retrievals db.
Proof.
  intros. unfold before_selfReport.
  pose proof (init_memory_retrievals s db) as Hr.
  destruct (init s db) as [s1 db1]. cbn [snd] in *.
  split; [reflexivity | exact Hr].
Qed.

Lemma computeCredit_formula : forall ts report k,
  computeCredit ts report k = ts * (report / 3) * (1 / Rmax (INR k) 1).
Proof.
  intros. unfold computeCredit.
  replace 3.0 with 3 by lra. replace 1.0 with 1 by lra. reflexivity.
Qed.

(** *** Rows changed by a statement, column by column *)

Lemma Forall2_map_r : forall (A B : Type) (P : A -> B -> Prop) (g : A -> B) l,
  (forall x, In x l -> P x (g x)) -> Forall2 P l (map g l).
Proof.
  intros A B P g l. induction l as [| x l IH]; intros H; cbn [map];
    constructor.
  - apply H. now left.
  - apply IH. intros y Hy. apply H. now right.
Qed.

Lemma Forall2_column : forall (A B : Type) (P : A -> A -> Prop)
    (col v : A -> B) l l',
  (forall x y, In x l -> P x y -> col y = v x) ->
  Forall2 P l l' -> map col l' = map v l.
Proof.
  intros A B P col v l l' HP H. induction H as [| x y l l' Hxy _ IH];
    [reflexivity |].
  cbn [map]. rewrite (HP x y (or_introl eq_refl) Hxy), IH; [reflexivity |].
  intros x0 y0 Hin. apply HP. now right.
Qed.

Lemma reweighted_with_weight : forall w m, reweighted w m (with_weight w m).
Proof. intros w m. unfold reweighted. repeat split. Qed.

Lemma rated_as_rated : forall report credit r,
  rated_as report credit r (rated report credit r).
Proof. intros report credit r. unfold rated_as. repeat split. Qed.

(** One iteration of the loop over the self-report, on the rows of its own
    entry: the weight read at that moment goes through the moving average
    and the clamp, the retrieval row receives the score and the credit. *)
Lemma rate_entry_iteration : forall ts k alpha task d e,
  (forall m, get_memory (memoryId e) d = Some m ->
     Forall2
       (reweighted
          (clamp ((1 - alpha) * m_weight m
                  + alpha * (ts * (entry_score e / 3) * (1 / Rmax (INR k) 1)))
             0.1 5.0))
       (select_memories (memoryId e) d)
       (select_memories (memoryId e) (rate_entry ts k alpha task d e)))
  /\ Forall2
       (rated_as (entry_score e)
          (ts * (entry_score e / 3) * (1 / Rmax (INR k) 1)))
       (select_retrievals (memoryId e) task d)
       (select_retrievals (memoryId e) task (rate_entry ts k alpha task d e)).
Proof.
  intros ts k alpha task d e. split.
  - intros m Hm.
    rewrite rate_entry_own_memory, Hm, computeCredit_formula,
      updateWeight_clamp.
    apply Forall2_map_r. intros x _. apply reweighted_with_weight.
  - rewrite rate_entry_own_retrieval, computeCredit_formula.
    apply Forall2_map_r. intros x _. apply rated_as_rated.
Qed.




(** The same call, evaluated: with task score 1 and two rated memories the
    credit of the memory rated 3 is 0.5, its weight goes from 1 to 0.95;
    the memory rated 0 goes to 0.9. *)
Example endTask_credit_values :
  map (fun m => (m_id m, m_weight m))
    (memories (snd (endTask store8 ratedDB "t1"
                      (endInput (Some [good3; bad0])) 9)))
  = [("good"%string, 0.95); ("bad"%string, 0.9)]
  /\ map (fun r => (r_memory_id r, r_self_report r, r_credit r))
       (memory_retrievals (snd (endTask store8 ratedDB "t1"
                                  (endInput (Some [good3; bad0])) 9)))
     = [("good"%string, Some 3, Some 0.5); ("bad"%string, Some 0, Some 0)].
Proof.
  unfold endTask, rate_entries, rate_entry. store_eval.
  unfold updateWeight, computeCredit, computeTaskScore, completedSignal.
  store_eval. unfold Rmax, Rmin.
  split; repeat f_equal; real_cases; cbn [INR] in *; lra.
Qed.

(** ** [startTask] *)

Lemma init_idempotent : forall s db,
  init (fst (init s db)) (snd (init s db)) = init s db.
Proof.
  intros s db. rewrite (init_once _ _ (init_initialized s db)).
  now destruct (init s db).
Qed.

Lemma write_embeddings_tasks : forall embedded db,
  tasks (fold_left write_embedding embedded db) = tasks db.
Proof.
  induction embedded as [| e rest IH]; intros db; [reflexivity |].
  cbn [fold_left]. now rewrite IH.
Qed.

Lemma embedPending_tasks : forall s db,
  tasks (snd (embedPending s db)) = tasks db.
Proof.
  intros s db. unfold embedPending.
  pose proof (init_tasks s db) as Ht.
  destruct (init s db) as [s1 db1]. cbn [snd] in Ht.
  destruct (filter _ (memories db1)) as [| m rows]; [exact Ht |].
  destruct (embed_rows (embed s1) (m :: rows)) as [embedded |];
    [| exact Ht].
  cbn [snd]. now rewrite write_embeddings_tasks.
Qed.

Lemma record_retrievals_tasks : forall task now mems db,
  tasks (fold_left (record_retrieval task now) mems db) = tasks db.
Proof.
  intros task now mems. induction mems as [| mem rest IH]; intros db;
    [reflexivity |].
  cbn [fold_left]. rewrite IH. unfold record_retrieval.
  cbn [update_memory tasks set_memories]. unfold insert_or_ignore_retrieval.
  destruct (existsb _ _); reflexivity.
Qed.

(** [startTask], once its embedder has answered and [embedPending] has
    returned: the task row is written, then the query decides the rest. *)
Lemma startTask_after_embedding :
  forall dist s db description task now vec n s1 db1,
  embed s description = Some vec ->
  embedPending s db = (Returned n, s1, db1) ->
  let db2 :=
    set_tasks db1 (tasks db1 ++ [new_task task description (vecBuf vec) now]) in
  startTask dist s db description task now
  = match candidates dist (vectorType s1) (vecBuf vec) (memories db2) with
    | None => (Thrown EngineError, s1, db2)
    | Some rows =>
        let mems :=
          map to_memory
            (firstn (topK s1) (order_by_desc (rank (decayRate s1) now) rows)) in
        (Returned (mkStartTaskResult task mems),
         set_currentTaskId s1 (Some task),
         fold_left (record_retrieval task now) mems db2)
    end.
Proof.
  intros dist s db description task now vec n s1 db1 Hvec Hpending. cbn zeta.
  unfold startTask.
  destruct (init_config s db) as (Hembed & _).
  pose proof (init_idempotent s db) as Hidem.
  assert (Hp : embedPending (fst (init s db)) (snd (init s db))
               = (Returned n, s1, db1)).
  { unfold embedPending in *. rewrite Hidem. exact Hpending. }
  destruct (init s db) as [s0 db0]. cbn [fst snd] in *.
  rewrite Hembed, Hvec, Hp. reflexivity.
Qed.

(** C5 (as stated) fails: configured with [dimensions: 8] and an embedder
    that returns four elements, [startTask] on an empty database returns
    normally and the task row is in the file. *)
Lemma startTask_wrong_length_counterexample :
  cfg_dimensions (config (Some 8%nat) (constEmbed 4)) = Some 8%nat
  /\ option_map (@List.length float32) (embed store8_embed4 "fix auth")
     = Some 4%nat
  /\ fst (fst (startTask sameLengthDistance store8_embed4 emptyDB
                 "fix auth" "t1" 5))
     = Returned (mkStartTaskResult "t1" [])
  /\ tasks (snd (startTask sameLengthDistance store8_embed4 emptyDB
                   "fix auth" "t1" 5))
     = [new_task "t1" "fix auth" (vecBuf (zeroVec 4)) 5].
Proof.
  repeat split.
Qed.

(** C5 (amended): [startTask] never compares the length of the embedder's
    vector with the configured dimensions.  Whatever that length, once the
    embedder has answered and [embedPending] has returned, the task row with
    that vector is in the file, and [startTask] either returns normally or
    fails with the error the engine raised in the retrieval query; in both
    cases the task row persists. *)
Theorem startTask_inserts_task_row :
  forall dist s db description task now vec n s1 db1,
  embed s description = Some vec ->
  embedPending s db = (Returned n, s1, db1) ->
  tasks (snd (startTask dist s db description task now))
  = tasks db ++ [new_task task description (vecBuf vec) now]
  /\ (fst (fst (startTask dist s db description task now))
      = Thrown EngineError
      \/ exists mems,
           fst (fst (startTask dist s db description task now))
           = Returned (mkStartTaskResult task mems)).
Proof.
  intros dist s db description task now vec n s1 db1 Hvec Hpending.
  rewrite (startTask_after_embedding dist s db description task now vec
             n s1 db1 Hvec Hpending).
  cbn zeta.
  assert (Ht : tasks db1 = tasks db).
  { rewrite <- (embedPending_tasks s db). now rewrite Hpending. }
  destruct (candidates dist (vectorType s1) (vecBuf vec) _) as [rows |].
  - cbn [fst snd]. rewrite record_retrievals_tasks.
    cbn [tasks set_tasks]. rewrite Ht. split; [reflexivity |].
    right. eexists. reflexivity.
  - cbn [fst snd tasks set_tasks]. rewrite Ht. split; [reflexivity |].
    now left.
Qed.

(** A store that is already open, a memory written with eight elements and
    an embedder that now returns four: the engine rejects the query, and the
    task row is there all the same. *)
Lemma startTask_inserts_task_row_witness :
  tasks (snd (startTask sameLengthDistance
                (set_initialized store8_embed4 true) dims8DB
                "fix auth" "t1" 5))
  = [] ++ [new_task "t1" "fix auth" (vecBuf (zeroVec 4)) 5]
  /\ (fst (fst (startTask sameLengthDistance
                  (set_initialized store8_embed4 true) dims8DB
                  "fix auth" "t1" 5))
      = Thrown EngineError
      \/ exists mems,
           fst (fst (startTask sameLengthDistance
                       (set_initialized store8_embed4 true) dims8DB
                       "fix auth" "t1" 5))
           = Returned (mkStartTaskResult "t1" mems)).
Proof.
  apply (startTask_inserts_task_row sameLengthDistance
           (set_initialized store8_embed4 true) dims8DB "fix auth" "t1" 5%Z
           (zeroVec 4) 0%nat (set_initialized store8_embed4 true) dims8DB).
  - reflexivity.
  - reflexivity.
Defined.

Example startTask_engine_error_keeps_task_row :
  fst (fst (startTask sameLengthDistance
              (set_initialized store8_embed4 true) dims8DB
              "fix auth" "t1" 5))
  = Thrown EngineError.
Proof. reflexivity. Qed.

(** *** What the retrieval query can return *)

Lemma candidates_embedded : forall dist vfn query rows l c,
  candidates dist vfn query rows = Some l ->
  In c l -> In (fst c) rows /\ m_embedding (fst c) <> None.
Proof.
  intros dist vfn query rows. induction rows as [| r rest IH];
    intros l c Hl Hc; cbn [candidates] in Hl.
  - injection Hl as <-. contradiction.
  - destruct (m_embedding r) as [e |] eqn:He.
    + destruct (dist vfn e query) as [d |]; [| discriminate].
      destruct (candidates dist vfn query rest) as [l' |]; [| discriminate].
      injection Hl as <-. destruct Hc as [<- | Hc].
      * cbn [fst]. split; [now left | now rewrite He].
      * destruct (IH l' c eq_refl Hc) as [Hin Hemb].
        split; [now right | exact Hemb].
    + destruct (IH l c Hl Hc) as [Hin Hemb].
      split; [now right | exact Hemb].
Qed.

Lemma insert_desc_In : forall (A : Type) (key : A -> R) (x y : A) l,
  In y (insert_desc key x l) -> y = x \/ In y l.
Proof.
  intros A key x y l. induction l as [| z l IH]; cbn [insert_desc]; intros H.
  - destruct H as [<- | []]. now left.
  - destruct (Rle_dec (key z) (key x)).
    + destruct H as [<- | H]; [now left | now right].
    + destruct H as [<- | H]; [right; now left |].
      destruct (IH H) as [-> | Hin]; [now left | right; now right].
Qed.

Lemma order_by_desc_In : forall (A : Type) (key : A -> R) (y : A) l,
  In y (order_by_desc key l) -> In y l.
Proof.
  intros A key y l. unfold order_by_desc.
  induction l as [| x l IH]; cbn [fold_right]; intros H; [exact H |].
  destruct (insert_desc_In A key x y _ H) as [-> | Hin];
    [now left | right; now apply IH].
Qed.

Lemma firstn_In : forall (A : Type) (n : nat) (x : A) l,
  In x (firstn n l) -> In x l.
Proof.
  intros A n x l H. rewrite <- (firstn_skipn n l).
  apply in_or_app. now left.
Qed.

Lemma record_retrieval_embedded : forall task now mem db k,
  embedded_row k db -> embedded_row k (record_retrieval task now db mem).
Proof.
  intros task now mem db k [row (Hin & Hid & Hemb)].
  unfold record_retrieval, update_memory.
  assert (Hm : memories (insert_or_ignore_retrieval (id mem) task
                           (score mem) db) = memories db).
  { unfold insert_or_ignore_retrieval. destruct (existsb _ _); reflexivity. }
  cbn [memories set_memories]. rewrite Hm.
  exists (if String.eqb (m_id row) (id mem) then touch now row else row).
  split.
  - apply in_map_iff. exists row. split; [reflexivity | exact Hin].
  - destruct (String.eqb (m_id row) (id mem)); split; assumption.
Qed.

Lemma record_retrievals_embedded : forall task now mems db k,
  embedded_row k db ->
  embedded_row k (fold_left (record_retrieval task now) mems db).
Proof.
  intros task now mems. induction mems as [| mem rest IH]; intros db k H;
    [exact H |].
  cbn [fold_left]. apply IH. now apply record_retrieval_embedded.
Qed.

Lemma embedPending_empty : forall s db,
  memories db = [] ->
  embedPending s db = (Returned 0%nat, fst (init s db), snd (init s db))
  /\ memories (snd (init s db)) = [].
Proof.
  intros s db Hnil. unfold embedPending.
  pose proof (init_memories s db) as Hm. rewrite Hnil in Hm.
  destruct (init s db) as [s1 db1]. cbn [fst snd] in *.
  assert (Hm1 : memories db1 = []) by (now destruct (initialized s)).
  rewrite Hm1. split; reflexivity.
Qed.

(** C8 (as stated) fails: a database whose only memory has a NULL embedding
    holds no memory with a non-NULL embedding, yet [startTask] embeds that
    memory in its [embedPending] pass and returns it. *)
Lemma startTask_pending_memory_counterexample :
  map m_embedding (memories pendingDB) = [None]
  /\ fst (fst (startTask sameLengthDistance store8 pendingDB "note" "t1" 5))
     = Returned
         (mkStartTaskResult "t1"
            [mkMemory "p" "note" "insight" 1 (1.0 - 0) 0%Z 0%Z])
  /\ fst (fst (startTask sameLengthDistance store8 pendingDB "note" "t1" 5))
     <> Returned (mkStartTaskResult "t1" []).
Proof.
  assert (H : fst (fst (startTask sameLengthDistance store8 pendingDB
                          "note" "t1" 5))
              = Returned
                  (mkStartTaskResult "t1"
                     [mkMemory "p" "note" "insight" 1 (1.0 - 0) 0%Z 0%Z]))
    by reflexivity.
  split; [reflexivity | split; [exact H |]].
  rewrite H. discriminate.
Qed.

(** C8 (amended): every memory that [startTask] returns has a non-NULL
    embedding in the file, pending memories being embedded by the
    [embedPending] pass of [startTask] before the query runs; and when the
    file holds no memory at all, [startTask] returns (taskId, []) and
    still inserts the task row. *)
Theorem startTask_returns_embedded_memories :
  forall dist s db description task now,
  (forall r, fst (fst (startTask dist s db description task now))
             = Returned r ->
     forall mem, In mem (result_memories r) ->
       exists row, In row (memories (snd (startTask dist s db description
                                             task now)))
                   /\ m_id row = id mem /\ m_embedding row <> None)
  /\ (forall vec, memories db = [] -> embed s description = Some vec ->
        fst (fst (startTask dist s db description task now))
        = Returned (mkStartTaskResult task [])
        /\ tasks (snd (startTask dist s db description task now))
           = tasks db ++ [new_task task description (vecBuf vec) now]).
Proof.
  intros dist s db description task now. split.
  - intros r Hr mem Hmem.
    destruct (embed s description) as [vec |] eqn:Hvec.
    2:{ unfold startTask in Hr.
        destruct (init_config s db) as (Hembed & _).
        destruct (init s db) as [s0 db0]. cbn [fst] in Hembed.
        rewrite Hembed, Hvec in Hr. discriminate Hr. }
    destruct (embedPending s db) as [[[n | err] s1] db1] eqn:Hpending.
    2:{ unfold startTask in Hr.
        destruct (init_config s db) as (Hembed & _).
        pose proof (init_idempotent s db) as Hidem.
        assert (Hp : embedPending (fst (init s db)) (snd (init s db))
                     = (Thrown err, s1, db1)).
        { unfold embedPending in *. rewrite Hidem. exact Hpending. }
        destruct (init s db) as [s0 db0]. cbn [fst snd] in *.
        rewrite Hembed, Hvec, Hp in Hr. discriminate Hr. }
    rewrite (startTask_after_embedding dist s db description task now vec
               n s1 db1 Hvec Hpending) in Hr |- *.
    cbn zeta in Hr |- *.
    destruct (candidates dist (vectorType s1) (vecBuf vec) _) as [rows |]
      eqn:Hrows; [| discriminate Hr].
    cbn [fst snd] in Hr |- *. injection Hr as <-.
    cbn [result_memories] in Hmem.
    apply in_map_iff in Hmem. destruct Hmem as [c [<- Hc]].
    apply firstn_In, order_by_desc_In in Hc.
    destruct (candidates_embedded _ _ _ _ _ _ Hrows Hc) as [Hin Hemb].
    apply record_retrievals_embedded.
    exists (fst c). repeat split; assumption.
  - intros vec Hnil Hvec.
    destruct (embedPending_empty s db Hnil) as [Hpending Hm].
    rewrite (startTask_after_embedding dist s db description task now vec
               _ _ _ Hvec Hpending).
    cbn zeta. cbn [memories set_tasks]. rewrite Hm.
    cbn [candidates order_by_desc fold_right]. rewrite firstn_nil.
    cbn [map fold_left fst snd tasks]. rewrite init_tasks.
    split; reflexivity.
Qed.

(** The first task of the test script: an empty file. *)
Lemma startTask_returns_embedded_memories_witness :
  fst (fst (startTask sameLengthDistance store8 emptyDB
              "Fix the authentication bug" "t1" 5))
  = Returned (mkStartTaskResult "t1" [])
  /\ tasks (snd (startTask sameLengthDistance store8 emptyDB
                   "Fix the authentication bug" "t1" 5))
     = [] ++ [new_task "t1" "Fix the authentication bug"
                (vecBuf (zeroVec 8)) 5].
Proof.
  apply (proj2 (startTask_returns_embedded_memories sameLengthDistance
                  store8 emptyDB "Fix the authentication bug" "t1" 5%Z)
           (zeroVec 8)).
  - reflexivity.
  - reflexivity.
Defined.

(* ------------------------------------------------------------------------- *)
(** * Weight bounds across operations *)

(** C1 (as stated) fails: on an empty file, a correction that wasted 50000
    tokens is inserted with weight 6.0, and a memory that a penalty put on
    the floor 0.1 is taken below it by [decay], which keeps it because it
    was never retrieved. *)
Lemma weight_bounds_counterexample :
  map m_weight (memories (snd (run (store8, emptyDB) driftOps)))
  = [5.97; 0.0995]
  /\ ~ weights_within 0.1 5.0 (snd (run (store8, emptyDB) driftOps)).
Proof.
  assert (H : map m_weight (memories (snd (run (store8, emptyDB) driftOps)))
              = [5.97; 0.0995]).
  { unfold run, driftOps, step, reportCorrection, penalizeMemory, decay, init.
    store_eval. unfold initialWeight, expired, Rltb, or_default. store_eval.
    unfold Rmax. real_cases; store_eval; repeat f_equal; lra. }
  split; [exact H |].
  unfold weights_within. intros Hall.
  apply (Forall_map m_weight (fun w => 0.1 <= w <= 5.0)) in Hall.
  rewrite H in Hall. inversion Hall as [| w l Hw _]. lra.
Qed.

Lemma weights_within_update : forall lo hi f key db,
  (forall m, lo <= m_weight m <= hi -> lo <= m_weight (f m) <= hi) ->
  weights_within lo hi db -> weights_within lo hi (update_memory f key db).
Proof.
  intros lo hi f key db Hf H. unfold weights_within, update_memory in *.
  cbn [memories set_memories]. apply Forall_map.
  eapply Forall_impl; [| exact H]. intros m Hm. cbn beta.
  destruct (String.eqb (m_id m) key); [now apply Hf | exact Hm].
Qed.

Lemma weights_within_weaken : forall lo lo' hi db,
  lo' <= lo -> weights_within lo hi db -> weights_within lo' hi db.
Proof.
  intros lo lo' hi db Hle H. unfold weights_within in *.
  eapply Forall_impl; [| exact H]. intros m Hm. cbn beta in *. lra.
Qed.

Lemma rate_entry_weights : forall lo ts k rate task db e,
  lo <= 0.1 ->
  weights_within lo 5.0 db ->
  weights_within lo 5.0 (rate_entry ts k rate task db e).
Proof.
  intros lo ts k rate task db e Hlo H. unfold rate_entry.
  unfold weights_within. rewrite update_retrieval_memories.
  destruct (get_memory (memoryId e) db) as [m |]; [| exact H].
  apply weights_within_update; [| exact H].
  intros m0 _. cbn [with_weight m_weight].
  pose proof (updateWeight_bounds (m_weight m)
                (computeCredit ts (entry_score e) k) rate). lra.
Qed.

Lemma rate_entries_weights : forall lo ts k rate task entries db,
  lo <= 0.1 ->
  weights_within lo 5.0 db ->
  weights_within lo 5.0 (rate_entries ts k rate task db entries).
Proof.
  intros lo ts k rate task entries. unfold rate_entries.
  induction entries as [| e rest IH]; intros db Hlo H; [exact H |].
  cbn [fold_left]. apply IH; [exact Hlo |].
  now apply rate_entry_weights.
Qed.

(** [endTask] writes clamped weights only. *)
Lemma endTask_weights : forall lo s db task input now,
  lo <= 0.1 ->
  weights_within lo 5.0 db ->
  weights_within lo 5.0 (snd (endTask s db task input now)).
Proof.
  intros lo s db task input now Hlo H.
  apply (init_weights s) in H. unfold endTask.
  destruct (init s db) as [s1 db1]. cbn [snd] in *.
  destruct (selfReport input) as [[| e l] |]; try exact H.
  apply rate_entries_weights; [exact Hlo | exact H].
Qed.

(** [penalizeMemory] keeps the floor, and the ceiling for a factor of at
    most one. *)
Lemma penalizeMemory_weights : forall lo s db key factor,
  0 < lo <= 0.1 -> factor <= 1 ->
  weights_within lo 5.0 db ->
  weights_within lo 5.0 (snd (penalizeMemory s db key factor)).
Proof.
  intros lo s db key factor Hlo Hf H.
  apply (init_weights s) in H. unfold penalizeMemory.
  destruct (init s db) as [s1 db1]. cbn [snd] in *.
  apply weights_within_update; [| exact H].
  intros m Hm. cbn [with_weight m_weight]. unfold Rmax.
  destruct (Rle_dec (m_weight m * factor) 0.1); [lra |]. nra.
Qed.

(** A factor above one takes a weight past the ceiling. *)
Example penalizeMemory_no_ceiling :
  map m_weight
    (memories
       (snd (penalizeMemory (set_initialized store8 true)
               (mkDB [sampleMemory "m" None 1 0%Z] [] [] []) "m" 100)))
  = [100].
Proof.
  unfold penalizeMemory, init. store_eval. unfold Rmax.
  real_cases; f_equal; lra.
Qed.

(** [decay] scales the bounds: the floor is not re-applied. *)
Lemma decay_weights : forall lo s db,
  0 < lo -> 0 < decayRate s <= 1 ->
  weights_within lo 5.0 db ->
  weights_within (lo * decayRate s) 5.0 (snd (decay s db)).
Proof.
  intros lo s db Hlo Hrate H.
  apply (init_weights s) in H. unfold weights_within in *.
  rewrite decay_memories. apply incl_Forall with
    (l1 := map (fun m => with_weight (m_weight m * decayRate s) m)
             (memories (snd (init s db)))).
  - intros x Hx. apply filter_In in Hx. tauto.
  - apply Forall_map. eapply Forall_impl; [| exact H].
    intros m Hm. cbn [with_weight m_weight] in *. nra.
Qed.

Lemma reportCorrection_weights : forall lo s db input new_id now,
  lo <= 0.1 ->
  0.1 <= correction_weight db input <= 5.0 ->
  weights_within lo 5.0 db ->
  weights_within lo 5.0 (snd (reportCorrection s db input new_id now)).
Proof.
  intros lo s db input new_id now Hlo Hw H.
  apply (init_weights s) in H. unfold reportCorrection.
  pose proof (init_tasks s db) as Ht.
  destruct (init s db) as [s1 db1]. cbn [snd] in *.
  destruct (embed s1 (correction_content input)); [| exact H].
  cbn [snd]. unfold weights_within, insert_memory in *.
  cbn [memories set_memories]. apply Forall_app. split; [exact H |].
  constructor; [| constructor]. cbn [m_weight].
  unfold correction_weight, avg_tokens_used in *. rewrite Ht. lra.
Qed.

Lemma step_decayRate : forall st op,
  decayRate (fst (step st op)) = decayRate (fst st).
Proof.
  intros [s db] op. cbn [fst snd].
  destruct (init_config s db) as (_ & _ & _ & _ & Hrate & _).
  destruct op as [task input now | | key factor | input new_id now];
    cbn [step fst snd].
  - unfold endTask. destruct (init s db) as [s1 db1]. cbn [fst] in *.
    cbn [set_baseline currentTaskId].
    destruct (currentTaskId s1) as [t |]; [| exact Hrate].
    destruct (String.eqb t task); exact Hrate.
  - unfold decay. destruct (init s db) as [s1 db1]. exact Hrate.
  - unfold penalizeMemory. destruct (init s db) as [s1 db1]. exact Hrate.
  - unfold reportCorrection. destruct (init s db) as [s1 db1].
    destruct (embed s1 (correction_content input)); exact Hrate.
Qed.

Lemma step_db : forall st op,
  snd (step st op)
  = match op with
    | EndTask task input now => snd (endTask (fst st) (snd st) task input now)
    | Decay => snd (decay (fst st) (snd st))
    | PenalizeMemory key factor =>
        snd (penalizeMemory (fst st) (snd st) key factor)
    | ReportCorrection input new_id now =>
        snd (reportCorrection (fst st) (snd st) input new_id now)
    end.
Proof.
  intros st op. destruct op; cbn [step].
  - now destruct (endTask _ _ _ _ _) as [[o s'] db'].
  - now destruct (decay _ _) as [[o s'] db'].
  - now destruct (penalizeMemory _ _ _ _) as [[o s'] db'].
  - now destruct (reportCorrection _ _ _ _ _) as [[o s'] db'].
Qed.

Lemma step_weights : forall lo st op,
  0 < lo <= 0.1 -> 0 < decayRate (fst st) <= 1 ->
  in_range_op st op ->
  weights_within lo 5.0 (snd st) ->
  weights_within (if is_decay op then lo * decayRate (fst st) else lo) 5.0
    (snd (step st op)).
Proof.
  intros lo st op Hlo Hrate Hop H. rewrite step_db.
  destruct op as [task input now | | key factor | input new_id now];
    cbn [is_decay in_range_op] in *.
  - apply endTask_weights; [lra | exact H].
  - apply decay_weights; [lra | exact Hrate | exact H].
  - apply penalizeMemory_weights; assumption.
  - apply reportCorrection_weights; [lra | exact Hop | exact H].
Qed.

Lemma run_weights : forall ops lo st,
  0 < lo <= 0.1 -> 0 < decayRate (fst st) <= 1 ->
  in_range_ops st ops ->
  weights_within lo 5.0 (snd st) ->
  weights_within (lo * decayRate (fst st) ^ decays ops) 5.0
    (snd (run st ops)).
Proof.
  induction ops as [| op rest IH]; intros lo st Hlo Hrate Hops H.
  - cbn. now rewrite Rmult_1_r.
  - destruct Hops as [Hop Hrest].
    pose proof (step_weights lo st op Hlo Hrate Hop H) as Hstep.
    pose proof (step_decayRate st op) as Hr.
    change (run st (op :: rest)) with (run (step st op) rest).
    destruct (is_decay op) eqn:Hd.
    + replace (decays (op :: rest)) with (S (decays rest))
        by (unfold decays; cbn [filter]; now rewrite Hd).
      cbn [pow]. rewrite <- Rmult_assoc, <- Hr.
      apply IH; rewrite ?Hr; try assumption. nra.
    + replace (decays (op :: rest)) with (decays rest)
        by (unfold decays; cbn [filter]; now rewrite Hd).
      rewrite <- Hr. apply IH; rewrite ?Hr; assumption.
Qed.

(** C1 (amended): only [endTask] clamps to [0.1, 5.0]; [penalizeMemory]
    applies the floor 0.1 alone, [decay] and [reportCorrection] write
    unclamped values.  So, for a decay rate in (0, 1], on a file whose
    weights are in [0.1, 5.0], after any sequence of [endTask], [decay],
    [penalizeMemory] with a factor of at most 1 and [reportCorrection] whose
    initial weight 1 + tokensWasted / avg is itself within [0.1, 5.0],
    every weight lies in [0.1 * decayRate ^ d, 5.0], d being the number of
    [decay] calls in the sequence. *)
Theorem weight_bounds_after_operations : forall ops s db,
  0 < decayRate s <= 1 ->
  weights_within 0.1 5.0 db ->
  in_range_ops (s, db) ops ->
  weights_within (0.1 * decayRate s ^ decays ops) 5.0
    (snd (run (s, db) ops)).
Proof.
  intros ops s db Hrate H Hops.
  apply (run_weights ops 0.1 (s, db)); try assumption. lra.
Qed.

Lemma weight_bounds_after_operations_witness :
  weights_within (0.1 * 0.995 ^ 1) 5.0 (snd (run (store8, emptyDB) plainOps)).
Proof.
  apply (weight_bounds_after_operations plainOps store8 emptyDB).
  - cbn [store8 new_MemoryStore decayRate config cfg_decayRate nullish]. lra.
  - constructor.
  - cbn [plainOps in_range_ops in_range_op]. repeat split; try lra.
    + unfold correction_weight, initialWeight, or_default. store_eval.
      real_cases; lra.
    + unfold correction_weight, initialWeight, or_default. store_eval.
      real_cases; lra.
Defined.

(* ------------------------------------------------------------------------- *)
(** * Further properties of the scoring algebra *)

(** ** The running baseline is the batch mean and sum of squares *)

Lemma total_nil : total [] = 0.
Proof. reflexivity. Qed.

Lemma total_cons : forall x xs, total (x :: xs) = x + total xs.
Proof. reflexivity. Qed.

Lemma total_app : forall xs ys, total (xs ++ ys) = total xs + total ys.
Proof.
  induction xs as [| x xs IH]; intros ys.
  - cbn [app]. rewrite total_nil. lra.
  - cbn [app]. rewrite !total_cons, IH. lra.
Qed.

Lemma squared_deviations_nonneg : forall m xs, 0 <= squared_deviations m xs.
Proof.
  intros m xs. unfold squared_deviations.
  induction xs as [| x xs IH]; [cbn [map]; rewrite total_nil; lra |].
  cbn [map]. rewrite total_cons.
  pose proof (Rle_0_sqr (x - m)) as Hsq. unfold Rsqr in Hsq.
  apply Rplus_le_le_0_compat; assumption.
Qed.

Lemma squared_deviations_expand : forall m xs,
  squared_deviations m xs
  = total (map (fun x => x * x) xs) - 2 * m * total xs
    + INR (List.length xs) * m * m.
Proof.
  intros m xs. unfold squared_deviations.
  induction xs as [| x xs IH].
  - cbn [map List.length INR]. rewrite !total_nil. lra.
  - cbn [map List.length]. rewrite !total_cons, IH, S_INR. lra.
Qed.

Lemma baseline_after_snoc : forall cs c,
  baseline_after (cs ++ [c])
  = updateBaseline (baseline_after cs) (tokens_of c) (errors_of c)
      (corrections_of c).
Proof.
  intros cs c. unfold baseline_after. now rewrite fold_left_app.
Qed.

Lemma baseline_after_count : forall cs,
  count (baseline_after cs) = List.length cs.
Proof.
  induction cs as [| c cs IH] using rev_ind; [reflexivity |].
  rewrite baseline_after_snoc, length_app. cbn [updateBaseline count
    List.length]. rewrite IH. lia.
Qed.

(** One variate of the baseline: its mean [pm], its sum of squares [p2] and
    the counter [px] it follows. *)
Section Variate.

Variables (pm p2 : TaskBaseline -> R) (px : Counters -> R).

Hypothesis empty_variate : pm emptyBaseline = 0 /\ p2 emptyBaseline = 0.

Hypothesis update_variate : forall b c,
  let b' := updateBaseline b (tokens_of c) (errors_of c) (corrections_of c) in
  pm b' = pm b + (px c - pm b) / INR (S (count b))
  /\ p2 b' = p2 b + (px c - pm b) * (px c - pm b').

Lemma welford_invariant : forall cs,
  let n := INR (List.length cs) in
  let b := baseline_after cs in
  n * pm b = total (map px cs)
  /\ n * p2 b
     = n * total (map (fun x => x * x) (map px cs))
       - total (map px cs) * total (map px cs).
Proof.
  induction cs as [| c cs IH] using rev_ind.
  - destruct empty_variate as [Hm H2]. cbn. lra.
  - cbn zeta in *. destruct IH as [IHm IH2].
    rewrite baseline_after_snoc.
    destruct (update_variate (baseline_after cs) c) as [Hm H2].
    cbn zeta in Hm, H2. rewrite H2, Hm.
    rewrite baseline_after_count, !map_app, !total_app, length_app.
    cbn [map List.length]. rewrite !total_cons.
    rewrite !total_nil.
    replace (List.length cs + 1)%nat with (S (List.length cs)) by lia.
    rewrite S_INR.
    set (n := INR (List.length cs)) in *.
    set (m := pm (baseline_after cs)) in *.
    set (v := p2 (baseline_after cs)) in *.
    set (S1 := total (map px cs)) in *.
    set (Q1 := total (map (fun x => x * x) (map px cs))) in *.
    assert (Hn : 0 <= n) by apply pos_INR.
    destruct (Req_dec_T n 0) as [Hz | Hnz].
    + assert (Hcs : cs = []).
      { destruct cs; [reflexivity |]. exfalso.
        unfold n in Hz. cbn [List.length] in Hz. rewrite S_INR in Hz.
        pose proof (pos_INR (List.length cs)). lra. }
      subst cs. destruct empty_variate as [Hm0 H20].
      unfold m, v, S1, Q1, n. cbn [baseline_after fold_left map total
        fold_right List.length INR]. rewrite Hm0, H20.
      split; field.
    + assert (HS : S1 = n * m) by lra.
      split.
      * rewrite HS. field. lra.
      * apply Rmult_eq_reg_l with (r := n); [| exact Hnz].
        transitivity
          ((n + 1) * (n * v)
           + (n * (px c) - n * m) * (n * (px c) - n * m)).
        { field. lra. }
        rewrite IH2, HS. ring.
Qed.

Lemma welford_mean : forall cs, cs <> [] ->
  pm (baseline_after cs) = total (map px cs) / INR (List.length cs).
Proof.
  intros cs Hne. destruct (welford_invariant cs) as [Hm _]. cbn zeta in Hm.
  assert (0 < INR (List.length cs)).
  { destruct cs; [now elim Hne |]. cbn [List.length]. rewrite S_INR.
    pose proof (pos_INR (List.length cs)). lra. }
  rewrite <- Hm. field. lra.
Qed.

Lemma welford_m2 : forall cs,
  p2 (baseline_after cs)
  = squared_deviations (pm (baseline_after cs)) (map px cs).
Proof.
  intros cs. rewrite squared_deviations_expand, length_map.
  destruct cs as [| c0 cs0] eqn:E.
  - destruct empty_variate as [Hm H2]. cbn. rewrite H2. lra.
  - rewrite <- E.
    destruct (welford_invariant cs) as [Hm H2]. cbn zeta in Hm, H2.
    assert (0 < INR (List.length cs)).
    { rewrite E. cbn [List.length]. rewrite S_INR.
      pose proof (pos_INR (List.length cs0)). lra. }
    set (n := INR (List.length cs)) in *.
    apply Rmult_eq_reg_l with (r := n); [| lra].
    rewrite H2, <- Hm. ring.
Qed.

End Variate.

(** X1: after any non-empty series of finished tasks the running means of
    [updateBaseline] are the arithmetic means of the series, and the count
    is its length. *)
Theorem updateBaseline_batch_mean : forall cs, cs <> [] ->
  let b := baseline_after cs in
  let n := INR (List.length cs) in
  count b = List.length cs
  /\ meanTokens b = total (map tokens_of cs) / n
  /\ meanErrors b = total (map errors_of cs) / n
  /\ meanUserCorrections b = total (map corrections_of cs) / n.
Proof.
  intros cs Hne. cbn zeta. split; [apply baseline_after_count |].
  repeat split.
  - apply (welford_mean meanTokens m2Tokens tokens_of); try assumption;
      [split; reflexivity | intros; split; reflexivity].
  - apply (welford_mean meanErrors m2Errors errors_of); try assumption;
      [split; reflexivity | intros; split; reflexivity].
  - apply (welford_mean meanUserCorrections m2UserCorrections
             corrections_of); try assumption;
      [split; reflexivity | intros; split; reflexivity].
Qed.

Lemma updateBaseline_batch_mean_witness :
  meanTokens (baseline_after [(100, 2, 0); (300, 0, 1)])
  = total (map tokens_of [(100, 2, 0); (300, 0, 1)]) / INR 2.
Proof.
  apply (updateBaseline_batch_mean [(100, 2, 0); (300, 0, 1)]).
  discriminate.
Defined.

(** X2: the running sums of squares of [updateBaseline] are the sums of the
    squared deviations of the series from its running means; they are never
    negative. *)
Theorem updateBaseline_sum_of_squares : forall cs,
  let b := baseline_after cs in
  m2Tokens b = squared_deviations (meanTokens b) (map tokens_of cs)
  /\ m2Errors b = squared_deviations (meanErrors b) (map errors_of cs)
  /\ m2UserCorrections b
     = squared_deviations (meanUserCorrections b) (map corrections_of cs)
  /\ 0 <= m2Tokens b /\ 0 <= m2Errors b /\ 0 <= m2UserCorrections b.
Proof.
  intros cs. cbn zeta.
  assert (Ht := welford_m2 meanTokens m2Tokens tokens_of
                  (conj eq_refl eq_refl) (fun b c => conj eq_refl eq_refl) cs).
  assert (He := welford_m2 meanErrors m2Errors errors_of
                  (conj eq_refl eq_refl) (fun b c => conj eq_refl eq_refl) cs).
  assert (Hu := welford_m2 meanUserCorrections m2UserCorrections
                  corrections_of
                  (conj eq_refl eq_refl) (fun b c => conj eq_refl eq_refl) cs).
  repeat split; try assumption.
  - rewrite Ht. apply squared_deviations_nonneg.
  - rewrite He. apply squared_deviations_nonneg.
  - rewrite Hu. apply squared_deviations_nonneg.
Qed.

(** ** The task score *)

Lemma Rdiv_le_pos : forall a b d, 0 < d -> a <= b -> a / d <= b / d.
Proof.
  intros a b d Hd Hab. unfold Rdiv.
  apply Rmult_le_compat_r; [| exact Hab].
  left. now apply Rinv_0_lt_compat.
Qed.

(** X3: in both regimes and for every baseline, the task score never rises
    when tokens, errors or user corrections rise, and a completed task
    scores exactly 2 more than the same task not completed. *)
Theorem computeTaskScore_antitone :
  forall b t1 t2 e1 e2 u1 u2 done,
  t1 <= t2 -> e1 <= e2 -> u1 <= u2 ->
  computeTaskScore b t2 e2 u2 done <= computeTaskScore b t1 e1 u1 done
  /\ computeTaskScore b t1 e1 u1 true
     = computeTaskScore b t1 e1 u1 false + 2.
Proof.
  intros b t1 t2 e1 e2 u1 u2 done Ht He Hu.
  unfold computeTaskScore, completedSignal.
  destruct (count b <? 10)%nat.
  - split; [| lra].
    destruct (0 <? count b)%nat; [| lra].
    pose proof (Rdiv_le_pos (meanTokens b - t2) (meanTokens b - t1)
                  (Rmax (meanTokens b) 1)) as H1.
    pose proof (Rdiv_le_pos (meanErrors b - e2) (meanErrors b - e1)
                  (Rmax (meanErrors b) 1)) as H2.
    pose proof (Rmax_ge_1 (meanTokens b)).
    pose proof (Rmax_ge_1 (meanErrors b)).
    lra.
  - split; [| lra].
    pose proof (Rdiv_le_pos (t1 - meanTokens b) (t2 - meanTokens b) _
                  (stddev_pos (m2Tokens b) (count b))) as H1.
    pose proof (Rdiv_le_pos (e1 - meanErrors b) (e2 - meanErrors b) _
                  (stddev_pos (m2Errors b) (count b))) as H2.
    pose proof (Rdiv_le_pos (u1 - meanUserCorrections b)
                  (u2 - meanUserCorrections b) _
                  (stddev_pos (m2UserCorrections b) (count b))) as H3.
    lra.
Qed.

Lemma computeTaskScore_antitone_witness :
  computeTaskScore tenTasks 90 3 1 true
  <= computeTaskScore tenTasks 80 1 0 true.
Proof.
  apply (computeTaskScore_antitone tenTasks 80 90 1 3 0 1 true); lra.
Defined.

(** ** Credit and the moving average *)

Lemma total_scale : forall c xs,
  total (map (fun x => c * x) xs) = c * total xs.
Proof.
  intros c xs. induction xs as [| x xs IH].
  - cbn [map]. rewrite total_nil. lra.
  - cbn [map]. rewrite !total_cons, IH. lra.
Qed.

Lemma total_bounds : forall lo hi xs,
  (forall x, In x xs -> lo <= x <= hi) ->
  INR (List.length xs) * lo <= total xs <= INR (List.length xs) * hi.
Proof.
  intros lo hi xs. induction xs as [| x xs IH]; intros H.
  - cbn [List.length INR]. rewrite total_nil. lra.
  - cbn [List.length]. rewrite total_cons, S_INR.
    assert (lo <= x <= hi) by (apply H; now left).
    assert (INR (List.length xs) * lo <= total xs
            <= INR (List.length xs) * hi).
    { apply IH. intros y Hy. apply H. now right. }
    lra.
Qed.

(** X4: the credits that one self-report hands out add up to
    taskScore * (sum of the ratings) / (3 * k): when every one of the k
    memories is rated 3 they add up to the task score, and with ratings in
    0..3 their sum never exceeds the task score in magnitude. *)
Theorem computeCredit_shares :
  forall taskScore (entries : list SelfReportEntry),
  entries <> [] ->
  let k := List.length entries in
  let credits :=
    map (fun e => computeCredit taskScore (entry_score e) k) entries in
  total credits
  = taskScore * (total (map entry_score entries) / (3 * INR k))
  /\ ((forall e, In e entries -> entry_score e = 3) ->
        total credits = taskScore)
  /\ ((forall e, In e entries -> 0 <= entry_score e <= 3) ->
        Rabs (total credits) <= Rabs taskScore).
Proof.
  intros ts entries Hne. cbn zeta.
  set (k := List.length entries).
  assert (Hk : 1 <= INR k).
  { unfold k. destruct entries; [now elim Hne |].
    cbn [List.length]. rewrite S_INR.
    pose proof (pos_INR (List.length entries)). lra. }
  assert (Hsum : total (map (fun e => computeCredit ts (entry_score e) k)
                          entries)
                 = ts * (total (map entry_score entries) / (3 * INR k))).
  { rewrite (map_ext _ (fun e => (ts / (3 * INR k)) * entry_score e)).
    - rewrite <- (map_map entry_score (fun x => ts / (3 * INR k) * x)).
      rewrite total_scale. field. lra.
    - intros e. rewrite computeCredit_formula.
      rewrite (Rmax_left (INR k) 1) by lra. field. lra. }
  assert (Hlen : List.length (map entry_score entries) = k)
    by apply length_map.
  split; [exact Hsum | split].
  - intros Hall. rewrite Hsum.
    destruct (total_bounds 3 3 (map entry_score entries)) as [Hlo Hhi].
    { intros x Hx. apply in_map_iff in Hx. destruct Hx as [e [<- He]].
      rewrite (Hall e He). lra. }
    rewrite Hlen in Hlo, Hhi.
    replace (total (map entry_score entries)) with (INR k * 3) by lra.
    field. lra.
  - intros Hall. rewrite Hsum.
    destruct (total_bounds 0 3 (map entry_score entries)) as [Hlo Hhi].
    { intros x Hx. apply in_map_iff in Hx. destruct Hx as [e [<- He]].
      now apply Hall. }
    rewrite Hlen in Hlo, Hhi.
    set (q := total (map entry_score entries) / (3 * INR k)).
    assert (Hq : 0 <= q <= 1).
    { unfold q. split.
      - apply Rmult_le_pos; [lra |]. left. apply Rinv_0_lt_compat. lra.
      - apply Rmult_le_reg_r with (r := 3 * INR k); [lra |].
        unfold Rdiv. rewrite Rmult_assoc, Rinv_l by lra. lra. }
    rewrite Rabs_mult, (Rabs_pos_eq q) by lra.
    pose proof (Rabs_pos ts). nra.
Qed.

Lemma computeCredit_shares_witness :
  total (map (fun e => computeCredit 1.5 (entry_score e) 2) [good3; good3])
  = 1.5.
Proof.
  apply (computeCredit_shares 1.5 [good3; good3]).
  - discriminate.
  - intros e [<- | [<- | []]]; reflexivity.
Defined.

(** X5: for a learning rate in [0, 1] and a weight in [0.1, 5.0],
    [updateWeight] moves the weight towards the credit without passing it
    and without leaving [0.1, 5.0]; for a positive rate the move is strict
    unless the weight already sits on the bound in that direction. *)
Theorem updateWeight_moves_towards_credit : forall w credit rate,
  0 <= rate <= 1 -> 0.1 <= w <= 5.0 ->
  (credit <= w ->
     Rmax credit 0.1 <= updateWeight w credit rate <= w)
  /\ (w <= credit ->
        w <= updateWeight w credit rate <= Rmin credit 5.0)
  /\ (0 < rate -> credit < w -> 0.1 < w -> updateWeight w credit rate < w)
  /\ (0 < rate -> w < credit -> w < 5.0 -> w < updateWeight w credit rate).
Proof.
  intros w credit rate Hrate Hw.
  unfold updateWeight, Rmax, Rmin.
  repeat split; intros; real_cases; nra.
Qed.

Lemma updateWeight_moves_towards_credit_witness :
  Rmax 0 0.1 <= updateWeight 1 0 0.1 <= 1.
Proof.
  apply (updateWeight_moves_towards_credit 1 0 0.1); lra.
Defined.

(* ------------------------------------------------------------------------- *)
(** * Further properties of the store *)

(** ** Initial weight of a correction *)

Lemma total_nonneg : forall xs, (forall x, In x xs -> 0 <= x) -> 0 <= total xs.
Proof.
  induction xs as [| x xs IH]; intros H.
  - rewrite total_nil. lra.
  - rewrite total_cons.
    assert (0 <= x) by (apply H; now left).
    assert (0 <= total xs) by (apply IH; intros y Hy; apply H; now right).
    lra.
Qed.

Lemma sql_avg_nonneg : forall xs a,
  (forall x, In x xs -> 0 <= x) -> sql_avg xs = Some a -> 0 <= a.
Proof.
  intros xs a Hall Havg. destruct xs as [| x xs]; [discriminate |].
  cbn [sql_avg] in Havg. injection Havg as <-.
  change (fold_right Rplus 0 (x :: xs)) with (total (x :: xs)).
  pose proof (total_nonneg (x :: xs) Hall) as Hsum.
  assert (0 < INR (List.length (x :: xs))).
  { cbn [List.length]. rewrite S_INR.
    pose proof (pos_INR (List.length xs)). lra. }
  apply Rmult_le_pos; [exact Hsum |].
  left. now apply Rinv_0_lt_compat.
Qed.

Lemma non_null_In : forall (A B : Type) (col : A -> option B) rows v,
  In v (non_null col rows) <-> exists r, In r rows /\ col r = Some v.
Proof.
  intros A B col rows v. unfold non_null. rewrite in_flat_map. split.
  - intros [r [Hr Hv]]. exists r. split; [exact Hr |].
    destruct (col r) as [w |]; [| contradiction].
    destruct Hv as [<- | []]. reflexivity.
  - intros [r [Hr Hv]]. exists r. split; [exact Hr |].
    rewrite Hv. now left.
Qed.

Lemma reportCorrection_db : forall s db input new_id now vec,
  embed s (correction_content input) = Some vec ->
  reportCorrection s db input new_id now
  = (Returned new_id, fst (init s db),
     insert_memory (snd (init s db))
       (mkMemoryRow new_id (correction_content input) (Some (vecBuf vec))
          "correction" (correction_weight db input)
          (nullish (tokensWasted input) 0) now None 0%Z (currentTaskId s))).
Proof.
  intros s db input new_id now vec Hvec. unfold reportCorrection.
  destruct (init_config s db) as (Hembed & _ & _ & _ & _ & Hcur).
  pose proof (init_tasks s db) as Ht.
  destruct (init s db) as [s1 db1]. cbn [fst snd] in *.
  rewrite Hembed, Hvec, Hcur. unfold correction_weight, avg_tokens_used.
  now rewrite Ht.
Qed.

(** X6: when no finished task has a negative token count and the wasted
    tokens are not negative, [reportCorrection] stores a weight of at least
    1.0, and exactly 1.0 when no tokens were wasted or none were given. *)
Theorem reportCorrection_weight_at_least_one :
  forall s db input new_id now vec,
  embed s (correction_content input) = Some vec ->
  (forall t v, In t (tasks db) -> t_tokens_used t = Some v -> 0 <= v) ->
  0 <= nullish (tokensWasted input) 0 ->
  exists row,
    memories (snd (reportCorrection s db input new_id now))
    = memories (snd (init s db)) ++ [row]
    /\ m_id row = new_id
    /\ 1.0 <= m_weight row
    /\ (nullish (tokensWasted input) 0 = 0 -> m_weight row = 1.0).
Proof.
  intros s db input new_id now vec Hvec Htasks Hcost.
  rewrite (reportCorrection_db s db input new_id now vec Hvec).
  eexists. cbn [snd insert_memory memories set_memories].
  split; [reflexivity |]. cbn [m_id m_weight]. split; [reflexivity |].
  unfold correction_weight, initialWeight.
  cbn [String.eqb Ascii.eqb Bool.eqb]. rewrite or_default_nullish.
  set (cost := nullish (tokensWasted input) 0) in *.
  assert (Havg : 0 < or_default
                       (Some (nullish (avg_tokens_used db) 10000)) 10000).
  { unfold or_default. destruct (Req_dec_T _ 0) as [_ | Hnz]; [lra |].
    destruct (avg_tokens_used db) as [a |] eqn:Ha; cbn [nullish] in *;
      [| lra].
    assert (0 <= a); [| lra].
    apply (sql_avg_nonneg _ a) with (2 := Ha).
    intros x Hx. apply non_null_In in Hx. destruct Hx as [t [Ht Hv]].
    exact (Htasks t x Ht Hv). }
  split.
  - assert (0 <= cost / or_default
                          (Some (nullish (avg_tokens_used db) 10000)) 10000).
    { apply Rmult_le_pos; [exact Hcost |].
      left. now apply Rinv_0_lt_compat. }
    lra.
  - intros ->. unfold Rdiv. rewrite Rmult_0_l. lra.
Qed.

Lemma reportCorrection_weight_at_least_one_witness :
  exists row,
    memories (snd (reportCorrection store8 zeroAvgDB
                     (correctionInput (Some 100)) "m1" 0))
    = memories (snd (init store8 zeroAvgDB)) ++ [row]
    /\ m_id row = "m1"%string
    /\ 1.0 <= m_weight row
    /\ (nullish (tokensWasted (correctionInput (Some 100))) 0 = 0 ->
          m_weight row = 1.0).
Proof.
  apply (reportCorrection_weight_at_least_one store8 zeroAvgDB
           (correctionInput (Some 100)) "m1" 0%Z (zeroVec 8)).
  - reflexivity.
  - intros t v [<- | []] Hv. cbn in Hv. injection Hv as <-. lra.
  - cbn. lra.
Defined.

(** ** Opening and re-opening the file *)

Lemma repair_idempotent : forall m, repair (repair m) = repair m.
Proof.
  intros m. destruct (m_embedding m) as [e |] eqn:E.
  - destruct (truncated e) eqn:T.
    + assert (H : repair m = with_embedding None m)
        by (unfold repair; now rewrite E, T).
      rewrite H. reflexivity.
    + assert (H : repair m = m) by (unfold repair; now rewrite E, T).
      now rewrite !H.
  - assert (H : repair m = m) by (unfold repair; now rewrite E).
    now rewrite !H.
Qed.

Lemma repair_complete : forall m e,
  m_embedding (repair m) = Some e -> (1536 <= length_blob e)%nat.
Proof.
  intros m e. unfold repair.
  destruct (m_embedding m) as [e0 |] eqn:E.
  - destruct (truncated e0) eqn:T; cbn [with_embedding m_embedding].
    + discriminate.
    + rewrite E. intros H. injection H as <-.
      unfold truncated in T. now apply Nat.ltb_ge in T.
  - rewrite E. discriminate.
Qed.

(** X7: opening a file leaves no truncated embedding behind (every
    embedding is NULL or has at least 1536 bytes) and keeps the ids and
    weights of all memories; closing and opening again changes nothing
    more, in the file or in the store. *)
Theorem init_reopen : forall s db,
  initialized s = false ->
  (forall m e, In m (memories (snd (init s db))) ->
     m_embedding m = Some e -> (1536 <= length_blob e)%nat)
  /\ map m_id (memories (snd (init s db))) = map m_id (memories db)
  /\ map m_weight (memories (snd (init s db))) = map m_weight (memories db)
  /\ init (close (fst (init s db))) (snd (init s db)) = init s db.
Proof.
  intros s db Hs. rewrite init_memories, Hs.
  split; [| split; [| split]].
  - intros m e Hin He. apply in_map_iff in Hin.
    destruct Hin as [m0 [<- _]]. now apply repair_complete in He.
  - rewrite map_map. apply map_ext. apply repair_id.
  - rewrite map_map. apply map_ext. apply repair_weight.
  - unfold init. rewrite Hs. cbn.
    rewrite map_map.
    rewrite (map_ext (fun m => repair (repair m)) repair repair_idempotent).
    destruct (get_meta "baseline" (meta db)) as [b |]; reflexivity.
Qed.

Lemma init_reopen_witness :
  init (close (fst (init store8 dims8DB))) (snd (init store8 dims8DB))
  = init store8 dims8DB.
Proof.
  apply (init_reopen store8 dims8DB). reflexivity.
Defined.

(** ** The baseline across calls and processes *)

Lemma endTask_meta_baseline : forall s db task input now,
  get_meta "baseline" (meta (snd (endTask s db task input now)))
  = Some (baseline (snd (fst (endTask s db task input now)))).
Proof.
  intros. destruct (endTask_tasks_meta s db task input now) as [_ Hm].
  rewrite Hm, endTask_baseline. apply get_meta_upsert.
Qed.

(** X8: the baseline that [endTask] leaves in the store is the one any
    store object reads back when it opens the file afterwards, whether this
    store after [close] or the store of another process. *)
Theorem endTask_baseline_survives_reopen :
  forall s db task input now (other : MemoryStore),
  initialized other = false ->
  baseline (fst (init other (snd (endTask s db task input now))))
  = baseline (snd (fst (endTask s db task input now)))
  /\ baseline (fst (init (close (snd (fst (endTask s db task input now))))
                      (snd (endTask s db task input now))))
     = baseline (snd (fst (endTask s db task input now))).
Proof.
  intros s db task input now other Hother.
  pose proof (endTask_meta_baseline s db task input now) as Hm.
  split.
  - unfold init. rewrite Hother. cbn [meta set_memories fst].
    rewrite Hm. reflexivity.
  - unfold init. cbn [close set_initialized initialized meta set_memories fst].
    rewrite Hm. reflexivity.
Qed.

Lemma endTask_baseline_survives_reopen_witness :
  baseline (fst (init store8_embed4
                   (snd (endTask store8 emptyDB "t" (endInput None) 3))))
  = baseline (snd (fst (endTask store8 emptyDB "t" (endInput None) 3))).
Proof.
  apply (endTask_baseline_survives_reopen store8 emptyDB "t" (endInput None)
           3%Z store8_embed4).
  reflexivity.
Defined.

Lemma step_store : forall st op,
  fst (step st op)
  = match op with
    | EndTask task input now =>
        snd (fst (endTask (fst st) (snd st) task input now))
    | Decay => snd (fst (decay (fst st) (snd st)))
    | PenalizeMemory key factor =>
        snd (fst (penalizeMemory (fst st) (snd st) key factor))
    | ReportCorrection input new_id now =>
        snd (fst (reportCorrection (fst st) (snd st) input new_id now))
    end.
Proof.
  intros st op. destruct op; cbn [step].
  - now destruct (endTask _ _ _ _ _) as [[o s'] db'].
  - now destruct (decay _ _) as [[o s'] db'].
  - now destruct (penalizeMemory _ _ _ _) as [[o s'] db'].
  - now destruct (reportCorrection _ _ _ _ _) as [[o s'] db'].
Qed.

Lemma step_opened : forall st op,
  initialized (fst st) = true ->
  initialized (fst (step st op)) = true
  /\ baseline (fst (step st op))
     = match op with
       | EndTask _ input _ =>
           updateBaseline (baseline (fst st)) (tokensUsed input)
             (errors input) (userCorrections input)
       | _ => baseline (fst st)
       end.
Proof.
  intros [s db] op Hs. cbn [fst snd] in *. rewrite step_store. cbn [fst snd].
  destruct op as [task input now | | key factor | input new_id now].
  - split; [| rewrite endTask_baseline, (init_once s db Hs); reflexivity].
    unfold endTask. rewrite (init_once s db Hs). cbn [fst snd].
    cbn [set_baseline currentTaskId].
    destruct (currentTaskId s) as [t |]; [| exact Hs].
    destruct (String.eqb t task); exact Hs.
  - unfold decay. rewrite (init_once s db Hs). cbn. now split.
  - unfold penalizeMemory. rewrite (init_once s db Hs). cbn. now split.
  - unfold reportCorrection. rewrite (init_once s db Hs).
    destruct (embed s (correction_content input)); cbn; now split.
Qed.

(** X9: the baseline counts the [endTask] calls, and only them: after any
    sequence of [endTask], [decay], [penalizeMemory] and [reportCorrection]
    on an open store, baseline.count has grown by the number of [endTask]
    calls in the sequence. *)
Theorem run_baseline_count : forall ops st,
  initialized (fst st) = true ->
  count (baseline (fst (run st ops)))
  = (count (baseline (fst st)) + end_tasks ops)%nat.
Proof.
  induction ops as [| op rest IH]; intros st Hs.
  - cbn. lia.
  - change (run st (op :: rest)) with (run (step st op) rest).
    destruct (step_opened st op Hs) as [Hs' Hb].
    rewrite (IH _ Hs'), Hb. unfold end_tasks.
    destruct op; cbn [filter is_end_task List.length updateBaseline count];
      lia.
Qed.

Lemma run_baseline_count_witness :
  count (baseline
           (fst (run (set_initialized store8 true, emptyDB)
                   [EndTask "a" (endInput None) 1%Z; Decay;
                    EndTask "b" (endInput None) 2%Z])))
  = (0 + 2)%nat.
Proof.
  apply (run_baseline_count
           [EndTask "a" (endInput None) 1%Z; Decay;
            EndTask "b" (endInput None) 2%Z]
           (set_initialized store8 true, emptyDB)).
  reflexivity.
Defined.

(** ** [endTask] without ratings *)



(** ** [purge], [decay], [penalizeMemory] *)

Lemma Rltb_false : forall x y, Rltb x y = false <-> y <= x.
Proof.
  intros x y. unfold Rltb. destruct (Rlt_dec x y); split; intros H;
    try reflexivity; try discriminate; lra.
Qed.

(** X11: [purge] deletes exactly the memories whose weight is below the
    threshold and returns how many they were; what is left weighs at least
    the threshold, and purging again with the same threshold deletes
    nothing. *)
Theorem purge_below_threshold : forall s db threshold,
  exists n s' db',
    purge s db threshold = (Returned n, s', db')
    /\ (forall m, In m (memories db')
                  <-> In m (memories (snd (init s db)))
                      /\ threshold <= m_weight m)
    /\ (n + List.length (memories db')
        = List.length (memories (snd (init s db))))%nat
    /\ purge s' db' threshold = (Returned 0%nat, s', db').
Proof.
  intros s db threshold. unfold purge at 1.
  pose proof (init_initialized s db) as Hopen.
  destruct (init s db) as [s1 db1]. cbn [fst snd] in *.
  eexists; eexists; eexists. split; [reflexivity |].
  cbn [memories set_memories]. split; [| split].
  - intros m. rewrite filter_In, negb_true_iff, Rltb_false. tauto.
  - apply filter_length.
  - unfold purge. rewrite (init_once _ _ Hopen).
    cbn [memories set_memories].
    assert (Hkeep : forall l,
              filter (fun m => negb (Rltb (m_weight m) threshold))
                (filter (fun m => negb (Rltb (m_weight m) threshold)) l)
              = filter (fun m => negb (Rltb (m_weight m) threshold)) l).
    { induction l as [| m l IH]; [reflexivity |]. cbn [filter].
      destruct (negb (Rltb (m_weight m) threshold)) eqn:E; [| exact IH].
      cbn [filter]. now rewrite E, IH. }
    assert (Hnone : forall l,
              filter (fun m => Rltb (m_weight m) threshold)
                (filter (fun m => negb (Rltb (m_weight m) threshold)) l)
              = []).
    { induction l as [| m l IH]; [reflexivity |]. cbn [filter].
      destruct (Rltb (m_weight m) threshold) eqn:E; cbn [negb filter];
        [exact IH | now rewrite E, IH]. }
    rewrite Hkeep, Hnone. cbn [List.length].
    unfold set_memories. cbn. reflexivity.
Qed.

(** X12: [decay] reports as decayed the number of memories in the file and
    as deleted the number it removed, so that deleted plus what is left
    equals decayed; every memory it leaves has a weight of at least 0.15 or
    has been retrieved at most 5 times. *)
Theorem decay_counts : forall s db,
  exists r s' db',
    decay s db = (Returned r, s', db')
    /\ decayed r = List.length (memories (snd (init s db)))
    /\ (deleted r + List.length (memories db') = decayed r)%nat
    /\ (forall m, In m (memories db') ->
          0.15 <= m_weight m \/ (m_retrieval_count m <= 5)%Z).
Proof.
  intros s db. unfold decay.
  destruct (init s db) as [s1 db1]. cbn [snd].
  eexists; eexists; eexists. split; [reflexivity |].
  cbn [decayed deleted memories set_memories]. split; [| split].
  - apply length_map.
  - apply filter_length.
  - intros m Hm. apply filter_In in Hm. destruct Hm as [_ Hm].
    apply negb_true_iff in Hm. unfold expired in Hm.
    apply andb_false_iff in Hm. destruct Hm as [Hm | Hm].
    + left. now apply Rltb_false.
    + right. apply Z.ltb_ge in Hm. exact Hm.
Qed.

Lemma with_weight_same : forall m, with_weight (m_weight m) m = m.
Proof. now destruct m. Qed.

Lemma run_cons : forall st op ops, run st (op :: ops) = run (step st op) ops.
Proof. reflexivity. Qed.

(** Repeated [decay] on one row that was retrieved at most 5 times. *)
Lemma repeated_decay_row : forall n s db m,
  initialized s = true ->
  In m (memories db) -> (m_retrieval_count m <= 5)%Z ->
  In (with_weight (m_weight m * decayRate s ^ n) m)
    (memories (snd (run (s, db) (repeat Decay n)))).
Proof.
  induction n as [| n IH]; intros s db m Hs Hin Hrc.
  - cbn [repeat run fold_left snd pow]. rewrite Rmult_1_r, with_weight_same.
    exact Hin.
  - cbn [repeat]. rewrite run_cons.
    destruct (step_opened (s, db) Decay Hs) as [Hs' _].
    pose proof (step_decayRate (s, db) Decay) as Hrate.
    pose proof (step_db (s, db) Decay) as Hdb. cbn [fst snd] in *.
    set (m1 := with_weight (m_weight m * decayRate s) m).
    assert (Hin1 : In m1 (memories (snd (step (s, db) Decay)))).
    { rewrite Hdb, decay_memories, (init_once s db Hs). cbn [snd].
      apply filter_In. split.
      - apply in_map_iff. exists m. split; [reflexivity | exact Hin].
      - destruct (expired m1) eqn:E; [| reflexivity].
        apply expired_spec in E. destruct E as [_ E].
        unfold m1 in E. cbn in E. lia. }
    destruct (step (s, db) Decay) as [s1 db1]. cbn [fst snd] in *.
    pose proof (IH s1 db1 m1 Hs' Hin1 Hrc) as Hfinal.
    rewrite Hrate in Hfinal. unfold m1 in Hfinal.
    cbn [with_weight m_weight m_id m_content m_embedding m_category
         m_initial_cost m_created_at m_last_retrieved m_retrieval_count
         m_source_task] in Hfinal.
    cbn [pow]. unfold with_weight.
    replace (m_weight m * (decayRate s * decayRate s ^ n))
      with (m_weight m * decayRate s * decayRate s ^ n) by ring.
    exact Hfinal.
Qed.

(** X13: repeated [decay] shrinks a weight geometrically and never collects
    a memory that was retrieved at most 5 times: after n calls the file
    holds that memory with the weight w * decayRate ^ n, every other column
    as it was. *)
Theorem decay_repeated : forall n s db m,
  initialized s = true ->
  In m (memories db) -> (m_retrieval_count m <= 5)%Z ->
  exists m',
    In m' (memories (snd (run (s, db) (repeat Decay n))))
    /\ reweighted (m_weight m * decayRate s ^ n) m m'.
Proof.
  intros n s db m Hs Hin Hrc.
  exists (with_weight (m_weight m * decayRate s ^ n) m). split.
  - now apply repeated_decay_row.
  - apply reweighted_with_weight.
Qed.

Lemma decay_repeated_witness :
  exists m',
    In m'
      (memories
         (snd (run (set_initialized store8 true,
                    mkDB [sampleMemory "m" None 0.2 5] [] [] [])
                 (repeat Decay 3))))
    /\ reweighted (0.2 * 0.995 ^ 3) (sampleMemory "m" None 0.2 5) m'.
Proof.
  apply (decay_repeated 3 (set_initialized store8 true)
           (mkDB [sampleMemory "m" None 0.2 5] [] [] [])
           (sampleMemory "m" None 0.2 5)).
  - reflexivity.
  - now left.
  - cbn. lia.
Defined.

Lemma pow_unit_interval : forall f n, 0 <= f <= 1 -> 0 <= f ^ n <= 1.
Proof.
  intros f n Hf. split; [apply pow_le; lra |].
  rewrite <- (pow1 n). apply pow_incr. exact Hf.
Qed.

Lemma penalty_compose : forall w f p,
  0 <= w -> 0 <= f <= 1 -> 0 <= p <= 1 ->
  Rmax (Rmax (w * f) 0.1 * p) 0.1 = Rmax (w * (f * p)) 0.1.
Proof.
  intros w f p Hw Hf Hp. unfold Rmax. real_cases; nra.
Qed.

Lemma penalizeMemory_select : forall s db key f,
  initialized s = true ->
  select_memories key (snd (penalizeMemory s db key f))
  = map (fun m => with_weight (Rmax (m_weight m * f) 0.1) m)
      (select_memories key db).
Proof.
  intros s db key f Hs. unfold penalizeMemory.
  rewrite (init_once s db Hs). cbn [snd]. unfold select_memories.
  cbn [update_memory memories set_memories].
  apply (select_after_update_same (fun m => String.eqb (m_id m) key)).
  reflexivity.
Qed.

(** Repeated [penalizeMemory] on the rows of one id. *)
Lemma repeated_penalty_rows : forall n s db key f,
  initialized s = true -> 0 <= f <= 1 ->
  (forall m, In m (select_memories key db) -> 0 <= m_weight m) ->
  select_memories key
    (snd (run (s, db) (repeat (PenalizeMemory key f) (S n))))
  = map (fun m => with_weight (Rmax (m_weight m * f ^ S n) 0.1) m)
      (select_memories key db).
Proof.
  induction n as [| n IH]; intros s db key f Hs Hf Hw.
  - cbn [repeat run fold_left]. rewrite step_db. cbn [fst snd].
    rewrite (penalizeMemory_select s db key f Hs).
    apply map_ext. intros m. now rewrite pow_1.
  - remember (S n) as k eqn:Hk. cbn [repeat]. rewrite run_cons.
    destruct (step_opened (s, db) (PenalizeMemory key f) Hs) as [Hs' _].
    pose proof (step_db (s, db) (PenalizeMemory key f)) as Hdb.
    cbn [fst snd] in Hdb.
    pose proof (penalizeMemory_select s db key f Hs) as Hsel.
    rewrite <- Hdb in Hsel.
    destruct (step (s, db) (PenalizeMemory key f)) as [s1 db1].
    cbn [fst snd] in *. subst k.
    rewrite (IH s1 db1 key f Hs' Hf).
    + rewrite Hsel, map_map. apply map_ext_in. intros m Hm.
      cbn [with_weight m_weight m_id m_content m_embedding m_category
           m_initial_cost m_created_at m_last_retrieved m_retrieval_count
           m_source_task].
      unfold with_weight. f_equal.
      rewrite (penalty_compose (m_weight m) f (f ^ S n));
        [reflexivity | now apply Hw | exact Hf
        | now apply pow_unit_interval].
    + intros m Hm. rewrite Hsel in Hm. apply in_map_iff in Hm.
      destruct Hm as [m0 [<- _]]. cbn [with_weight m_weight].
      pose proof (Rmax_r (m_weight m0 * f) 0.1). lra.
Qed.

(** X14: penalties compose: after n >= 1 calls of [penalizeMemory] with the
    same factor f in [0, 1] a memory of weight w >= 0 has the weight
    max(w * f ^ n, 0.1) and every other column as it was, so the weight
    falls to the floor 0.1 and stays there. *)
Theorem penalizeMemory_repeated : forall n s db key f,
  initialized s = true -> 0 <= f <= 1 ->
  (forall m, In m (select_memories key db) -> 0 <= m_weight m) ->
  Forall2 (fun m m' => reweighted (Rmax (m_weight m * f ^ S n) 0.1) m m')
    (select_memories key db)
    (select_memories key
       (snd (run (s, db) (repeat (PenalizeMemory key f) (S n))))).
Proof.
  intros n s db key f Hs Hf Hw.
  rewrite (repeated_penalty_rows n s db key f Hs Hf Hw).
  apply Forall2_map_r. intros m _. apply reweighted_with_weight.
Qed.

Lemma penalizeMemory_repeated_witness :
  map m_weight
    (select_memories "m"
       (snd (run (set_initialized store8 true,
                  mkDB [sampleMemory "m" None 1 0] [] [] [])
               (repeat (PenalizeMemory "m" 0.999) 2))))
  = [Rmax (1 * 0.999 ^ 2) 0.1].
Proof.
  apply (Forall2_column _ _
           (fun m m' => reweighted (Rmax (m_weight m * 0.999 ^ 2) 0.1) m m')
           m_weight (fun m => Rmax (m_weight m * 0.999 ^ 2) 0.1)
           (select_memories "m" (mkDB [sampleMemory "m" None 1 0] [] [] []))).
  - intros m m' _ H. apply H.
  - apply (penalizeMemory_repeated 1 (set_initialized store8 true)
             (mkDB [sampleMemory "m" None 1 0] [] [] []) "m" 0.999).
    + reflexivity.
    + lra.
    + intros m [<- | []]. cbn. lra.
Defined.

(** ** [ORDER BY ... DESC LIMIT ?] *)

Section OrderBy.

Context {A : Type}.
Variable key : A -> R.

Lemma insert_desc_perm : forall x l,
  Permutation (insert_desc key x l) (x :: l).
Proof.
  intros x l. induction l as [| y l IH]; cbn [insert_desc].
  - apply Permutation_refl.
  - destruct (Rle_dec (key y) (key x)); [apply Permutation_refl |].
    apply perm_trans with (y :: x :: l).
    + now apply perm_skip.
    + apply perm_swap.
Qed.

Lemma order_by_desc_perm : forall l, Permutation (order_by_desc key l) l.
Proof.
  unfold order_by_desc. induction l as [| x l IH]; cbn [fold_right].
  - apply Permutation_refl.
  - apply perm_trans with (x :: fold_right (insert_desc key) [] l).
    + apply insert_desc_perm.
    + now apply perm_skip.
Qed.

Lemma insert_desc_sorted : forall x l,
  descending key l -> descending key (insert_desc key x l).
Proof.
  intros x l. unfold descending.
  induction l as [| y l IH]; intros Hl; cbn [insert_desc].
  - constructor; constructor.
  - apply StronglySorted_inv in Hl. destruct Hl as [Hl Hy].
    destruct (Rle_dec (key y) (key x)) as [Hle | Hgt].
    + constructor.
      * now constructor.
      * constructor; [exact Hle |].
        eapply Forall_impl; [| exact Hy]. cbn beta. intros z Hz. lra.
    + constructor; [now apply IH |].
      apply Forall_forall. intros z Hz.
      apply insert_desc_In in Hz. destruct Hz as [-> | Hz]; [lra |].
      rewrite Forall_forall in Hy. now apply Hy.
Qed.

Lemma order_by_desc_sorted : forall l, descending key (order_by_desc key l).
Proof.
  unfold order_by_desc. induction l as [| x l IH]; cbn [fold_right].
  - constructor.
  - now apply insert_desc_sorted.
Qed.

(** In a descending list, whatever [LIMIT] cuts off ranks no higher than
    what it keeps. *)
Lemma descending_limit : forall k l x y,
  descending key l -> In x (firstn k l) -> In y (skipn k l) ->
  key y <= key x.
Proof.
  unfold descending. induction k as [| k IH]; intros l x y Hl Hx Hy.
  - contradiction.
  - destruct l as [| z l]; [contradiction |].
    apply StronglySorted_inv in Hl. destruct Hl as [Hl Hz].
    cbn [firstn skipn] in Hx, Hy. destruct Hx as [<- | Hx].
    + rewrite Forall_forall in Hz. apply Hz.
      rewrite <- (firstn_skipn k l). apply in_or_app. now right.
    + exact (IH l x y Hl Hx Hy).
Qed.

Lemma descending_firstn : forall k l,
  descending key l -> descending key (firstn k l).
Proof.
  unfold descending. induction k as [| k IH]; intros l Hl; [constructor |].
  destruct l as [| z l]; [constructor |].
  apply StronglySorted_inv in Hl. destruct Hl as [Hl Hz].
  cbn [firstn]. constructor; [now apply IH |].
  apply Forall_forall. intros y Hy. rewrite Forall_forall in Hz.
  apply Hz. now apply firstn_In in Hy.
Qed.

Lemma order_by_desc_length : forall l,
  List.length (order_by_desc key l) = List.length l.
Proof.
  intros l. apply Permutation_length. apply order_by_desc_perm.
Qed.

Lemma order_by_desc_In_iff : forall l x,
  In x (order_by_desc key l) <-> In x l.
Proof.
  intros l x. split; intros H.
  - eapply Permutation_in; [apply order_by_desc_perm | exact H].
  - eapply Permutation_in; [apply Permutation_sym, order_by_desc_perm |].
    exact H.
Qed.

End OrderBy.

Lemma descending_map : forall (A B : Type) (f : A -> B) (keyA : A -> R)
    (keyB : B -> R) l,
  (forall x, keyB (f x) = keyA x) ->
  descending keyA l -> descending keyB (map f l).
Proof.
  intros A B f keyA keyB l Hkey. unfold descending.
  induction l as [| x l IH]; intros Hl; cbn [map]; [constructor |].
  apply StronglySorted_inv in Hl. destruct Hl as [Hl Hx].
  constructor; [now apply IH |].
  apply Forall_map. eapply Forall_impl; [| exact Hx].
  cbn beta. intros y Hy. now rewrite !Hkey.
Qed.

(** X15: [getTopByWeight] only reads: it returns min(limit, number of
    memories) memories (limit 5 when absent), heaviest first, each with
    score equal to its weight, and no memory left out is heavier than one
    returned. *)
Theorem getTopByWeight_heaviest : forall s db limit,
  exists mems,
    getTopByWeight s db limit
    = (Returned mems, fst (init s db), snd (init s db))
    /\ List.length mems
       = Nat.min (nullish limit 5%nat)
           (List.length (memories (snd (init s db))))
    /\ descending weight mems
    /\ (forall mem, In mem mems ->
          score mem = weight mem
          /\ exists row, In row (memories (snd (init s db)))
                         /\ mem = weight_memory row)
    /\ (forall row mem, In row (memories (snd (init s db))) ->
          ~ In (weight_memory row) mems -> In mem mems ->
          m_weight row <= weight mem).
Proof.
  intros s db limit. unfold getTopByWeight.
  destruct (init s db) as [s1 db1]. cbn [fst snd].
  set (k := nullish limit 5%nat).
  set (sorted := order_by_desc m_weight (memories db1)).
  eexists. split; [reflexivity |].
  split; [| split; [| split]].
  - rewrite length_map, length_firstn. unfold sorted.
    now rewrite order_by_desc_length.
  - apply (descending_map _ _ weight_memory m_weight weight);
      [reflexivity |].
    apply descending_firstn. apply order_by_desc_sorted.
  - intros mem Hmem. apply in_map_iff in Hmem.
    destruct Hmem as [row [<- Hrow]]. split; [reflexivity |].
    exists row. split; [| reflexivity].
    apply firstn_In in Hrow. now apply order_by_desc_In_iff in Hrow.
  - intros row mem Hrow Hout Hmem. apply in_map_iff in Hmem.
    destruct Hmem as [top [<- Htop]]. cbn [weight_memory weight].
    apply (descending_limit m_weight k sorted);
      [apply order_by_desc_sorted | exact Htop |].
    apply (order_by_desc_In_iff m_weight) in Hrow. fold sorted in Hrow.
    rewrite <- (firstn_skipn k sorted) in Hrow.
    apply in_app_or in Hrow. destruct Hrow as [Hin | Hin]; [| exact Hin].
    exfalso. apply Hout. apply in_map_iff. now exists row.
Qed.

Lemma non_null_none : forall (A B : Type) (col : A -> option B) rows,
  (forall r, In r rows -> col r = None) -> non_null col rows = [].
Proof.
  intros A B col rows. induction rows as [| r rows IH]; intros H;
    [reflexivity |].
  unfold non_null. cbn [flat_map]. rewrite (H r (or_introl eq_refl)).
  cbn [app]. apply IH. intros r' Hr'. apply H. now right.
Qed.

(** X16: [getStats] counts the rows of memories and tasks, reports 0 as
    average score when no task has a score, and lists as top memories the
    content, weight and retrieval count of what [getTopByWeight(10)]
    returns, in the same order. *)
Theorem getStats_consistent : forall s db,
  exists stats mems,
    getStats s db = (Returned stats, fst (init s db), snd (init s db))
    /\ getTopByWeight s db (Some 10%nat)
       = (Returned mems, fst (init s db), snd (init s db))
    /\ totalMemories stats = List.length (memories (snd (init s db)))
    /\ taskCount stats = List.length (tasks db)
    /\ ((forall t, In t (tasks db) -> t_task_score t = None) ->
          avgTaskScore stats = 0)
    /\ topMemories stats
       = map (fun m => mkTopMemory (content m) (weight m) (retrievalCount m))
           mems
    /\ (List.length (topMemories stats) <= 10)%nat.
Proof.
  intros s db. unfold getStats, getTopByWeight.
  pose proof (init_tasks s db) as Ht.
  destruct (init s db) as [s1 db1]. cbn [fst snd] in *.
  eexists; eexists. split; [reflexivity |]. split; [reflexivity |].
  cbn [totalMemories taskCount avgTaskScore topMemories nullish].
  rewrite Ht.
  split; [reflexivity |]. split; [reflexivity |]. split; [| split].
  - intros Hnone.
    rewrite (non_null_none _ _ t_task_score (tasks db) Hnone). reflexivity.
  - rewrite map_map. reflexivity.
  - rewrite length_map. apply firstn_le_length.
Qed.

(** ** [embedPending] *)

Lemma write_embedding_memories : forall db e,
  memories (write_embedding db e)
  = map (fun m => if String.eqb (m_id m) (fst e)
                  then with_embedding (Some (snd e)) m else m)
      (memories db).
Proof. reflexivity. Qed.

Lemma write_embeddings_column : forall (B : Type) (col : MemoryRow -> B)
    embedded db,
  (forall e m, col (with_embedding e m) = col m) ->
  map col (memories (fold_left write_embedding embedded db))
  = map col (memories db).
Proof.
  intros B col embedded. induction embedded as [| e rest IH];
    intros db Hcol; [reflexivity |].
  cbn [fold_left]. rewrite (IH _ Hcol), write_embedding_memories, map_map.
  apply map_ext. intros m.
  destruct (String.eqb (m_id m) (fst e)); [apply Hcol | reflexivity].
Qed.

(** After the writes, a row is embedded if it was before or if one of the
    writes bears its id. *)
Lemma write_embeddings_embedded : forall embedded db m',
  In m' (memories (fold_left write_embedding embedded db)) ->
  exists m, In m (memories db) /\ m_id m' = m_id m
    /\ (m_embedding m <> None -> m_embedding m' <> None)
    /\ (In (m_id m) (map fst embedded) -> m_embedding m' <> None).
Proof.
  induction embedded as [| e rest IH]; intros db m' Hin.
  - exists m'. cbn [fold_left map] in *. tauto.
  - cbn [fold_left] in Hin.
    destruct (IH _ m' Hin) as (m1 & Hin1 & Hid & Hk & Hw).
    rewrite write_embedding_memories in Hin1. apply in_map_iff in Hin1.
    destruct Hin1 as [m [Hm1 Hm]]. exists m. split; [exact Hm |].
    destruct (String.eqb_spec (m_id m) (fst e)) as [E | N]; subst m1.
    + cbn [with_embedding m_id m_embedding] in *.
      repeat split; try assumption; intros _; apply Hk; discriminate.
    + repeat split; try assumption.
      intros [Hfst | Hrest]; [now elim N | exact (Hw Hrest)].
Qed.

Lemma embed_rows_ids : forall embed rows embedded,
  embed_rows embed rows = Some embedded ->
  map fst embedded = map m_id rows
  /\ forall e, In e embedded ->
       exists r vec, In r rows /\ embed (m_content r) = Some vec
                     /\ e = (m_id r, vecBuf vec).
Proof.
  intros embed rows. induction rows as [| r rows IH]; intros embedded H;
    cbn [embed_rows] in H.
  - injection H as <-. split; [reflexivity | intros e []].
  - destruct (embed (m_content r)) as [vec |] eqn:Hvec; [| discriminate].
    destruct (embed_rows embed rows) as [l |]; [| discriminate].
    injection H as <-. destruct (IH l eq_refl) as [Hids Hall].
    split; [cbn [map fst]; now rewrite Hids |].
    intros e [<- | He].
    + exists r, vec. repeat split; [now left | exact Hvec].
    + destruct (Hall e He) as (r0 & v0 & Hr0 & Hv0 & ->).
      exists r0, v0. repeat split; [now right | exact Hv0].
Qed.

Lemma embed_rows_fails : forall embed rows r,
  In r rows -> embed (m_content r) = None -> embed_rows embed rows = None.
Proof.
  intros embed rows r. induction rows as [| r0 rows IH]; intros Hin Hr;
    [contradiction |].
  cbn [embed_rows]. destruct Hin as [-> | Hin]; [now rewrite Hr |].
  destruct (embed (m_content r0)); [| reflexivity].
  now rewrite (IH Hin Hr).
Qed.

Lemma unique_ids_inj : forall db m1 m2,
  unique_ids db -> In m1 (memories db) -> In m2 (memories db) ->
  m_id m1 = m_id m2 -> m1 = m2.
Proof.
  intros db m1 m2. unfold unique_ids.
  induction (memories db) as [| m l IH]; intros Hnd H1 H2 Hid;
    [contradiction |].
  cbn [map] in Hnd. inversion Hnd as [| x xs Hnot Hnd']; subst.
  destruct H1 as [<- | H1], H2 as [<- | H2]; try reflexivity.
  - exfalso. apply Hnot. rewrite Hid. now apply in_map.
  - exfalso. apply Hnot. rewrite <- Hid. now apply in_map.
  - now apply IH.
Qed.

(** The writes of [embedPending] on one row whose id is unique. *)
Lemma write_embeddings_row : forall embedded (m : MemoryRow) b,
  (forall e, In e embedded -> fst e = m_id m -> snd e = b) ->
  fold_left
    (fun row e => if String.eqb (m_id row) (fst e)
                  then with_embedding (Some (snd e)) row else row)
    embedded m
  = if existsb (fun e => String.eqb (m_id m) (fst e)) embedded
    then with_embedding (Some b) m else m.
Proof.
  induction embedded as [| e rest IH]; intros m b Hsame; [reflexivity |].
  cbn [fold_left existsb].
  destruct (String.eqb_spec (m_id m) (fst e)) as [E | N].
  - rewrite (Hsame e (or_introl eq_refl) (eq_sym E)). cbn [orb].
    rewrite (IH (with_embedding (Some b) m) b).
    + cbn [with_embedding m_id].
      destruct (existsb _ rest); reflexivity.
    + intros e' He' Hid. apply Hsame; [now right | exact Hid].
  - cbn [orb]. apply IH. intros e' He' Hid.
    apply Hsame; [now right | exact Hid].
Qed.

Lemma write_embeddings_rows : forall embedded db,
  memories (fold_left write_embedding embedded db)
  = map (fun m =>
           fold_left
             (fun row e => if String.eqb (m_id row) (fst e)
                           then with_embedding (Some (snd e)) row else row)
             embedded m)
      (memories db).
Proof.
  induction embedded as [| e rest IH]; intros db.
  - cbn [fold_left]. now rewrite map_id.
  - cbn [fold_left]. rewrite IH, write_embedding_memories, map_map.
    reflexivity.
Qed.



(** ** A rejecting embedder *)

(** X18: when the embedder rejects, nothing is written.  [embedPending]
    fails without storing any embedding if one pending memory cannot be
    embedded; [startTask] fails without inserting the task row if the
    description or a pending memory cannot be embedded; [reportCorrection]
    fails without inserting the memory.  The file is left as [init] leaves
    it. *)
Theorem embed_failure_writes_nothing :
  forall dist s db description task now input new_id,
  ((exists r, In r (memories (snd (init s db)))
              /\ m_embedding r = None /\ embed s (m_content r) = None) ->
     embedPending s db
     = (Thrown EmbedFailure, fst (init s db), snd (init s db))
     /\ startTask dist s db description task now
        = (Thrown EmbedFailure, fst (init s db), snd (init s db)))
  /\ (embed s description = None ->
        startTask dist s db description task now
        = (Thrown EmbedFailure, fst (init s db), snd (init s db)))
  /\ (embed s (correction_content input) = None ->
        reportCorrection s db input new_id now
        = (Thrown EmbedFailure, fst (init s db), snd (init s db))).
Proof.
  intros dist s db description task now input new_id.
  destruct (init_config s db) as (Hembed & _).
  pose proof (init_idempotent s db) as Hidem.
  assert (Hpending :
    (exists r, In r (memories (snd (init s db)))
               /\ m_embedding r = None /\ embed s (m_content r) = None) ->
    embedPending s db
    = (Thrown EmbedFailure, fst (init s db), snd (init s db))).
  { intros (r & Hr & Hnull & Hfail). unfold embedPending.
    destruct (init s db) as [s1 db1]. cbn [fst snd] in *.
    assert (Hrow : In r (filter (fun m => is_null (m_embedding m))
                           (memories db1))).
    { apply filter_In. split; [exact Hr | now rewrite Hnull]. }
    destruct (filter _ (memories db1)) as [| r0 rows] eqn:E;
      [contradiction |].
    rewrite (embed_rows_fails (embed s1) (r0 :: rows) r Hrow);
      [reflexivity | now rewrite Hembed]. }
  split; [| split].
  - intros Hex. split; [now apply Hpending |].
    pose proof (Hpending Hex) as Hp. unfold startTask.
    assert (Hp' : embedPending (fst (init s db)) (snd (init s db))
                  = (Thrown EmbedFailure, fst (init s db), snd (init s db))).
    { unfold embedPending in *. rewrite Hidem. exact Hp. }
    destruct (init s db) as [s1 db1]. cbn [fst snd] in *.
    destruct (embed s1 description); [now rewrite Hp' | reflexivity].
  - intros Hfail. unfold startTask.
    destruct (init s db) as [s1 db1]. cbn [fst snd] in *.
    now rewrite Hembed, Hfail.
  - intros Hfail. unfold reportCorrection.
    destruct (init s db) as [s1 db1]. cbn [fst snd] in *.
    now rewrite Hembed, Hfail.
Qed.

Lemma embed_failure_writes_nothing_witness :
  startTask sameLengthDistance
    (new_MemoryStore (config None (fun _ => None))) emptyDB "x" "t" 0
  = (Thrown EmbedFailure,
     fst (init (new_MemoryStore (config None (fun _ => None))) emptyDB),
     snd (init (new_MemoryStore (config None (fun _ => None))) emptyDB)).
Proof.
  apply (embed_failure_writes_nothing sameLengthDistance
           (new_MemoryStore (config None (fun _ => None))) emptyDB
           "x" "t" 0%Z (correctionInput None) "m").
  reflexivity.
Defined.

(** ** What [startTask] returns *)

Lemma candidates_rows : forall dist vfn query rows l,
  candidates dist vfn query rows = Some l ->
  map fst l = filter (fun m => negb (is_null (m_embedding m))) rows
  /\ forall c, In c l ->
       exists e, m_embedding (fst c) = Some e
                 /\ dist vfn e query = Some (snd c).
Proof.
  intros dist vfn query rows. induction rows as [| r rows IH]; intros l H;
    cbn [candidates] in H.
  - injection H as <-. split; [reflexivity | intros c []].
  - cbn [filter]. destruct (m_embedding r) as [e |] eqn:E; cbn [is_null negb].
    + destruct (dist vfn e query) as [d |] eqn:D; [| discriminate].
      destruct (candidates dist vfn query rows) as [l' |]; [| discriminate].
      injection H as <-. destruct (IH l' eq_refl) as [Hfst Hall].
      split; [cbn [map fst]; now rewrite Hfst |].
      intros c [<- | Hc]; [| now apply Hall].
      exists e. cbn [fst snd]. split; assumption.
    + now apply IH.
Qed.

Lemma filter_all : forall (A : Type) (p : A -> bool) l,
  (forall x, In x l -> p x = true) -> filter p l = l.
Proof.
  intros A p l. induction l as [| x l IH]; intros H; [reflexivity |].
  cbn [filter]. rewrite (H x (or_introl eq_refl)). f_equal.
  apply IH. intros y Hy. apply H. now right.
Qed.

Lemma write_row_columns : forall embedded (m : MemoryRow),
  let m' :=
    fold_left
      (fun row e => if String.eqb (m_id row) (fst e)
                    then with_embedding (Some (snd e)) row else row)
      embedded m in
  m_id m' = m_id m /\ m_content m' = m_content m
  /\ m_category m' = m_category m /\ m_weight m' = m_weight m.
Proof.
  induction embedded as [| e rest IH]; intros m; cbn zeta; [tauto |].
  cbn [fold_left].
  destruct (String.eqb (m_id m) (fst e)); [| apply IH].
  destruct (IH (with_embedding (Some (snd e)) m)) as (H1 & H2 & H3 & H4).
  cbn zeta in *. rewrite H1, H2, H3, H4. repeat split.
Qed.

(** The file after a successful [embedPending], row by row. *)
Lemma embedPending_rows : forall s db n s1 db1,
  embedPending s db = (Returned n, s1, db1) ->
  (forall m, In m (memories db1) -> m_embedding m <> None)
  /\ List.length (memories db1) = List.length (memories db)
  /\ (forall m1, In m1 (memories db1) ->
        exists row, In row (memories (snd (init s db)))
          /\ m_id m1 = m_id row /\ m_content m1 = m_content row
          /\ m_category m1 = m_category row /\ m_weight m1 = m_weight row)
  /\ (forall row, In row (memories (snd (init s db))) ->
        exists m1, In m1 (memories db1)
          /\ m_id m1 = m_id row /\ m_content m1 = m_content row
          /\ m_category m1 = m_category row /\ m_weight m1 = m_weight row).
Proof.
  intros s db n s1 db1 H. unfold embedPending in H.
  assert (Hlen0 : List.length (memories (snd (init s db)))
                  = List.length (memories db)).
  { rewrite init_memories. destruct (initialized s); [reflexivity |].
    apply length_map. }
  destruct (init s db) as [s0 db0]. cbn [fst snd] in *.
  destruct (filter (fun m => is_null (m_embedding m)) (memories db0))
    as [| r0 rest] eqn:Hrows.
  - injection H as _ _ <-. split; [| split; [exact Hlen0 | split]].
    + intros m Hm E.
      assert (Hin : In m (filter (fun m => is_null (m_embedding m))
                            (memories db0))).
      { apply filter_In. split; [exact Hm | now rewrite E]. }
      rewrite Hrows in Hin. contradiction.
    + intros m1 Hm1. exists m1. tauto.
    + intros row Hrow. exists row. tauto.
  - rewrite <- Hrows in *.
    destruct (embed_rows (embed s0) _) as [embedded |] eqn:Hemb;
      [| discriminate].
    injection H as _ _ <-.
    destruct (embed_rows_ids _ _ _ Hemb) as [Hids _].
    split; [| split; [| split]].
    + intros m' Hm'.
      destruct (write_embeddings_embedded _ _ _ Hm') as (m & Hm & _ & Hk & Hw).
      destruct (m_embedding m) as [e |] eqn:E; [apply Hk; discriminate |].
      apply Hw. rewrite Hids. apply in_map.
      apply filter_In. split; [exact Hm | now rewrite E].
    + now rewrite write_embeddings_rows, length_map.
    + intros m1 Hm1. rewrite write_embeddings_rows in Hm1.
      apply in_map_iff in Hm1. destruct Hm1 as [row [<- Hrow]].
      exists row. split; [exact Hrow | apply write_row_columns].
    + intros row Hrow. eexists. split.
      * rewrite write_embeddings_rows. apply in_map. exact Hrow.
      * apply write_row_columns.
Qed.

(** [startTask] when it returns: the steps it went through. *)
Lemma startTask_returned : forall dist s db description task now r s' db',
  startTask dist s db description task now = (Returned r, s', db') ->
  exists vec n s1 db1 rows,
    embed s description = Some vec
    /\ embedPending s db = (Returned n, s1, db1)
    /\ candidates dist (vectorType s) (vecBuf vec) (memories db1) = Some rows
    /\ r = mkStartTaskResult task
             (map to_memory
                (firstn (topK s) (order_by_desc (rank (decayRate s) now) rows)))
    /\ s' = set_currentTaskId s1 (Some task)
    /\ db' = fold_left (record_retrieval task now) (result_memories r)
               (set_tasks db1
                  (tasks db1
                   ++ [new_task task description (vecBuf vec) now])).
Proof.
  intros dist s db description task now r s' db' H.
  destruct (init_config s db) as (Hembed & Hvt & Hk & _ & Hrate & _).
  destruct (embed s description) as [vec |] eqn:Hvec.
  2:{ unfold startTask in H. destruct (init s db) as [s0 db0].
      cbn [fst] in Hembed. rewrite Hembed, Hvec in H. discriminate H. }
  assert (Hcfg : forall n s1 db1, embedPending s db = (n, s1, db1) ->
            s1 = fst (init s db)).
  { intros n s1 db1 Hp. unfold embedPending in Hp.
    destruct (init s db) as [s0 db0]. cbn [fst].
    destruct (filter _ (memories db0)); [now injection Hp as _ <- _ |].
    destruct (embed_rows _ _); now injection Hp as _ <- _. }
  destruct (embedPending s db) as [[[n | err] s1] db1] eqn:Hpending.
  2:{ unfold startTask in H.
      pose proof (init_idempotent s db) as Hidem.
      assert (Hp : embedPending (fst (init s db)) (snd (init s db))
                   = (Thrown err, s1, db1)).
      { unfold embedPending in *. rewrite Hidem. exact Hpending. }
      destruct (init s db) as [s0 db0]. cbn [fst snd] in *.
      rewrite Hembed, Hvec, Hp in H. discriminate H. }
  pose proof (Hcfg _ _ _ eq_refl) as Hs1.
  rewrite (startTask_after_embedding dist s db description task now vec
             n s1 db1 Hvec Hpending) in H.
  cbn zeta in H. cbn [memories set_tasks] in H.
  rewrite Hs1, Hvt, Hk, Hrate in H.
  destruct (candidates dist (vectorType s) (vecBuf vec) (memories db1))
    as [rows |] eqn:Hrows; [| discriminate H].
  injection H as <- <- <-.
  exists vec, n, s1, db1, rows. rewrite <- Hs1.
  repeat split; assumption.
Qed.

Lemma startTask_result_rows :
  forall dist s db description task now r s' db',
  startTask dist s db description task now = (Returned r, s', db') ->
  taskId r = task
  /\ List.length (result_memories r)
     = Nat.min (topK s) (List.length (memories db))
  /\ (forall mem, In mem (result_memories r) ->
        exists row, In row (memories (snd (init s db)))
          /\ id mem = m_id row /\ content mem = m_content row
          /\ category mem = m_category row /\ weight mem = m_weight row)
  /\ ((List.length (memories db) <= topK s)%nat ->
      forall row, In row (memories (snd (init s db))) ->
        exists mem, In mem (result_memories r)
          /\ id mem = m_id row /\ content mem = m_content row
          /\ category mem = m_category row /\ weight mem = m_weight row).
Proof.
  intros dist s db description task now r s' db' H.
  destruct (startTask_returned _ _ _ _ _ _ _ _ _ H)
    as (vec & n & s1 & db1 & rows & Hvec & Hpending & Hrows & -> & _ & _).
  cbn [taskId result_memories].
  destruct (embedPending_rows s db n s1 db1 Hpending)
    as (Hall & Hlen & Hfrom & Hto).
  destruct (candidates_rows _ _ _ _ _ Hrows) as [Hfst _].
  rewrite filter_all in Hfst.
  2:{ intros m Hm. specialize (Hall m Hm).
      destruct (m_embedding m); [reflexivity | now elim Hall]. }
  set (sorted := order_by_desc (rank (decayRate s) now) rows).
  split; [reflexivity |]. split; [| split].
  - rewrite length_map, length_firstn. unfold sorted.
    rewrite order_by_desc_length, <- (length_map fst rows), Hfst, Hlen.
    reflexivity.
  - intros mem Hmem. apply in_map_iff in Hmem. destruct Hmem as [c [<- Hc]].
    apply firstn_In in Hc. apply order_by_desc_In_iff in Hc.
    assert (Hrow : In (fst c) (memories db1)).
    { rewrite <- Hfst. now apply in_map. }
    destruct (Hfrom _ Hrow) as (row & Hin & H1 & H2 & H3 & H4).
    exists row. cbn [to_memory id content category weight].
    repeat split; assumption.
  - intros Hk row Hrow.
    destruct (Hto _ Hrow) as (m1 & Hin1 & H1 & H2 & H3 & H4).
    rewrite <- Hfst in Hin1. apply in_map_iff in Hin1.
    destruct Hin1 as [c [<- Hc]].
    exists (to_memory c). split.
    + apply in_map. rewrite firstn_all2.
      * now apply order_by_desc_In_iff.
      * unfold sorted.
        rewrite order_by_desc_length, <- (length_map fst rows), Hfst, Hlen.
        exact Hk.
    + cbn [to_memory id content category weight]. repeat split; assumption.
Qed.

(** X19: when [startTask] returns, it returns min(topK, number of memories
    in the file) memories, pending ones included, each carrying the id,
    content, category and weight of a memory of the file; with topK at
    least the number of memories, every memory is returned. *)
Theorem startTask_returns_min_topK :
  forall dist s db description task now r s' db',
  startTask dist s db description task now = (Returned r, s', db') ->
  taskId r = task
  /\ List.length (result_memories r)
     = Nat.min (topK s) (List.length (memories db))
  /\ (forall mem, In mem (result_memories r) ->
        exists row, In row (memories (snd (init s db)))
          /\ id mem = m_id row /\ content mem = m_content row
          /\ category mem = m_category row /\ weight mem = m_weight row)
  /\ ((List.length (memories db) <= topK s)%nat ->
      forall row, In row (memories (snd (init s db))) ->
        exists mem, In mem (result_memories r)
          /\ id mem = m_id row /\ content mem = m_content row
          /\ category mem = m_category row /\ weight mem = m_weight row).
Proof.
  intros dist s db description task now r s' db' H.
  exact (startTask_result_rows dist s db description task now r s' db' H).
Qed.


Lemma startTask_returns_min_topK_witness :
  List.length
    (result_memories
       (mkStartTaskResult "t1"
          [mkMemory "p" "note" "insight" 1 (1.0 - 0) 0%Z 0%Z]))
  = Nat.min (topK store8) (List.length (memories pendingDB)).
Proof.
  apply (startTask_returns_min_topK sameLengthDistance store8 pendingDB
           "note" "t1" 5%Z _
           (snd (fst (startTask sameLengthDistance store8 pendingDB
                        "note" "t1" 5)))
           (snd (startTask sameLengthDistance store8 pendingDB
                   "note" "t1" 5))
           eq_refl).
Defined.

(** X20: round trip.  A memory stored by [insertRawMemory] is returned by
    the next [startTask] that returns, with its id, content, category and
    weight, provided topK exceeds the number of memories that were in the
    file before. *)
Theorem insertRawMemory_then_startTask :
  forall dist s db text cat w new_id now description task now2 r s2 db2,
  startTask dist
    (snd (fst (insertRawMemory s db text cat w new_id now)))
    (snd (insertRawMemory s db text cat w new_id now))
    description task now2
  = (Returned r, s2, db2) ->
  (List.length (memories db) < topK s)%nat ->
  exists mem, In mem (result_memories r)
    /\ id mem = new_id /\ content mem = text
    /\ category mem = cat /\ weight mem = w.
Proof.
  intros dist s db text cat w new_id now description task now2 r s2 db2 H Hk.
  unfold insertRawMemory in H.
  destruct (init_config s db) as (_ & _ & Htop & _).
  pose proof (init_initialized s db) as Hopen.
  assert (Hlen : List.length (memories (snd (init s db)))
                 = List.length (memories db)).
  { rewrite init_memories. destruct (initialized s); [reflexivity |].
    apply length_map. }
  destruct (init s db) as [s1 db1]. cbn [fst snd] in *.
  set (row := mkMemoryRow new_id text None cat w 0 now None 0%Z
                (currentTaskId s1)) in *.
  destruct (startTask_result_rows _ _ _ _ _ _ _ _ _ H) as (_ & _ & _ & Hall).
  rewrite (init_once _ _ Hopen) in Hall. cbn [snd] in Hall.
  destruct (Hall) with (row := row) as (mem & Hmem & H1 & H2 & H3 & H4).
  - unfold insert_memory. cbn [memories set_memories].
    rewrite length_app. cbn [List.length]. rewrite Htop. lia.
  - unfold insert_memory. cbn [memories set_memories].
    apply in_or_app. right. now left.
  - exists mem. repeat split; assumption.
Qed.

Lemma insertRawMemory_then_startTask_witness :
  exists mem,
    In mem [mkMemory "m1" "hello" "insight" 1 (1.0 - 0) 3%Z 0%Z]
    /\ id mem = "m1"%string /\ content mem = "hello"%string
    /\ category mem = "insight"%string /\ weight mem = 1.
Proof.
  apply (insertRawMemory_then_startTask sameLengthDistance store8 emptyDB
           "hello" "insight" 1 "m1" 3%Z "hello" "t1" 4%Z
           (mkStartTaskResult "t1"
              [mkMemory "m1" "hello" "insight" 1 (1.0 - 0) 3%Z 0%Z])
           (snd (fst (startTask sameLengthDistance
                        (snd (fst (insertRawMemory store8 emptyDB "hello"
                                     "insight" 1 "m1" 3)))
                        (snd (insertRawMemory store8 emptyDB "hello"
                                "insight" 1 "m1" 3))
                        "hello" "t1" 4)))
           (snd (startTask sameLengthDistance
                   (snd (fst (insertRawMemory store8 emptyDB "hello"
                                "insight" 1 "m1" 3)))
                   (snd (insertRawMemory store8 emptyDB "hello"
                           "insight" 1 "m1" 3))
                   "hello" "t1" 4))
           eq_refl).
  cbn. lia.
Defined.

(** ** The bookkeeping of [startTask] *)

Lemma insert_or_ignore_memories : forall mem task sim db,
  memories (insert_or_ignore_retrieval mem task sim db) = memories db.
Proof.
  intros. unfold insert_or_ignore_retrieval.
  destruct (existsb _ _); reflexivity.
Qed.

Lemma record_retrievals_rows : forall task now mems db,
  memories (fold_left (record_retrieval task now) mems db)
  = map (fun row =>
           fold_left
             (fun row mem => if String.eqb (m_id row) (id mem)
                             then touch now row else row)
             mems row)
      (memories db).
Proof.
  intros task now mems. induction mems as [| mem rest IH]; intros db.
  - cbn [fold_left]. now rewrite map_id.
  - cbn [fold_left]. rewrite IH. unfold record_retrieval.
    cbn [update_memory memories set_memories].
    rewrite insert_or_ignore_memories, map_map. reflexivity.
Qed.

Lemma touch_untouched : forall now (mems : list Memory) row,
  ~ In (m_id row) (map id mems) ->
  fold_left
    (fun row mem => if String.eqb (m_id row) (id mem) then touch now row
                    else row)
    mems row
  = row.
Proof.
  intros now mems. induction mems as [| mem rest IH]; intros row Hnot;
    [reflexivity |].
  cbn [fold_left]. cbn [map In] in Hnot.
  destruct (String.eqb_spec (m_id row) (id mem)) as [E | _];
    [exfalso; apply Hnot; now left |].
  apply IH. tauto.
Qed.

Lemma touch_once : forall now (mems : list Memory) row,
  NoDup (map id mems) ->
  fold_left
    (fun row mem => if String.eqb (m_id row) (id mem) then touch now row
                    else row)
    mems row
  = if existsb (String.eqb (m_id row)) (map id mems) then touch now row
    else row.
Proof.
  intros now mems. induction mems as [| mem rest IH]; intros row Hnd;
    [reflexivity |].
  cbn [fold_left map existsb]. cbn [map] in Hnd.
  inversion Hnd as [| x xs Hnot Hnd']; subst.
  destruct (String.eqb_spec (m_id row) (id mem)) as [E | N]; cbn [orb].
  - apply touch_untouched. cbn [touch m_id]. now rewrite E.
  - now apply IH.
Qed.

Lemma NoDup_firstn : forall (A : Type) (n : nat) (l : list A),
  NoDup l -> NoDup (firstn n l).
Proof.
  intros A n l H. rewrite <- (firstn_skipn n l) in H.
  now apply NoDup_app_remove_r in H.
Qed.

Lemma write_row_column : forall (B : Type) (col : MemoryRow -> B) embedded m,
  (forall e m, col (with_embedding e m) = col m) ->
  col (fold_left
         (fun row e => if String.eqb (m_id row) (fst e)
                       then with_embedding (Some (snd e)) row else row)
         embedded m)
  = col m.
Proof.
  intros B col embedded. induction embedded as [| e rest IH];
    intros m Hcol; [reflexivity |].
  cbn [fold_left]. rewrite (IH _ Hcol).
  destruct (String.eqb (m_id m) (fst e)); [apply Hcol | reflexivity].
Qed.

(** A column that no embedding write changes is the same after [init] and
    [embedPending] as before. *)
Lemma embedPending_column : forall (B : Type) (col : MemoryRow -> B) s db,
  (forall e m, col (with_embedding e m) = col m) ->
  map col (memories (snd (embedPending s db))) = map col (memories db).
Proof.
  intros B col s db Hcol. unfold embedPending.
  assert (H0 : map col (memories (snd (init s db))) = map col (memories db)).
  { rewrite init_memories. destruct (initialized s); [reflexivity |].
    rewrite map_map. apply map_ext. intros m. unfold repair.
    destruct (m_embedding m) as [e |]; [| reflexivity].
    destruct (truncated e); [apply Hcol | reflexivity]. }
  destruct (init s db) as [s0 db0]. cbn [snd] in *.
  destruct (filter _ (memories db0)) as [| r0 rest]; [exact H0 |].
  destruct (embed_rows _ _) as [embedded |]; [| exact H0].
  cbn [snd]. rewrite write_embeddings_column; assumption.
Qed.

(** ** The order of the retrieval *)

Lemma power_positive : forall x y, 0 < x -> power x y = Rpower x y.
Proof.
  intros x y Hx. unfold power.
  destruct (Rlt_dec 0 x); [reflexivity | contradiction].
Qed.

Lemma power_exponent_0 : forall x, power x 0 = 1.
Proof.
  intros x. unfold power.
  destruct (Rlt_dec 0 x) as [Hx | Hx]; [now apply Rpower_O |].
  destruct (Req_dec_T 0 0) as [_ | H]; [reflexivity | now elim H].
Qed.

Lemma power_base_0 : forall y, 0 < y -> power 0 y = 0.
Proof.
  intros y Hy. unfold power.
  destruct (Rlt_dec 0 0) as [H | _]; [lra |].
  destruct (Req_dec_T y 0) as [H | _]; [lra |].
  destruct (Req_dec_T 0 0) as [_ | H]; [reflexivity | now elim H].
Qed.

Lemma rank_days_idle : forall rate now c,
  rank rate now c = (1 - snd c) * power rate (days_idle now (fst c)).
Proof.
  intros rate now c. unfold rank, days_idle, nullish.
  replace 1.0 with 1 by lra. replace 86400.0 with 86400 by lra.
  destruct (m_last_retrieved (fst c)); reflexivity.
Qed.

Lemma rank_relevance : forall rate now c,
  0 < rate -> rank rate now c = relevance rate now (fst c) (snd c).
Proof.
  intros rate now c Hrate.
  rewrite rank_days_idle, (power_positive _ _ Hrate). reflexivity.
Qed.

Lemma relevance_whole_days : forall rate now m d (k : nat),
  0 < rate -> days_idle now m = INR k ->
  relevance rate now m d = (1 - d) * rate ^ k.
Proof.
  intros rate now m d k Hrate Hk. unfold relevance. rewrite Hk.
  fold (Rpower rate (INR k)). now rewrite Rpower_pow.
Qed.

Lemma descending_ext : forall (A : Type) (key key' : A -> R) l,
  (forall x, key x = key' x) -> descending key l -> descending key' l.
Proof.
  intros A key key' l Hkey. unfold descending.
  induction l as [| x l IH]; intros Hl; [constructor |].
  apply StronglySorted_inv in Hl. destruct Hl as [Hl Hx].
  constructor; [now apply IH |].
  eapply Forall_impl; [| exact Hx]. cbn beta. intros y Hy.
  now rewrite <- !Hkey.
Qed.

Lemma order_by_desc_swap : forall (A : Type) (key : A -> R) (a b : A),
  key a < key b -> order_by_desc key [a; b] = [b; a].
Proof.
  intros A key a b H. cbn [order_by_desc fold_right insert_desc].
  destruct (Rle_dec (key b) (key a)); [lra | reflexivity].
Qed.

Lemma order_by_desc_keep : forall (A : Type) (key : A -> R) (a b : A),
  key b <= key a -> order_by_desc key [a; b] = [a; b].
Proof.
  intros A key a b H. cbn [order_by_desc fold_right insert_desc].
  destruct (Rle_dec (key b) (key a)); [reflexivity | contradiction].
Qed.

(** X21: with a positive decay rate, the memories [startTask] returns are
    in descending order of
    (1 - distance) * decayRate ^ (days since last retrieval, or creation),
    the distance being the engine's between the embedding of the row, as
    the [embedPending] pass leaves it, and the embedded description; the
    returned score is 1 - distance, and no memory left out ranks higher than
    one returned.  For a row idle a whole number k of days the recency
    factor is decayRate multiplied k times. *)
Theorem startTask_ranking :
  forall dist s db description task now r s' db',
  0 < decayRate s ->
  startTask dist s db description task now = (Returned r, s', db') ->
  exists vec n s1 db1 picked rest,
    embed s description = Some vec
    /\ embedPending s db = (Returned n, s1, db1)
    /\ map (fun m => (m_id m, m_created_at m, m_last_retrieved m))
         (memories db1)
       = map (fun m => (m_id m, m_created_at m, m_last_retrieved m))
           (memories db)
    /\ Permutation (map fst (picked ++ rest)) (memories db1)
    /\ (forall c, In c (picked ++ rest) ->
          exists e, m_embedding (fst c) = Some e
                    /\ dist (vectorType s) e (vecBuf vec) = Some (snd c))
    /\ Forall2
         (fun c mem => id mem = m_id (fst c) /\ score mem = 1 - snd c)
         picked (result_memories r)
    /\ List.length picked = Nat.min (topK s) (List.length (memories db))
    /\ descending (fun c => relevance (decayRate s) now (fst c) (snd c))
         picked
    /\ (forall p c, In p picked -> In c rest ->
          relevance (decayRate s) now (fst c) (snd c)
          <= relevance (decayRate s) now (fst p) (snd p))
    /\ (forall c (k : nat), In c (picked ++ rest) ->
          days_idle now (fst c) = INR k ->
          relevance (decayRate s) now (fst c) (snd c)
          = (1 - snd c) * decayRate s ^ k).
Proof.
  intros dist s db description task now r s' db' Hrate H.
  destruct (startTask_returned _ _ _ _ _ _ _ _ _ H)
    as (vec & n & s1 & db1 & rows & Hvec & Hpending & Hrows & -> & _ & _).
  destruct (embedPending_rows s db n s1 db1 Hpending) as (Hall & Hlen & _).
  destruct (candidates_rows _ _ _ _ _ Hrows) as [Hfst Hdist].
  rewrite filter_all in Hfst.
  2:{ intros m Hm. specialize (Hall m Hm).
      destruct (m_embedding m); [reflexivity | now elim Hall]. }
  set (sorted := order_by_desc (rank (decayRate s) now) rows).
  assert (Hsorted : descending
                      (fun c => relevance (decayRate s) now (fst c) (snd c))
                      sorted).
  { apply (descending_ext _ (rank (decayRate s) now)).
    - intros c. now apply rank_relevance.
    - apply order_by_desc_sorted. }
  exists vec, n, s1, db1, (firstn (topK s) sorted), (skipn (topK s) sorted).
  rewrite firstn_skipn. cbn [result_memories].
  split; [exact Hvec |]. split; [exact Hpending |].
  split; [| split; [| split; [| split; [| split; [| split; [| split]]]]]].
  - pose proof (embedPending_column _
                  (fun m => (m_id m, m_created_at m, m_last_retrieved m))
                  s db (fun e m => eq_refl)) as Hcol.
    rewrite Hpending in Hcol. exact Hcol.
  - rewrite <- Hfst. apply Permutation_map. apply order_by_desc_perm.
  - intros c Hc. apply order_by_desc_In_iff in Hc. now apply Hdist.
  - apply Forall2_map_r. intros c _.
    cbn [to_memory id score]. split; [reflexivity | lra].
  - rewrite length_firstn. unfold sorted.
    now rewrite order_by_desc_length, <- (length_map fst rows), Hfst, Hlen.
  - now apply descending_firstn.
  - intros p c Hp Hc.
    apply (descending_limit
             (fun c => relevance (decayRate s) now (fst c) (snd c))
             (topK s) sorted); assumption.
  - intros c k _ Hk. now apply relevance_whole_days.
Qed.

(** The file of [twoAgesDB] searched two days after ["old"] was created,
    with the decay rate [rate]. *)
Lemma startTask_twoAges : forall rate sorted,
  order_by_desc (rank rate 172800) [(oldMemory, 0); (newMemory, 0.5)]
  = sorted ->
  startTask sameBytesDistance (openStore rate) twoAgesDB "note" "t1" 172800
  = (Returned (mkStartTaskResult "t1" (map to_memory sorted)),
     snd (fst (startTask sameBytesDistance (openStore rate) twoAgesDB "note"
                 "t1" 172800)),
     snd (startTask sameBytesDistance (openStore rate) twoAgesDB "note" "t1"
            172800)).
Proof.
  intros rate sorted Hsorted.
  assert (Hpending : embedPending (openStore rate) twoAgesDB
                     = (Returned 0%nat, openStore rate, twoAgesDB))
    by reflexivity.
  rewrite (startTask_after_embedding sameBytesDistance (openStore rate)
             twoAgesDB "note" "t1" 172800%Z (zeroVec 8) 0%nat
             (openStore rate) twoAgesDB eq_refl Hpending).
  cbn zeta.
  change (candidates sameBytesDistance (vectorType (openStore rate))
            (vecBuf (zeroVec 8))
            (memories
               (set_tasks twoAgesDB
                  (tasks twoAgesDB
                   ++ [new_task "t1" "note" (vecBuf (zeroVec 8)) 172800]))))
    with (Some [(oldMemory, 0); (newMemory, 0.5)]).
  cbv iota beta.
  change (decayRate (openStore rate)) with rate.
  change (topK (openStore rate)) with 5%nat.
  rewrite Hsorted.
  assert (Hall : firstn 5 sorted = sorted).
  { apply firstn_all2. rewrite <- Hsorted, order_by_desc_length. cbn. lia. }
  rewrite Hall. reflexivity.
Qed.

Lemma twoAges_days_idle :
  days_idle 172800 oldMemory = INR 2 /\ days_idle 172800 newMemory = INR 0.
Proof.
  unfold days_idle, oldMemory, newMemory.
  cbn [m_last_retrieved m_created_at INR]. split; lra.
Qed.

(** With the decay rate 0.5 the memory two days old ranks
    (1 - 0) * 0.5 ^ 2 = 0.25 and the new one (1 - 0.5) * 0.5 ^ 0 = 0.5: the
    new memory comes first although the old one is nearer. *)
Lemma twoAges_half_life :
  relevance 0.5 172800 oldMemory 0 = 0.25
  /\ relevance 0.5 172800 newMemory 0.5 = 0.5
  /\ order_by_desc (rank 0.5 172800) [(oldMemory, 0); (newMemory, 0.5)]
     = [(newMemory, 0.5); (oldMemory, 0)].
Proof.
  destruct twoAges_days_idle as [Hold Hnew].
  assert (H1 : relevance 0.5 172800 oldMemory 0 = 0.25).
  { rewrite (relevance_whole_days 0.5 _ _ _ 2%nat) by (lra || exact Hold).
    cbn [pow]. lra. }
  assert (H2 : relevance 0.5 172800 newMemory 0.5 = 0.5).
  { rewrite (relevance_whole_days 0.5 _ _ _ 0%nat) by (lra || exact Hnew).
    cbn [pow]. lra. }
  split; [exact H1 | split; [exact H2 |]].
  apply order_by_desc_swap.
  rewrite !rank_relevance by lra. cbn [fst snd]. rewrite H1, H2. lra.
Qed.

(** With the rate 1 age does not count and the nearer memory stays first;
    with the rate 0 a memory idle for any positive time ranks 0 and the new
    memory comes first. *)
Lemma twoAges_other_rates :
  order_by_desc (rank 1 172800) [(oldMemory, 0); (newMemory, 0.5)]
  = [(oldMemory, 0); (newMemory, 0.5)]
  /\ order_by_desc (rank 0 172800) [(oldMemory, 0); (newMemory, 0.5)]
     = [(newMemory, 0.5); (oldMemory, 0)].
Proof.
  destruct twoAges_days_idle as [Hold Hnew]. split.
  - apply order_by_desc_keep.
    rewrite !rank_relevance by lra. cbn [fst snd].
    rewrite (relevance_whole_days 1 172800 oldMemory 0 2%nat)
      by (lra || exact Hold).
    rewrite (relevance_whole_days 1 172800 newMemory 0.5 0%nat)
      by (lra || exact Hnew).
    cbn [pow]. lra.
  - apply order_by_desc_swap.
    rewrite !rank_days_idle. cbn [fst snd]. rewrite Hold, Hnew.
    cbn [INR]. rewrite power_exponent_0.
    rewrite power_base_0 by lra. lra.
Qed.

Lemma startTask_ranking_witness :
  exists vec n s1 db1 picked rest,
    embed (openStore 0.5) "note" = Some vec
    /\ embedPending (openStore 0.5) twoAgesDB = (Returned n, s1, db1)
    /\ map (fun m => (m_id m, m_created_at m, m_last_retrieved m))
         (memories db1)
       = map (fun m => (m_id m, m_created_at m, m_last_retrieved m))
           (memories twoAgesDB)
    /\ Permutation (map fst (picked ++ rest)) (memories db1)
    /\ (forall c, In c (picked ++ rest) ->
          exists e, m_embedding (fst c) = Some e
                    /\ sameBytesDistance (vectorType (openStore 0.5)) e
                         (vecBuf vec)
                       = Some (snd c))
    /\ Forall2
         (fun c mem => id mem = m_id (fst c) /\ score mem = 1 - snd c)
         picked
         (result_memories
            (mkStartTaskResult "t1"
               (map to_memory [(newMemory, 0.5); (oldMemory, 0)])))
    /\ List.length picked
       = Nat.min (topK (openStore 0.5)) (List.length (memories twoAgesDB))
    /\ descending
         (fun c => relevance (decayRate (openStore 0.5)) 172800 (fst c)
                     (snd c))
         picked
    /\ (forall p c, In p picked -> In c rest ->
          relevance (decayRate (openStore 0.5)) 172800 (fst c) (snd c)
          <= relevance (decayRate (openStore 0.5)) 172800 (fst p) (snd p))
    /\ (forall c (k : nat), In c (picked ++ rest) ->
          days_idle 172800 (fst c) = INR k ->
          relevance (decayRate (openStore 0.5)) 172800 (fst c) (snd c)
          = (1 - snd c) * decayRate (openStore 0.5) ^ k).
Proof.
  apply (startTask_ranking sameBytesDistance (openStore 0.5) twoAgesDB
           "note" "t1" 172800%Z
           (mkStartTaskResult "t1"
              (map to_memory [(newMemory, 0.5); (oldMemory, 0)]))
           (snd (fst (startTask sameBytesDistance (openStore 0.5) twoAgesDB
                        "note" "t1" 172800)))
           (snd (startTask sameBytesDistance (openStore 0.5) twoAgesDB
                   "note" "t1" 172800))).
  - cbn. lra.
  - exact (startTask_twoAges 0.5 _ (proj2 (proj2 twoAges_half_life))).
Defined.

(** The same search under the three decay rates: what [startTask]
    returns. *)
Example startTask_decay_rates :
  fst (fst (startTask sameBytesDistance (openStore 0.5) twoAgesDB "note"
              "t1" 172800))
  = Returned
      (mkStartTaskResult "t1"
         [mkMemory "new" "note" "insight" 1 (1.0 - 0.5) 172800%Z 0%Z;
          mkMemory "old" "note" "insight" 1 (1.0 - 0) 0%Z 0%Z])
  /\ fst (fst (startTask sameBytesDistance (openStore 1) twoAgesDB "note"
                 "t1" 172800))
     = Returned
         (mkStartTaskResult "t1"
            [mkMemory "old" "note" "insight" 1 (1.0 - 0) 0%Z 0%Z;
             mkMemory "new" "note" "insight" 1 (1.0 - 0.5) 172800%Z 0%Z])
  /\ fst (fst (startTask sameBytesDistance (openStore 0) twoAgesDB "note"
                 "t1" 172800))
     = Returned
         (mkStartTaskResult "t1"
            [mkMemory "new" "note" "insight" 1 (1.0 - 0.5) 172800%Z 0%Z;
             mkMemory "old" "note" "insight" 1 (1.0 - 0) 0%Z 0%Z]).
Proof.
  destruct twoAges_half_life as (_ & _ & Hhalf).
  destruct twoAges_other_rates as [Hone Hzero].
  rewrite (startTask_twoAges 0.5 _ Hhalf), (startTask_twoAges 1 _ Hone),
    (startTask_twoAges 0 _ Hzero).
  repeat split.
Qed.

Lemma record_retrieval_rows_grow : forall task now mem db,
  incl (memory_retrievals db)
    (memory_retrievals (record_retrieval task now db mem))
  /\ exists row, In row (memory_retrievals (record_retrieval task now db mem))
                 /\ r_memory_id row = id mem /\ r_task_id row = task.
Proof.
  intros task now mem db. unfold record_retrieval.
  cbn [update_memory memory_retrievals set_memories].
  unfold insert_or_ignore_retrieval.
  destruct (existsb _ (memory_retrievals db)) eqn:E.
  - split; [apply incl_refl |].
    apply existsb_exists in E. destruct E as [row [Hrow Hkey]].
    apply andb_true_iff in Hkey. destruct Hkey as [H1 H2].
    apply String.eqb_eq in H1, H2. exists row. tauto.
  - cbn [memory_retrievals set_memory_retrievals]. split.
    + intros x Hx. apply in_or_app. now left.
    + eexists. split; [apply in_or_app; right; now left |].
      split; reflexivity.
Qed.

Lemma record_retrievals_rows_grow : forall task now mems db,
  incl (memory_retrievals db)
    (memory_retrievals (fold_left (record_retrieval task now) mems db))
  /\ forall mem, In mem mems ->
       exists row,
         In row (memory_retrievals
                   (fold_left (record_retrieval task now) mems db))
         /\ r_memory_id row = id mem /\ r_task_id row = task.
Proof.
  intros task now mems. induction mems as [| mem rest IH]; intros db.
  - split; [apply incl_refl | intros mem []].
  - cbn [fold_left].
    destruct (IH (record_retrieval task now db mem)) as [Hincl Hall].
    destruct (record_retrieval_rows_grow task now mem db) as [Hincl0 Hnew].
    split; [eapply incl_tran; eassumption |].
    intros m [<- | Hm]; [| now apply Hall].
    destruct Hnew as (row & Hrow & Hkeys). exists row.
    split; [now apply Hincl | exact Hkeys].
Qed.

(** X22: when [startTask] returns, every returned memory has a
    memory_retrievals row for this task, and, ids being unique, the
    retrieval_count of each returned memory has gone up by exactly one with
    last_retrieved set to now, while the other memories keep both. *)
Theorem startTask_records_retrievals :
  forall dist s db description task now r s' db',
  startTask dist s db description task now = (Returned r, s', db') ->
  (forall mem, In mem (result_memories r) ->
     exists row, In row (memory_retrievals db')
                 /\ r_memory_id row = id mem /\ r_task_id row = task)
  /\ (unique_ids db ->
      map (fun m => (m_id m, m_retrieval_count m, m_last_retrieved m))
        (memories db')
      = map (fun m =>
               if existsb (String.eqb (m_id m))
                    (map id (result_memories r))
               then (m_id m, (m_retrieval_count m + 1)%Z, Some now)
               else (m_id m, m_retrieval_count m, m_last_retrieved m))
          (memories db)).
Proof.
  intros dist s db description task now r s' db' H.
  destruct (startTask_returned _ _ _ _ _ _ _ _ _ H)
    as (vec & n & s1 & db1 & rows & Hvec & Hpending & Hrows & Hr & _ & ->).
  split.
  - intros mem Hmem. now apply record_retrievals_rows_grow.
  - intros Huniq.
    set (col := fun m => (m_id m, m_retrieval_count m, m_last_retrieved m)).
    assert (Hcol : map col (memories db1) = map col (memories db)).
    { replace db1 with (snd (embedPending s db)) by now rewrite Hpending.
      now apply embedPending_column. }
    assert (Hids : map m_id (memories db1) = map m_id (memories db)).
    { replace db1 with (snd (embedPending s db)) by now rewrite Hpending.
      now apply embedPending_column. }
    destruct (embedPending_rows s db n s1 db1 Hpending) as (Hall & _).
    destruct (candidates_rows _ _ _ _ _ Hrows) as [Hfst _].
    rewrite filter_all in Hfst.
    2:{ intros m Hm. specialize (Hall m Hm).
        destruct (m_embedding m); [reflexivity | now elim Hall]. }
    assert (Hnd : NoDup (map id (result_memories r))).
    { rewrite Hr. cbn [result_memories]. rewrite map_map.
      rewrite (map_ext (fun c => id (to_memory c)) (fun c => m_id (fst c)))
        by reflexivity.
      rewrite <- firstn_map. apply NoDup_firstn.
      apply (Permutation_NoDup (l := map (fun c => m_id (fst c)) rows)).
      - apply Permutation_map, Permutation_sym, order_by_desc_perm.
      - rewrite <- (map_map fst m_id), Hfst, Hids. exact Huniq. }
    rewrite record_retrievals_rows. cbn [memories set_tasks].
    rewrite map_map.
    rewrite (map_ext_in _
               (fun m => if existsb (String.eqb (m_id m))
                              (map id (result_memories r))
                         then (m_id m, (m_retrieval_count m + 1)%Z, Some now)
                         else col m)).
    2:{ intros m _. rewrite (touch_once now _ m Hnd).
        destruct (existsb _ _); reflexivity. }
    rewrite <- (map_map col
                  (fun t => if existsb (String.eqb (fst (fst t)))
                                 (map id (result_memories r))
                            then (fst (fst t), (snd (fst t) + 1)%Z, Some now)
                            else t)).
    rewrite Hcol, map_map. reflexivity.
Qed.

Lemma startTask_records_retrievals_witness :
  map (fun m => (m_id m, m_retrieval_count m, m_last_retrieved m))
    (memories (snd (startTask sameLengthDistance store8 pendingDB
                      "note" "t1" 5)))
  = map (fun m =>
           if existsb (String.eqb (m_id m))
                (map id
                   (result_memories
                      (mkStartTaskResult "t1"
                         [mkMemory "p" "note" "insight" 1 (1.0 - 0)
                            0%Z 0%Z])))
           then (m_id m, (m_retrieval_count m + 1)%Z, Some 5%Z)
           else (m_id m, m_retrieval_count m, m_last_retrieved m))
      (memories pendingDB).
Proof.
  apply (proj2 (startTask_records_retrievals sameLengthDistance store8
                  pendingDB "note" "t1" 5%Z _
                  (snd (fst (startTask sameLengthDistance store8 pendingDB
                               "note" "t1" 5)))
                  (snd (startTask sameLengthDistance store8 pendingDB
                          "note" "t1" 5))
                  eq_refl)).
  unfold unique_ids. cbn. constructor; [intros [] | constructor].
Defined.

(** ** The key of [memory_retrievals] *)

Lemma retrieval_key_absent : forall mem task rows,
  existsb (fun r => String.eqb (r_memory_id r) mem
                    && String.eqb (r_task_id r) task) rows = false ->
  ~ In (mem, task) (map (fun r => (r_memory_id r, r_task_id r)) rows).
Proof.
  intros mem task rows H Hin. apply in_map_iff in Hin.
  destruct Hin as [r [Hkey Hr]]. injection Hkey as H1 H2.
  assert (Hex : existsb (fun r => String.eqb (r_memory_id r) mem
                                  && String.eqb (r_task_id r) task) rows
                = true).
  { apply existsb_exists. exists r. split; [exact Hr |].
    rewrite H1, H2, !String.eqb_refl. reflexivity. }
  rewrite H in Hex. discriminate.
Qed.

Lemma record_retrieval_unique : forall task now mem db,
  unique_retrievals db -> unique_retrievals (record_retrieval task now db mem).
Proof.
  intros task now mem db H. unfold unique_retrievals, record_retrieval in *.
  cbn [update_memory memory_retrievals set_memories].
  unfold insert_or_ignore_retrieval.
  destruct (existsb _ (memory_retrievals db)) eqn:E; [exact H |].
  cbn [memory_retrievals set_memory_retrievals]. rewrite map_app.
  apply NoDup_app; [exact H | constructor; [intros [] | constructor] |].
  intros k Hk [<- | []]. cbn [r_memory_id r_task_id] in Hk.
  exact (retrieval_key_absent _ _ _ E Hk).
Qed.

Lemma record_retrievals_unique : forall task now mems db,
  unique_retrievals db ->
  unique_retrievals (fold_left (record_retrieval task now) mems db).
Proof.
  intros task now mems. induction mems as [| mem rest IH]; intros db H;
    [exact H |].
  cbn [fold_left]. apply IH. now apply record_retrieval_unique.
Qed.

Lemma write_embeddings_retrievals : forall embedded db,
  memory_retrievals (fold_left write_embedding embedded db)
  = memory_retrievals db.
Proof.
  induction embedded as [| e rest IH]; intros db; [reflexivity |].
  cbn [fold_left]. now rewrite IH.
Qed.

Lemma embedPending_retrievals : forall s db,
  memory_retrievals (snd (embedPending s db)) = memory_retrievals db.
Proof.
  intros s db. unfold embedPending.
  pose proof (init_memory_retrievals s db) as H0.
  destruct (init s db) as [s0 db0]. cbn [snd] in *.
  destruct (filter _ (memories db0)) as [| r0 rest]; [exact H0 |].
  destruct (embed_rows _ _) as [embedded |]; [| exact H0].
  cbn [snd]. now rewrite write_embeddings_retrievals.
Qed.

Lemma rate_entries_retrieval_keys : forall ts k rate task entries db,
  map (fun r => (r_memory_id r, r_task_id r))
    (memory_retrievals (rate_entries ts k rate task db entries))
  = map (fun r => (r_memory_id r, r_task_id r)) (memory_retrievals db).
Proof.
  intros ts k rate task entries. unfold rate_entries.
  induction entries as [| e rest IH]; intros db; [reflexivity |].
  cbn [fold_left]. rewrite IH. unfold rate_entry, update_retrieval.
  cbn [memory_retrievals set_memory_retrievals]. rewrite map_map.
  destruct (get_memory (memoryId e) db);
    cbn [update_memory memory_retrievals set_memories];
    apply map_ext; intros r;
    destruct (String.eqb (r_memory_id r) (memoryId e)
              && String.eqb (r_task_id r) task); reflexivity.
Qed.

Lemma NoDup_map_filter : forall (A B : Type) (f : A -> B) (p : A -> bool) l,
  NoDup (map f l) -> NoDup (map f (filter p l)).
Proof.
  intros A B f p l. induction l as [| x l IH]; intros H; [constructor |].
  cbn [map] in H. inversion H as [| y ys Hnot Hnd]; subst.
  cbn [filter]. destruct (p x); [| now apply IH].
  cbn [map]. constructor; [| now apply IH].
  intros Hin. apply Hnot. apply in_map_iff in Hin.
  destruct Hin as [z [Hz Hin]]. apply filter_In in Hin.
  rewrite <- Hz. apply in_map. tauto.
Qed.

(** X23: the key (memory_id, task_id) of memory_retrievals stays unique:
    [startTask] ignores a retrieval row that is already there, [endTask]
    only updates rows, [contradictMemory] only deletes them. *)
Theorem retrieval_keys_stay_unique :
  forall dist s db description task now r s' db' input key correction new_id,
  unique_retrievals db ->
  (startTask dist s db description task now = (Returned r, s', db') ->
     unique_retrievals db')
  /\ unique_retrievals (snd (endTask s db task input now))
  /\ unique_retrievals (snd (contradictMemory s db key correction new_id now)).
Proof.
  intros dist s db description task now r s' db' input key correction new_id
    Huniq.
  split; [| split].
  - intros H.
    destruct (startTask_returned _ _ _ _ _ _ _ _ _ H)
      as (vec & n & s1 & db1 & rows & _ & Hpending & _ & _ & _ & ->).
    apply record_retrievals_unique. unfold unique_retrievals in *.
    cbn [memory_retrievals set_tasks].
    replace db1 with (snd (embedPending s db)) by now rewrite Hpending.
    now rewrite embedPending_retrievals.
  - unfold unique_retrievals in *. unfold endTask.
    pose proof (init_memory_retrievals s db) as H0.
    destruct (init s db) as [s0 db0]. cbn [snd] in *.
    destruct (selfReport input) as [[| e l] |];
      try (cbn [memory_retrievals set_meta update_task set_tasks];
           now rewrite H0).
    rewrite rate_entries_retrieval_keys.
    cbn [memory_retrievals set_meta update_task set_tasks]. now rewrite H0.
  - unfold unique_retrievals in *. unfold contradictMemory.
    pose proof (init_memory_retrievals s db) as H0.
    destruct (init s db) as [s0 db0]. cbn [snd] in *.
    assert (Hf : NoDup (map (fun r => (r_memory_id r, r_task_id r))
                          (filter (fun r => negb (String.eqb (r_memory_id r)
                                                    key))
                             (memory_retrievals db0)))).
    { apply NoDup_map_filter. now rewrite H0. }
    destruct correction as [text |]; [| exact Hf].
    destruct (negb (String.eqb text "") && _); [| exact Hf].
    destruct (embed s0 text); exact Hf.
Qed.

Lemma retrieval_keys_stay_unique_witness :
  unique_retrievals
    (snd (endTask store8 ratedDB "t1" (endInput (Some [good3; bad0])) 9)).
Proof.
  apply (retrieval_keys_stay_unique sameLengthDistance store8 ratedDB "auth"
           "t1" 9%Z (mkStartTaskResult "t1" []) store8 ratedDB
           (endInput (Some [good3; bad0])) "good" None "c").
  unfold unique_retrievals. cbn.
  constructor; [intros [H | []]; discriminate H |].
  constructor; [intros [] | constructor].
Defined.

(** ** [contradictMemory] *)

(** The file after the two [DELETE]s of [contradictMemory]. *)
Lemma contradictMemory_db : forall s db key correction new_id now,
  let db0 := snd (init s db) in
  let cut :=
    set_memory_retrievals
      (set_memories db0
         (filter (fun m => negb (String.eqb (m_id m) key)) (memories db0)))
      (filter (fun r => negb (String.eqb (r_memory_id r) key))
         (memory_retrievals db0)) in
  snd (contradictMemory s db key correction new_id now) = cut
  \/ exists row,
       snd (contradictMemory s db key correction new_id now)
       = insert_memory cut row
       /\ m_id row = new_id.
Proof.
  intros s db key correction new_id now. cbn zeta. unfold contradictMemory.
  destruct (init s db) as [s0 db0]. cbn [snd].
  destruct correction as [text |]; [| now left].
  destruct (negb (String.eqb text "") && _); [| now left].
  destruct (embed s0 text); [| now left].
  right. eexists. split; reflexivity.
Qed.

Lemma contradictMemory_no_row : forall s db key correction new_id now m,
  new_id <> key ->
  In m (memories (snd (contradictMemory s db key correction new_id now))) ->
  m_id m <> key.
Proof.
  intros s db key correction new_id now m Hfresh Hin.
  destruct (contradictMemory_db s db key correction new_id now)
    as [H | [row [H Hid]]]; rewrite H in Hin.
  - cbn [memories set_memory_retrievals set_memories] in Hin.
    apply filter_In in Hin. destruct Hin as [_ Hne].
    apply negb_true_iff in Hne. now apply String.eqb_neq.
  - unfold insert_memory in Hin.
    cbn [memories set_memory_retrievals set_memories] in Hin.
    apply in_app_or in Hin. destruct Hin as [Hin | [<- | []]].
    + apply filter_In in Hin. destruct Hin as [_ Hne].
      apply negb_true_iff in Hne. now apply String.eqb_neq.
    + now rewrite Hid.
Qed.

(** X24: with a fresh id for the correction, [contradictMemory] leaves no
    memory and no retrieval row bearing the contradicted id, whether it
    returns or fails, and keeps every other memory and every other
    retrieval row. *)
Theorem contradictMemory_deletes : forall s db key correction new_id now,
  new_id <> key ->
  let db' := snd (contradictMemory s db key correction new_id now) in
  (forall m, In m (memories db') -> m_id m <> key)
  /\ (forall r, In r (memory_retrievals db') -> r_memory_id r <> key)
  /\ (forall m, In m (memories (snd (init s db))) -> m_id m <> key ->
        In m (memories db'))
  /\ (forall r, In r (memory_retrievals db) -> r_memory_id r <> key ->
        In r (memory_retrievals db')).
Proof.
  intros s db key correction new_id now Hfresh. cbn zeta.
  split; [intros m; now apply contradictMemory_no_row |].
  pose proof (init_memory_retrievals s db) as Hr0.
  destruct (contradictMemory_db s db key correction new_id now)
    as [H | [row [H Hid]]]; rewrite H; unfold insert_memory;
    cbn [memories memory_retrievals set_memory_retrievals set_memories];
    rewrite Hr0.
  - repeat split.
    + intros r Hr. apply filter_In in Hr. destruct Hr as [_ Hne].
      apply negb_true_iff in Hne. now apply String.eqb_neq.
    + intros m Hm Hne. apply filter_In. split; [exact Hm |].
      apply negb_true_iff. now apply String.eqb_neq.
    + intros r Hr Hne. apply filter_In. split; [exact Hr |].
      apply negb_true_iff. now apply String.eqb_neq.
  - repeat split.
    + intros r Hr. apply filter_In in Hr. destruct Hr as [_ Hne].
      apply negb_true_iff in Hne. now apply String.eqb_neq.
    + intros m Hm Hne. apply in_or_app. left.
      apply filter_In. split; [exact Hm |].
      apply negb_true_iff. now apply String.eqb_neq.
    + intros r Hr Hne. apply filter_In. split; [exact Hr |].
      apply negb_true_iff. now apply String.eqb_neq.
Qed.

Lemma contradictMemory_deletes_witness :
  In (sampleMemory "good" None 1 1%Z)
    (memories (snd (contradictMemory store8 ratedDB "bad" None "c" 9))).
Proof.
  destruct (contradictMemory_deletes store8 ratedDB "bad" None "c" 9%Z)
    as (_ & _ & Hkeep & _).
  - discriminate.
  - apply Hkeep; [now left | discriminate].
Defined.

(** X25: the outcomes of [contradictMemory].  An unknown id gives
    deleted = false and stores nothing, correction or not.  A known id
    without correction, or with the empty string, gives deleted = true and
    no correction id.  A known id with a non-empty correction stores it as a
    new memory of category correction and weight 2.0 and returns its id;
    if the embedder rejects the correction the call fails after the
    deletion, which stays. *)
Theorem contradictMemory_outcomes : forall s db key correction new_id now,
  let db0 := snd (init s db) in
  let cut :=
    set_memory_retrievals
      (set_memories db0
         (filter (fun m => negb (String.eqb (m_id m) key)) (memories db0)))
      (filter (fun r => negb (String.eqb (r_memory_id r) key))
         (memory_retrievals db0)) in
  ((forall m, In m (memories db0) -> m_id m <> key) ->
     fst (fst (contradictMemory s db key correction new_id now))
     = Returned (mkContradictResult false None)
     /\ memories (snd (contradictMemory s db key correction new_id now))
        = memories db0)
  /\ ((exists m, In m (memories db0) /\ m_id m = key) ->
      (correction = None \/ correction = Some ""%string ->
         contradictMemory s db key correction new_id now
         = (Returned (mkContradictResult true None), fst (init s db), cut))
      /\ (forall text vec, correction = Some text -> text <> ""%string ->
            embed s text = Some vec ->
            exists row,
              contradictMemory s db key correction new_id now
              = (Returned (mkContradictResult true (Some new_id)),
                 fst (init s db), insert_memory cut row)
              /\ m_id row = new_id /\ m_content row = text
              /\ m_category row = "correction"%string
              /\ m_weight row = 2.0
              /\ m_embedding row = Some (vecBuf vec))
      /\ (forall text, correction = Some text -> text <> ""%string ->
            embed s text = None ->
            contradictMemory s db key correction new_id now
            = (Thrown EmbedFailure, fst (init s db), cut))).
Proof.
  intros s db key correction new_id now. cbn zeta. unfold contradictMemory.
  destruct (init_config s db) as (Hembed & _).
  destruct (init s db) as [s0 db0]. cbn [fst snd] in *. cbn zeta.
  split.
  - intros Hnone.
    assert (Hex : existsb (fun m => String.eqb (m_id m) key) (memories db0)
                  = false).
    { destruct (existsb _ _) eqn:E; [| reflexivity].
      apply existsb_exists in E. destruct E as [m [Hm Hid]].
      apply String.eqb_eq in Hid. now elim (Hnone m Hm). }
    assert (Hkeep : filter (fun m => negb (String.eqb (m_id m) key))
                      (memories db0) = memories db0).
    { apply filter_all. intros m Hm. apply negb_true_iff.
      apply String.eqb_neq. now apply Hnone. }
    destruct correction as [text |]; rewrite Hex, ?andb_false_r;
      cbn [fst snd memories set_memory_retrievals set_memories];
      split; try reflexivity; exact Hkeep.
  - intros (m & Hm & Hid).
    assert (Hex : existsb (fun m => String.eqb (m_id m) key) (memories db0)
                  = true).
    { apply existsb_exists. exists m. split; [exact Hm |].
      now apply String.eqb_eq. }
    split; [| split].
    + intros [-> | ->]; rewrite Hex; reflexivity.
    + intros text vec -> Hne Hvec.
      apply String.eqb_neq in Hne. rewrite Hex, Hne. cbn [negb andb].
      rewrite Hembed, Hvec. eexists. split; [reflexivity |].
      repeat split.
    + intros text -> Hne Hfail.
      apply String.eqb_neq in Hne. rewrite Hex, Hne. cbn [negb andb].
      now rewrite Hembed, Hfail.
Qed.

Lemma contradictMemory_outcomes_witness :
  fst (fst (contradictMemory store8 ratedDB "nobody" (Some "fix"%string)
              "c" 9))
  = Returned (mkContradictResult false None)
  /\ memories (snd (contradictMemory store8 ratedDB "nobody"
                      (Some "fix"%string) "c" 9))
     = memories (snd (init store8 ratedDB)).
Proof.
  apply (contradictMemory_outcomes store8 ratedDB "nobody"
           (Some "fix"%string) "c" 9%Z).
  intros m [<- | [<- | []]]; discriminate.
Defined.

Lemma contradictMemory_opened : forall s db key correction new_id now,
  initialized (snd (fst (contradictMemory s db key correction new_id now)))
  = true.
Proof.
  intros. unfold contradictMemory.
  pose proof (init_initialized s db) as Ho.
  destruct (init s db) as [s0 db0]. cbn [fst] in Ho.
  destruct correction as [text |]; [| exact Ho].
  destruct (negb (String.eqb text "") && _); [| exact Ho].
  destruct (embed s0 text); exact Ho.
Qed.

(** X26: a contradicted memory is never retrieved again: after
    [contradictMemory], with a fresh id for the correction, no later
    [startTask] returns the contradicted id. *)
Theorem contradicted_memory_not_retrieved :
  forall dist s db key correction new_id now description task now2 r s2 db2,
  new_id <> key ->
  startTask dist
    (snd (fst (contradictMemory s db key correction new_id now)))
    (snd (contradictMemory s db key correction new_id now))
    description task now2
  = (Returned r, s2, db2) ->
  ~ In key (map id (result_memories r)).
Proof.
  intros dist s db key correction new_id now description task now2 r s2 db2
    Hfresh H Hin.
  apply in_map_iff in Hin. destruct Hin as [mem [Hid Hmem]].
  destruct (startTask_result_rows _ _ _ _ _ _ _ _ _ H) as (_ & _ & Hfrom & _).
  destruct (Hfrom mem Hmem) as (row & Hrow & Hrid & _).
  rewrite (init_once _ _ (contradictMemory_opened s db key correction
                            new_id now)) in Hrow.
  cbn [snd] in Hrow.
  apply (contradictMemory_no_row s db key correction new_id now row Hfresh
           Hrow).
  now rewrite <- Hrid.
Qed.

Lemma contradicted_memory_not_retrieved_witness :
  fst (fst (startTask sameLengthDistance
              (snd (fst (contradictMemory store8 pendingDB "p" None "c" 1)))
              (snd (contradictMemory store8 pendingDB "p" None "c" 1))
              "note" "t1" 5))
  = Returned (mkStartTaskResult "t1" [])
  /\ ~ In "p"%string (map id (result_memories (mkStartTaskResult "t1" []))).
Proof.
  split; [reflexivity |].
  apply (contradicted_memory_not_retrieved sameLengthDistance store8
           pendingDB "p" None "c" 1%Z "note" "t1" 5%Z
           (mkStartTaskResult "t1" [])
           (snd (fst (startTask sameLengthDistance
                        (snd (fst (contradictMemory store8 pendingDB "p"
                                     None "c" 1)))
                        (snd (contradictMemory store8 pendingDB "p"
                                None "c" 1))
                        "note" "t1" 5)))
           (snd (startTask sameLengthDistance
                   (snd (fst (contradictMemory store8 pendingDB "p"
                                None "c" 1)))
                   (snd (contradictMemory store8 pendingDB "p" None "c" 1))
                   "note" "t1" 5))).
  - discriminate.
  - reflexivity.
Defined.

(** ** The current task *)

Lemma embedPending_store : forall s db,
  snd (fst (embedPending s db)) = fst (init s db).
Proof.
  intros s db. unfold embedPending. destruct (init s db) as [s0 db0].
  destruct (filter _ (memories db0)); [reflexivity |].
  destruct (embed_rows _ _); reflexivity.
Qed.

Lemma endTask_currentTaskId : forall s db task input now,
  currentTaskId (snd (fst (endTask s db task input now)))
  = match currentTaskId s with
    | Some t => if String.eqb t task then None else Some t
    | None => None
    end.
Proof.
  intros. unfold endTask.
  destruct (init_config s db) as (_ & _ & _ & _ & _ & Hcur).
  destruct (init s db) as [s0 db0]. cbn [fst snd] in *.
  rewrite <- Hcur.
  change (currentTaskId (set_baseline s0
            (updateBaseline (baseline s0) (tokensUsed input) (errors input)
               (userCorrections input))))
    with (currentTaskId s0).
  destruct (currentTaskId s0) as [t |] eqn:E; [| exact E].
  destruct (String.eqb t task); [reflexivity | exact E].
Qed.

(** X27: the life of a task.  When [startTask] returns, its task is the
    current one; a correction reported from then on is stored with that task
    as source_task; [endTask] of that task clears the current task, while
    [endTask] of any other task id leaves it in place. *)
Theorem current_task_lifecycle :
  forall dist s db description task now r s1 db1,
  startTask dist s db description task now = (Returned r, s1, db1) ->
  currentTaskId s1 = Some task
  /\ (forall input new_id now2 vec,
        embed s (correction_content input) = Some vec ->
        exists row,
          In row (memories (snd (reportCorrection s1 db1 input new_id now2)))
          /\ m_id row = new_id /\ m_source_task row = Some task)
  /\ (forall input now2,
        currentTaskId (snd (fst (endTask s1 db1 task input now2))) = None)
  /\ (forall other input now2, other <> task ->
        currentTaskId (snd (fst (endTask s1 db1 other input now2)))
        = Some task).
Proof.
  intros dist s db description task now r s1 db1 H.
  destruct (startTask_returned _ _ _ _ _ _ _ _ _ H)
    as (vec & n & s0 & db0 & rows & _ & Hpending & _ & _ & -> & _).
  assert (Hs0 : s0 = fst (init s db)).
  { rewrite <- (embedPending_store s db). now rewrite Hpending. }
  destruct (init_config s db) as (Hembed & _).
  split; [reflexivity | split; [| split]].
  - intros input new_id now2 v Hv.
    assert (Hv' : embed (set_currentTaskId s0 (Some task))
                    (correction_content input) = Some v).
    { cbn [set_currentTaskId embed]. now rewrite Hs0, Hembed. }
    rewrite (reportCorrection_db _ db1 input new_id now2 v Hv').
    eexists. split.
    + cbn [snd insert_memory memories set_memories].
      apply in_or_app. right. now left.
    + split; reflexivity.
  - intros input now2. rewrite endTask_currentTaskId.
    cbn [set_currentTaskId currentTaskId]. now rewrite String.eqb_refl.
  - intros other input now2 Hne. rewrite endTask_currentTaskId.
    cbn [set_currentTaskId currentTaskId].
    apply not_eq_sym in Hne. apply String.eqb_neq in Hne. now rewrite Hne.
Qed.

Lemma current_task_lifecycle_witness :
  currentTaskId
    (snd (fst (startTask sameLengthDistance store8 emptyDB "x" "t1" 5)))
  = Some "t1"%string.
Proof.
  apply (current_task_lifecycle sameLengthDistance store8 emptyDB "x" "t1"
           5%Z (mkStartTaskResult "t1" [])
           (snd (fst (startTask sameLengthDistance store8 emptyDB "x" "t1" 5)))
           (snd (startTask sameLengthDistance store8 emptyDB "x" "t1" 5))
           eq_refl).
Defined.

(** ** Vectors as blobs *)

(** X28: [vecBuf] neither widens nor narrows nor loses a vector: the blob
    has four bytes per element, and two vectors with the same blob are the
    same vector. *)
Theorem vecBuf_faithful : forall v1 v2 : Float32Array,
  length_blob (vecBuf v1) = (4 * List.length v1)%nat
  /\ (vecBuf v1 = vecBuf v2 -> v1 = v2).
Proof.
  intros v1 v2. split; [rewrite vecBuf_length; lia |].
  revert v2. induction v1 as [| x v1 IH]; intros [| y v2] H;
    try reflexivity; try discriminate H.
  unfold vecBuf in H. cbn [flat_map app] in H.
  injection H as H0 H1 H2 H3 H. f_equal.
  - destruct x, y. cbn in *. congruence.
  - now apply IH.
Qed.
